(** * eudore: the standard logger (loggerStd, entryStd, syncWriterRotate)

    A shallow embedding of the logger of package eudore: the entry model
    with its pool, the reflection based value encoder, the JSON string
    escaper, the rendering of one line, and the rotating file writer.

    Conventions.
    - A Go [string] and a Go [[]byte] are both [list byte].
    - Go's [int] and [uint64] are [Z], with the wrap-around written out
      where the code does arithmetic on them.
    - Code that can panic or loop lives in the monad [M]: a state
      transformer whose outcome is a result, a panic, or running out of
      the fuel given to the only unbounded loop ([rotateFile]).
    - The Go standard library ([time], [fmt]) and the caller-location
      helper of the package are parameters, gathered in the class
      [GoLib]. *)

From Stdlib Require Import ZArith NArith List Lia String Ascii.
From Stdlib Require Import Strings.Byte.
From stdpp Require Import base option list gmap.
Import ListNotations.

Set Warnings "-register-all".
Local Open Scope Z_scope.

(** ** Bytes and Go strings *)

Abbreviation gostring := (list byte).

(** Bytes are compared by their value. *)
#[global] Instance byte_eq_decision : EqDecision byte.
Proof.
  intros a b. destruct (N.eq_dec (Byte.to_N a) (Byte.to_N b)) as [E|E].
  - left. abstract (apply (f_equal Byte.of_N) in E;
                    rewrite !Byte.of_to_N in E; congruence).
  - right. abstract (intros ->; apply E; reflexivity).
Defined.

#[global] Instance byte_countable : Countable byte.
Proof.
  refine (inj_countable' Byte.to_N
            (fun n => default Byte.x00 (Byte.of_N n)) _).
  abstract (intros b; now rewrite Byte.of_to_N).
Defined.

(** [str "abc"] is the Go string literal "abc". *)
Definition str (s : string) : gostring := list_byte_of_string s.

(** The numeric value of a byte. *)
Definition bv (b : byte) : N := Byte.to_N b.

Definition quote : byte := Byte.x22.      (* the double quote *)
Definition backslash : byte := Byte.x5c.
Definition comma : byte := Byte.x2c.
Definition colon : byte := Byte.x3a.
Definition lbrace : byte := Byte.x7b.
Definition rbrace : byte := Byte.x7d.
Definition lbracket : byte := Byte.x5b.
Definition rbracket : byte := Byte.x5d.
Definition newline : byte := Byte.x0a.

(** [const _hex = "0123456789abcdef"] *)
Definition _hex : gostring := str "0123456789abcdef".

(** [s[i]] for an index known to be in range: every use below indexes
    [_hex] with a value below 16. *)
Definition hex_at (i : N) : byte := nth (N.to_nat i) _hex Byte.x30.

(** [data[len(data)-1] = c].  Every use in the source follows an append
    to [data] (or a test [len(data) > 1]), so the index is in range there;
    on an empty buffer, where Go would panic, this does nothing. *)
Definition set_last (data : list byte) (c : byte) : list byte :=
  <[Nat.pred (length data) := c]> data.

(** ** unicode/utf8 (Go standard library)

    [DecodeRune] follows the table driven decoder of the library: [first]
    gives for a leading byte the size of the sequence (low three bits)
    and the index of the range accepted for the second byte (high four
    bits); [as_] marks ASCII and [xx] an invalid leading byte. *)

Definition RuneError : Z := 0xFFFD.
Definition RuneSelf : N := 0x80.

Definition xx : N := 0xF1.
Definition as_ : N := 0xF0.
Definition s1 : N := 0x02.
Definition s2 : N := 0x13.
Definition s3 : N := 0x03.
Definition s4 : N := 0x23.
Definition s5 : N := 0x34.
Definition s6 : N := 0x04.
Definition s7 : N := 0x44.

Definition first (b : N) : N :=
  (if b <? 0x80 then as_
   else if b <? 0xC2 then xx
   else if b <? 0xE0 then s1
   else if b =? 0xE0 then s2
   else if b <? 0xED then s3
   else if b =? 0xED then s4
   else if b <? 0xF0 then s3
   else if b =? 0xF0 then s5
   else if b <? 0xF4 then s6
   else if b =? 0xF4 then s7
   else xx)%N.

Definition locb : N := 0x80.
Definition hicb : N := 0xBF.

(** [acceptRanges[i]] as the pair (lo, hi). *)
Definition acceptRanges (i : N) : N * N :=
  match i with
  | 0%N => (locb, hicb)
  | 1%N => (0xA0, hicb)
  | 2%N => (locb, 0x9F)
  | 3%N => (0x90, hicb)
  | 4%N => (locb, 0x8F)
  | _ => (0, 0)
  end%N.

Definition cont_byte (b : N) : bool := ((locb <=? b) && (b <=? hicb))%N.

Definition DecodeRune (p : gostring) : Z * nat :=
  match p with
  | [] => (RuneError, 0%nat)
  | b0 :: rest =>
    let p0 := bv b0 in
    let x := first p0 in
    if (as_ <=? x)%N then
      (* mask is all ones exactly when x is odd, that is x = xx *)
      ((if N.odd x then RuneError else Z.of_N p0), 1%nat)
    else
      let sz := N.to_nat (N.land x 7) in
      let accept := acceptRanges (N.shiftr x 4) in
      if (length p <? sz)%nat then (RuneError, 1%nat) else
      match rest with
      | [] => (RuneError, 1%nat)
      | c1 :: rest1 =>
        let b1 := bv c1 in
        if ((b1 <? fst accept) || (snd accept <? b1))%N then (RuneError, 1%nat) else
        if (sz <=? 2)%nat then
          (Z.of_N (N.lor (N.shiftl (N.land p0 0x1F) 6) (N.land b1 0x3F)), 2%nat)
        else
        match rest1 with
        | [] => (RuneError, 1%nat)
        | c2 :: rest2 =>
          let b2 := bv c2 in
          if negb (cont_byte b2) then (RuneError, 1%nat) else
          if (sz <=? 3)%nat then
            (Z.of_N (N.lor (N.lor (N.shiftl (N.land p0 0x0F) 12)
                                  (N.shiftl (N.land b1 0x3F) 6))
                           (N.land b2 0x3F)), 3%nat)
          else
          match rest2 with
          | [] => (RuneError, 1%nat)
          | c3 :: _ =>
            let b3 := bv c3 in
            if negb (cont_byte b3) then (RuneError, 1%nat) else
            (Z.of_N (N.lor (N.lor (N.lor (N.shiftl (N.land p0 0x07) 18)
                                         (N.shiftl (N.land b1 0x3F) 12))
                                  (N.shiftl (N.land b2 0x3F) 6))
                           (N.land b3 0x3F)), 4%nat)
          end
        end
      end
  end.

(** [utf8.DecodeRuneInString] is the same decoder on a string. *)
Definition DecodeRuneInString (s : gostring) : Z * nat := DecodeRune s.

(** ** The escaper: tryAddRuneSelf, tryAddRuneError, writeString, writeBytes

    The methods append to [entry.data]; here they take the buffer and
    return it, together with the boolean the method returns. *)

Definition tryAddRuneSelf (b : byte) (data : list byte) : list byte * bool :=
  if (RuneSelf <=? bv b)%N then (data, false)
  else if ((0x20 <=? bv b)%N && negb (bool_decide (b = backslash))
           && negb (bool_decide (b = quote))) then (data ++ [b], true)
  else if bool_decide (b = backslash) || bool_decide (b = quote)
    then ((data ++ [backslash]) ++ [b], true)
  else if bool_decide (b = Byte.x0a)
    then ((data ++ [backslash]) ++ str "n", true)
  else if bool_decide (b = Byte.x0d)
    then ((data ++ [backslash]) ++ str "r", true)
  else if bool_decide (b = Byte.x09)
    then ((data ++ [backslash]) ++ str "t", true)
  else
    (((data ++ backslash :: str "u00")
        ++ [hex_at (N.shiftr (bv b) 4)])
        ++ [hex_at (N.land (bv b) 0xF)], true).

Definition tryAddRuneError (r : Z) (size : nat) (data : list byte)
  : list byte * bool :=
  if (r =? RuneError) && (size =? 1)%nat
  then (data ++ backslash :: str "ufffd", true)
  else (data, false).

(** The loop [for i := 0; i < len(s); { ... }] of [writeString], on the
    rest [s[i:]] of the string.  Each turn consumes at least one byte, so
    [len(s)] turns are enough ([writeString_loop_fuel] below). *)
Fixpoint writeString_loop (fuel : nat) (s : gostring) (data : list byte)
  : list byte :=
  match fuel with
  | O => data
  | S fuel' =>
    match s with
    | [] => data
    | b :: _ =>
      let '(data1, ok) := tryAddRuneSelf b data in
      if ok then writeString_loop fuel' (drop 1 s) data1
      else
        let '(r, size) := DecodeRuneInString s in
        let '(data2, bad) := tryAddRuneError r size data1 in
        if bad then writeString_loop fuel' (drop 1 s) data2
        else writeString_loop fuel' (drop size s) (data2 ++ take size s)
    end
  end.

Definition writeString (s : gostring) (data : list byte) : list byte :=
  writeString_loop (length s) s data.

(** [writeBytes] is the same loop over a [[]byte], with [utf8.DecodeRune]. *)
Fixpoint writeBytes_loop (fuel : nat) (s : list byte) (data : list byte)
  : list byte :=
  match fuel with
  | O => data
  | S fuel' =>
    match s with
    | [] => data
    | b :: _ =>
      let '(data1, ok) := tryAddRuneSelf b data in
      if ok then writeBytes_loop fuel' (drop 1 s) data1
      else
        let '(r, size) := DecodeRune s in
        let '(data2, bad) := tryAddRuneError r size data1 in
        if bad then writeBytes_loop fuel' (drop 1 s) data2
        else writeBytes_loop fuel' (drop size s) (data2 ++ take size s)
    end
  end.

Definition writeBytes (s : list byte) (data : list byte) : list byte :=
  writeBytes_loop (length s) s data.

(** ** strconv (Go standard library): integers in a base *)

(** The digits of [n] in base [base], most significant first, prepended to
    [acc]; [fuel] bounds the number of digits. *)
Fixpoint digits_loop (fuel : nat) (base n : N) (acc : list byte) : list byte :=
  match fuel with
  | O => acc
  | S fuel' =>
    let acc' := hex_at (n mod base)%N :: acc in
    if (n / base =? 0)%N then acc' else digits_loop fuel' base (n / base)%N acc'
  end.

(** [strconv.AppendUint(data, n, base)] for a base of 10 or 16. *)
Definition AppendUint (data : list byte) (n : Z) (base : N) : list byte :=
  data ++ digits_loop (S (N.size_nat (Z.to_N n))) base (Z.to_N n) [].

(** [strconv.AppendInt(data, z, 10)] *)
Definition AppendInt (data : list byte) (z : Z) : list byte :=
  if z <? 0 then AppendUint (data ++ str "-") (- z) 10
  else AppendUint data z 10.

(** [strconv.AppendBool] *)
Definition AppendBool (data : list byte) (b : bool) : list byte :=
  data ++ (if b then str "true" else str "false").

(** [fmt.Sprint] of an [int]. *)
Definition Sprint_int (z : Z) : gostring := AppendInt [] z.

(** ** Values seen through reflection

    [Value] is what [writeReflect] and the type assertions of [WithField]
    observe of an [interface{}]: first whether the value implements
    [json.Marshaler], [encoding.TextMarshaler] or [fmt.Stringer] (with the
    result of the method), otherwise its kind.
    - A marshaler carries what its method returns: [inl body] or
      [inr text] with the text of the error.
    - [VTime] is a [time.Time], which is a [json.Marshaler].
    - Floats are kept as the digits [strconv.AppendFloat(_, f, 'f', -1, 64)]
      renders.
    - A map carries its pairs in the order [MapKeys] returned them.
    - A struct field carries its name, [CanInterface()] and its value.
    - [VPtr e] is a pointer or interface whose [Elem()] is [e]; a nil one
      has [e = VInvalid]. *)

Abbreviation Time := Z.

Inductive IntKind := KInt | KInt8 | KInt16 | KInt32 | KInt64.

Inductive Value : Type :=
| VInvalid
| VJSONMarshaler (r : gostring + gostring)
| VTextMarshaler (r : gostring + gostring)
| VStringer (s : gostring)
| VTime (t : Time)
| VBool (b : bool)
| VInt (k : IntKind) (z : Z)
| VUint (n : Z)
| VFloat (digits : gostring)
| VComplex (re im : gostring)
| VString (s : gostring)
| VSlice (elems : list Value)
| VMap (entries : list (Value * Value))
| VStruct (fields : list (gostring * bool * Value))
| VPtr (elem : Value)
| VAddr (p : Z).

(** ** What the code uses of the Go library and of the rest of the package

    - [Format t layout] is [t.Format(layout)].
    - [time_MarshalJSON t] is [t.MarshalJSON()].
    - [Sprintln] and [Sprintf] are those of [fmt].
    - [logFormatNameFileLine depth] is the caller-location helper of the
      package: function name, file and line at the given stack depth.
    - [growslice c n] is the capacity of the array that the run time
      allocates when [append] finds a buffer of capacity [c] too small
      for the [n] bytes it must hold.  The language leaves the choice to
      the implementation; nothing is assumed of it. *)

Class GoLib := {
  Format : Time -> gostring -> gostring;
  time_MarshalJSON : Time -> gostring + gostring;
  Sprintln : list Value -> gostring;
  Sprintf : gostring -> list Value -> gostring;
  logFormatNameFileLine : Z -> gostring * gostring * Z;
  growslice : Z -> Z -> Z;
}.

(** ** The value encoder: writeReflect *)

Section Encoder.
Context `{GoLib}.

(** The three interface cases share their shape: quote, body or error
    text, quote. *)
Definition write_marshaled (r : gostring + gostring) (data : list byte)
  : list byte :=
  let data := data ++ [quote] in
  let data := match r with
              | inl body => writeBytes body data
              | inr err => writeString err data
              end in
  data ++ [quote].

Fixpoint writeReflect (iValue : Value) (data : list byte) {struct iValue}
  : list byte :=
  match iValue with
  | VInvalid => data ++ [quote; quote]
  | VJSONMarshaler r => write_marshaled r data
  | VTime t => write_marshaled (time_MarshalJSON t) data
  | VTextMarshaler r => write_marshaled r data
  | VStringer s => writeString s (data ++ [quote]) ++ [quote]
  | VBool b => AppendBool data b
  | VInt _ z => AppendInt data z
  | VUint n => AppendUint data n 10
  | VFloat digits => data ++ digits
  | VComplex re im =>
      ((((data ++ [quote]) ++ re) ++ str "+") ++ im) ++ str "i" ++ [quote]
  | VString s => writeString s (data ++ [quote]) ++ [quote]
  | VSlice elems =>
      let data := data ++ [lbracket] in
      let data := if (length elems =? 0)%nat then data ++ [comma] else data in
      let data :=
        (fix loop (l : list Value) (data : list byte) : list byte :=
           match l with
           | [] => data
           | x :: l' => loop l' (writeReflect x data ++ [comma])
           end) elems data in
      set_last data rbracket
  | VMap entries =>
      let data := data ++ [lbrace] in
      let data :=
        (fix loop (l : list (Value * Value)) (data : list byte) : list byte :=
           match l with
           | [] => data
           | (key, val) :: l' =>
               let data := writeReflect key data in
               let data := data ++ [colon] in
               let data := writeReflect val data in
               loop l' (data ++ [comma])
           end) entries data in
      set_last data rbrace
  | VStruct fields =>
      let data := data ++ [lbrace] in
      let data :=
        (fix loop (l : list (gostring * bool * Value)) (data : list byte)
           : list byte :=
           match l with
           | [] => data
           | (name, canInterface, field) :: l' =>
               if canInterface then
                 let data := writeString name data in
                 let data := data ++ [colon] in
                 let data := writeReflect field data in
                 loop l' (data ++ [comma])
               else loop l' data
           end) fields data in
      set_last data rbrace
  | VPtr elem => writeReflect elem data
  | VAddr p => AppendUint (data ++ str "0x") p 16
  end.

(** [WriteValue] *)
Definition WriteValue (value : Value) (data : list byte) : list byte :=
  writeReflect value data.

End Encoder.

(** ** strings (Go standard library) *)

Fixpoint HasPrefix (s prefix : gostring) : bool :=
  match prefix, s with
  | [], _ => true
  | _ :: _, [] => false
  | c :: prefix', d :: s' => Byte.eqb c d && HasPrefix s' prefix'
  end.

Fixpoint Index_from (s substr : gostring) (i : Z) : Z :=
  if HasPrefix s substr then i
  else match s with
       | [] => -1
       | _ :: s' => Index_from s' substr (i + 1)
       end.

(** [strings.Index(s, substr)] *)
Definition Index (s substr : gostring) : Z := Index_from s substr 0.

(** [strings.Replace(s, old, new, n)] for a non-empty [old], the only use
    in this file: the first [n] occurrences, all of them when [n < 0]. *)
Fixpoint Replace_loop (fuel : nat) (s old new : gostring) (n : Z) : gostring :=
  match fuel with
  | O => s
  | S fuel' =>
    if n =? 0 then s
    else match s with
         | [] => []
         | c :: s' =>
           if HasPrefix s old
           then new ++ Replace_loop fuel' (drop (length old) s) old new (n - 1)
           else c :: Replace_loop fuel' s' old new n
         end
  end.

Definition Replace (s old new : gostring) (n : Z) : gostring :=
  Replace_loop (length s) s old new n.

(** ** Machine integers *)

(** [uint64] arithmetic wraps modulo 2^64, [int] (64 bits) modulo 2^64
    around zero. *)
Definition wrap_uint64 (z : Z) : Z := z mod 2 ^ 64.
Definition wrap_int (z : Z) : Z := (z + 2 ^ 63) mod 2 ^ 64 - 2 ^ 63.

(** ** The world outside the process, outcomes, and the monad

    [now] is the reading of the wall clock, in seconds of local time; one
    operation of the logger reads one instant, and the clock is moved
    between operations ([set_now]).  [files] maps a name to the bytes of
    the file.  A [bufio.Writer] is taken as transparent: a byte counts for
    the file whose writer accepted it, which is where [rotateFile] leaves
    it, since it flushes the old writer before it installs the new one.
    [openable] tells whether [os.OpenFile] succeeds on a name. *)

Record World := {
  now : Time;
  files : gmap gostring (list byte);
  openable : gostring -> bool;
  stdout : list byte;
}.

Definition set_now (t : Time) (world : World) : World :=
  {| now := t; files := files world; openable := openable world;
     stdout := stdout world |}.

Definition set_files (fs : gmap gostring (list byte)) (world : World) : World :=
  {| now := now world; files := fs; openable := openable world;
     stdout := stdout world |}.

Definition set_stdout (out : list byte) (world : World) : World :=
  {| now := now world; files := files world; openable := openable world;
     stdout := out |}.

Inductive error := OpenError (name : gostring).

(** [*os.File]: an open file, known by its name. *)
Record File := { Name : gostring }.

Inductive outcome (A : Type) :=
| Ret (a : A)
| Panic
| OutOfFuel.
Arguments Ret {A} a.
Arguments Panic {A}.
Arguments OutOfFuel {A}.

Definition M (S A : Type) : Type := S -> outcome (A * S).

Definition ret {S A} (a : A) : M S A := fun s => Ret (a, s).

Definition bind {S A B} (c : M S A) (k : A -> M S B) : M S B :=
  fun s => match c s with
           | Ret (a, s') => k a s'
           | Panic => Panic
           | OutOfFuel => OutOfFuel
           end.

Definition panic {S A} : M S A := fun _ => Panic.
Definition get {S} : M S S := fun s => Ret (s, s).
Definition put {S} (s : S) : M S unit := fun _ => Ret (tt, s).
Definition modify {S} (f : S -> S) : M S unit := fun s => Ret (tt, f s).

Declare Scope go_scope.
Delimit Scope go_scope with go.
Notation "x <- c ;; k" := (bind c (fun x => k))
  (at level 90, c at level 80, right associativity) : go_scope.
Notation "c ;;; k" := (bind c (fun _ => k))
  (at level 90, right associativity) : go_scope.
Local Open Scope go_scope.

(** Run a computation on the world inside a larger state. *)
Definition in_world {X A} (c : M World A) : M (X * World) A :=
  fun '(x, world) => match c world with
                     | Ret (a, world') => Ret (a, (x, world'))
                     | Panic => Panic
                     | OutOfFuel => OutOfFuel
                     end.

(** Read and update the first component of the state: the receiver. *)
Definition self {X} : M (X * World) X := fun '(x, world) => Ret (x, (x, world)).
Definition set_self {X} (x : X) : M (X * World) unit :=
  fun '(_, world) => Ret (tt, (x, world)).

(** [time.Now()] *)
Definition time_Now : M World Time := fun world => Ret (now world, world).

(** [os.OpenFile(name, os.O_CREATE|os.O_WRONLY|os.O_APPEND, 0666)] *)
Definition OpenFile (name : gostring) : M World (File + error) :=
  fun world =>
    if openable world name then
      let fs := match files world !! name with
                | Some _ => files world
                | None => <[name := []]> (files world)
                end in
      Ret (inl {| Name := name |}, set_files fs world)
    else Ret (inr (OpenError name), world).

(** [stat, _ := file.Stat(); stat.Size()] *)
Definition Stat_Size (file : File) : M World Z :=
  fun world => Ret (Z.of_nat (length (default [] (files world !! Name file))), world).

(** [bufio.Writer.Write(p)] on the writer of [file]. *)
Definition bufio_Write (file : File) (p : list byte) : M World (Z * option error) :=
  fun world =>
    let old := default [] (files world !! Name file) in
    Ret ((Z.of_nat (length p), None),
         set_files (<[Name file := old ++ p]> (files world)) world).

(** [os.Stdout.Write(p)] *)
Definition Stdout_Write (p : list byte) : M World (Z * option error) :=
  fun world =>
    Ret ((Z.of_nat (length p), None), set_stdout (stdout world ++ p) world).

(** ** LoggerWriter *)

Class LoggerWriter (W : Type) := {
  Write : list byte -> M (W * World) (Z * option error);
  Sync : M (W * World) (option error);
}.

(** ** Constants of the renderer *)

(** A Go literal in which the double quote is written as an apostrophe
    (no literal of the source contains an apostrophe). *)
Definition lit (s : string) : gostring :=
  map (fun b => if Byte.eqb b Byte.x27 then quote else b) (str s).

Definition levels : list gostring :=
  [ str "DEBUG"; str "INFO"; str "WARIRNG"; str "ERROR"; str "FATAL" ].

Definition part1 : gostring := lit "{'time':'".
Definition part2 : gostring := lit "','level':'".
Definition part3 : gostring := lit "','fields':{".
Definition part4 : gostring := [quote].
Definition part5 : gostring := lit ",'message':'".
Definition part6 : gostring := [quote; rbrace; newline].
Definition part7 : gostring := [rbrace; newline].

(** ** The writers: os.Stdout, syncWriterFile, syncWriterRotate *)

(** [syncWriterFile]: the buffered writer goes to the file, and to
    standard output too when [fw_tee] (the [io.MultiWriter] case). *)
Record syncWriterFile := { fw_tee : bool; fw_file : File }.

Record syncWriterRotate := {
  name : gostring;
  std : bool;
  MaxSize : Z;
  nextindex : Z;
  nexttime : Time;
  nbytes : Z;
  Writer : option File;
  file : option File;
  newfn : list (gostring -> World -> World);
}.

Definition set_nextindex (i : Z) (w : syncWriterRotate) : syncWriterRotate :=
  {| name := name w; std := std w; MaxSize := MaxSize w; nextindex := i;
     nexttime := nexttime w; nbytes := nbytes w; Writer := Writer w;
     file := file w; newfn := newfn w |}.

Definition set_nexttime (t : Time) (w : syncWriterRotate) : syncWriterRotate :=
  {| name := name w; std := std w; MaxSize := MaxSize w;
     nextindex := nextindex w; nexttime := t; nbytes := nbytes w;
     Writer := Writer w; file := file w; newfn := newfn w |}.

Definition set_nbytes (n : Z) (w : syncWriterRotate) : syncWriterRotate :=
  {| name := name w; std := std w; MaxSize := MaxSize w;
     nextindex := nextindex w; nexttime := nexttime w; nbytes := n;
     Writer := Writer w; file := file w; newfn := newfn w |}.

Definition set_Writer_file (f : File) (w : syncWriterRotate) : syncWriterRotate :=
  {| name := name w; std := std w; MaxSize := MaxSize w;
     nextindex := nextindex w; nexttime := nexttime w; nbytes := nbytes w;
     Writer := Some f; file := Some f; newfn := newfn w |}.

(** The value of the interface [LoggerWriter] that the constructors
    return. *)
Inductive LoggerWriterV :=
| LWStd
| LWFile (w : syncWriterFile)
| LWRotate (w : syncWriterRotate).

Section Writers.
Context `{GoLib}.

(** [getNextHour]: [time.Date] with the hour plus one and zero minutes and
    seconds is the start of the next hour of the wall clock. *)
Definition getNextHour : M World Time :=
  now <- time_Now ;;
  ret ((now / 3600 + 1) * 3600).

Definition formatDateName (name : gostring) : M World gostring :=
  now <- time_Now ;;
  let name := Replace name (str "yyyy") (str "2006") 1 in
  let name := Replace name (str "yy") (str "06") 1 in
  let name := Replace name (str "MM") (str "01") 1 in
  let name := Replace name (str "dd") (str "02") 1 in
  let name := Replace name (str "HH") (str "15") 1 in
  ret (Format now name).

(** [NewLoggerWriterStd] *)
Definition NewLoggerWriterStd : LoggerWriterV := LWStd.

(** [NewLoggerWriterFile]; [os.MkdirAll] leaves no trace in [World]. *)
Definition NewLoggerWriterFile (name : gostring) (std : bool)
  : M World (option LoggerWriterV * option error) :=
  if bool_decide (name = []) then ret (Some NewLoggerWriterStd, None)
  else
    fname <- formatDateName name ;;
    r <- OpenFile fname ;;
    match r with
    | inr err => ret (None, Some err)
    | inl file => ret (Some (LWFile {| fw_tee := std; fw_file := file |}), None)
    end.

(** [syncWriterRotate.Sync]: [Flush] and [file.Sync] change nothing in a
    world where the buffer is transparent; [Flush] needs the writer. *)
Definition rotate_Sync : M (syncWriterRotate * World) (option error) :=
  w <- self ;;
  match file w with
  | None => ret None
  | Some _ => match Writer w with
              | None => panic
              | Some _ => ret None
              end
  end.

(** The loop [for { ... }] of [rotateFile]; [name] is the name formatted
    with the date. *)
Fixpoint rotateFile_loop (fuel : nat) (name : gostring)
  : M (syncWriterRotate * World) (option error) :=
  match fuel with
  | O => fun _ => OutOfFuel
  | S fuel' =>
    w <- self ;;
    let name' := Replace name (str "index") (Sprint_int (nextindex w)) (-1) in
    r <- in_world (OpenFile name') ;;
    match r with
    | inr err => ret (Some err)
    | inl file' =>
      set_self (set_nextindex (wrap_int (nextindex w + 1)) w) ;;;
      size <- in_world (Stat_Size file') ;;
      w <- self ;;
      set_self (set_nbytes (wrap_uint64 size) w) ;;;
      w <- self ;;
      if nbytes w <? MaxSize w then
        rotate_Sync ;;;
        (* w.file.Close() *)
        set_self (set_Writer_file file' w) ;;;
        in_world (modify (fun world =>
                    fold_left (fun world fn => fn name' world) (newfn w) world)) ;;;
        ret None
      else
        (* file.Close() *)
        rotateFile_loop fuel' name
    end
  end.

Definition rotateFile (fuel : nat) : M (syncWriterRotate * World) (option error) :=
  w <- self ;;
  name <- in_world (formatDateName (name w)) ;;
  rotateFile_loop fuel name.

(** [syncWriterRotate.Write] *)
Definition rotate_Write (fuel : nat) (p : list byte)
  : M (syncWriterRotate * World) (Z * option error) :=
  w <- self ;;
  (if (length p =? 9)%nat
      && (MaxSize w <=? wrap_uint64 (nbytes w + Z.of_nat (length p)))
      && bool_decide (p = part1)
   then _ <- rotateFile fuel ;; ret tt
   else ret tt) ;;;
  now <- in_world time_Now ;;
  w <- self ;;
  (if nexttime w <? now then
     next <- in_world getNextHour ;;
     set_self (set_nexttime next w) ;;;
     fname <- in_world (formatDateName (name w)) ;;
     w <- self ;;
     match file w with
     | None => panic
     | Some f =>
       if negb (bool_decide
                  (Replace fname (str "index")
                           (Sprint_int (wrap_int (nextindex w - 1))) (-1)
                   = Name f))
       then
         set_self (set_nextindex 0 w) ;;;
         _ <- rotateFile fuel ;; ret tt
       else ret tt
     end
   else ret tt) ;;;
  w <- self ;;
  r <- match Writer w with
       | None => panic
       | Some f => in_world (bufio_Write f p)
       end ;;
  (if std w then _ <- in_world (Stdout_Write p) ;; ret tt else ret tt) ;;;
  w <- self ;;
  set_self (set_nbytes (wrap_uint64 (nbytes w + fst r)) w) ;;;
  ret r.

(** [NewLoggerWriterRotate] *)
Definition NewLoggerWriterRotate (fuel : nat) (name : gostring) (std : bool)
    (maxsize : Z) (fn : list (gostring -> World -> World))
  : M World (option LoggerWriterV * option error) :=
  let maxsize := if Index name (str "index") =? -1 then 0 else maxsize in
  let rotating (maxsize : Z) : M World (option LoggerWriterV * option error) :=
    next <- getNextHour ;;
    let lw := {| name := name; std := std; MaxSize := maxsize; nextindex := 0;
                 nexttime := next; nbytes := 0; Writer := None; file := None;
                 newfn := fn |} in
    fun world =>
      match rotateFile fuel (lw, world) with
      | Ret (err, (lw', world')) => Ret ((Some (LWRotate lw'), err), world')
      | Panic => Panic
      | OutOfFuel => OutOfFuel
      end in
  if maxsize <=? 0 then
    fname <- formatDateName name ;;
    if bool_decide (name = fname) then NewLoggerWriterFile name std
    else rotating 0xffffffff
  else rotating maxsize.

(** The writers as [LoggerWriter]s. *)

Inductive Stdout := os_Stdout.

#[export] Instance Stdout_LoggerWriter : LoggerWriter Stdout := {
  Write p := in_world (Stdout_Write p);
  Sync := ret None;
}.

#[export] Instance syncWriterFile_LoggerWriter : LoggerWriter syncWriterFile := {
  Write p :=
    w <- self ;;
    (if fw_tee w then _ <- in_world (Stdout_Write p) ;; ret tt else ret tt) ;;;
    in_world (bufio_Write (fw_file w) p);
  Sync := ret None;
}.

Definition syncWriterRotate_LoggerWriter (fuel : nat)
  : LoggerWriter syncWriterRotate := {|
  Write := rotate_Write fuel;
  Sync := rotate_Sync;
|}.

End Writers.

(** A writer that keeps every [Write] it receives, in order: the sink
    against which rendering is observed. *)
#[export] Instance Recorder_LoggerWriter : LoggerWriter (list (list byte)) := {
  Write p := fun '(tr, world) =>
               Ret ((Z.of_nat (length p), None), (tr ++ [p], world));
  Sync := ret None;
}.

(** ** Entries and the logger *)

(** [entryStd].  The field [logger] is a pointer to the logger: it is the
    logger of the state the methods run in.  The slice [data] is its
    bytes, [data], and the capacity of its array, [datacap]: a reslice
    within the capacity keeps the array, a reslice beyond it panics. *)
Record entryStd := {
  level : Z;
  time : Time;
  message : gostring;
  data : list byte;
  datacap : Z;
  timeformat : gostring;
  depth : Z;
  logout : bool;
}.

Definition set_level (l : Z) (e : entryStd) : entryStd :=
  {| level := l; time := time e; message := message e;
     data := data e; datacap := datacap e;
     timeformat := timeformat e; depth := depth e; logout := logout e |}.
Definition set_time (t : Time) (e : entryStd) : entryStd :=
  {| level := level e; time := t; message := message e;
     data := data e; datacap := datacap e;
     timeformat := timeformat e; depth := depth e; logout := logout e |}.
Definition set_message (m : gostring) (e : entryStd) : entryStd :=
  {| level := level e; time := time e; message := m;
     data := data e; datacap := datacap e;
     timeformat := timeformat e; depth := depth e; logout := logout e |}.
Definition set_data (d : list byte) (e : entryStd) : entryStd :=
  {| level := level e; time := time e; message := message e;
     data := d; datacap := datacap e;
     timeformat := timeformat e; depth := depth e; logout := logout e |}.
Definition set_datacap (c : Z) (e : entryStd) : entryStd :=
  {| level := level e; time := time e; message := message e;
     data := data e; datacap := c;
     timeformat := timeformat e; depth := depth e; logout := logout e |}.
Definition set_depth (d : Z) (e : entryStd) : entryStd :=
  {| level := level e; time := time e; message := message e;
     data := data e; datacap := datacap e;
     timeformat := timeformat e; depth := d; logout := logout e |}.
Definition set_logout (b : bool) (e : entryStd) : entryStd :=
  {| level := level e; time := time e; message := message e;
     data := data e; datacap := datacap e;
     timeformat := timeformat e; depth := depth e; logout := b |}.

(** [loggerStd]: the threshold [Level], the [TimeFormat], the writer, and
    the pool.  [sync.Pool] is a list of the entries put back; [logdepath]
    is the depth that [Pool.New] gives a new entry (4 with [FileLine],
    4 - 0x40 without).  The mutex is not modelled: calls run one after the
    other. *)
Record loggerStd (W : Type) := {
  Level : Z;
  TimeFormat : gostring;
  log_Writer : W;
  Pool : list entryStd;
  logdepath : Z;
}.
Arguments Level {W} _.
Arguments TimeFormat {W} _.
Arguments log_Writer {W} _.
Arguments Pool {W} _.
Arguments logdepath {W} _.

Definition set_Level {W} (l : Z) (log : loggerStd W) : loggerStd W :=
  {| Level := l; TimeFormat := TimeFormat log; log_Writer := log_Writer log;
     Pool := Pool log; logdepath := logdepath log |}.
Definition set_log_Writer {W} (w : W) (log : loggerStd W) : loggerStd W :=
  {| Level := Level log; TimeFormat := TimeFormat log; log_Writer := w;
     Pool := Pool log; logdepath := logdepath log |}.
Definition set_Pool {W} (p : list entryStd) (log : loggerStd W) : loggerStd W :=
  {| Level := Level log; TimeFormat := TimeFormat log;
     log_Writer := log_Writer log; Pool := p; logdepath := logdepath log |}.

Section Logger.
Context `{GoLib} {W : Type} `{LoggerWriter W}.

Abbreviation St := (loggerStd W * World)%type.

(** [log.Pool.New]: the buffer is [make([]byte, 0, 2048)]; every other
    field has its zero value. *)
Definition Pool_New (log : loggerStd W) : entryStd :=
  {| level := 0; time := 0; message := []; data := []; datacap := 2048;
     timeformat := TimeFormat log; depth := logdepath log; logout := false |}.

Definition Pool_Get : M St entryStd :=
  log <- self ;;
  match Pool log with
  | [] => ret (Pool_New log)
  | e :: pool => set_self (set_Pool pool log) ;;; ret e
  end.

Definition Pool_Put (e : entryStd) : M St unit :=
  log <- self ;;
  set_self (set_Pool (e :: Pool log) log).

(** [SetLevel] *)
Definition SetLevel (level : Z) : M St unit :=
  log <- self ;;
  set_self (set_Level level log).

(** [w.Write(p)] on the writer of the logger, the result dropped as the
    renderer drops it. *)
Definition w_Write (p : list byte) : M St unit :=
  fun '(log, world) =>
    match Write p (log_Writer log, world) with
    | Ret (_, (w', world')) => Ret (tt, (set_log_Writer w' log, world'))
    | Panic => Panic
    | OutOfFuel => OutOfFuel
    end.

(** [loggerStd.Sync] *)
Definition logger_Sync : M St (option error) :=
  fun '(log, world) =>
    match Sync (log_Writer log, world) with
    | Ret (err, (w', world')) => Ret (err, (set_log_Writer w' log, world'))
    | Panic => Panic
    | OutOfFuel => OutOfFuel
    end.

(** [entry.data = append(entry.data, ...)], [d] being the buffer with the
    bytes appended: the array is kept when [d] fits its capacity, and
    otherwise the run time allocates one.  Where the encoder appends in
    several steps, the growth is taken once, for the length reached. *)
Definition append_data (d : list byte) (entry : entryStd) : entryStd :=
  let n := Z.of_nat (length d) in
  let c := if n <=? datacap entry then datacap entry
           else growslice (datacap entry) n in
  set_datacap c (set_data d entry).

(** [getEntry].  The reslice [newentry.data[:len(entry.data)]] panics
    when the buffer of [entry] is longer than the capacity of the buffer
    of the entry that the pool gives; within the capacity, [copy] fills
    it with the bytes of [entry]. *)
Definition getEntry (entry : entryStd) : M St entryStd :=
  newentry <- Pool_Get ;;
  now <- in_world time_Now ;;
  log <- self ;;
  let newentry := set_time now newentry in
  let newentry := set_level (Level log) newentry in
  let newentry := set_depth (depth entry) newentry in
  if negb (length (data entry) =? 0)%nat then
    if Z.of_nat (length (data entry)) <=? datacap newentry
    then ret (set_data (data entry) newentry)
    else panic
  else ret newentry.

(** [if entry.logout { entry = entry.getEntry() }] *)
Definition fork_if_logout (entry : entryStd) : M St entryStd :=
  if logout entry then getEntry entry else ret entry.

(** The appends that end [WithField]: the key between quotes, a colon,
    the value, a comma. *)
Definition append_field (key : gostring) (value : Value) (entry : entryStd)
  : entryStd :=
  let entry := append_data (data entry ++ [quote]) entry in
  let entry := append_data (data entry ++ key) entry in
  let entry := append_data (data entry ++ [quote; colon]) entry in
  let entry := append_data (WriteValue value (data entry)) entry in
  let entry := append_data (data entry ++ [comma]) entry in
  entry.

(** [WithField] *)
Definition WithField (key : gostring) (value : Value) (entry : entryStd)
  : M St entryStd :=
  entry <- fork_if_logout entry ;;
  if bool_decide (key = str "depth") then
    match value with
    | VInt KInt val => ret (set_depth (wrap_int (depth entry + val)) entry)
    | VString vals =>
      let entry :=
        if bool_decide (vals = str "enable") && (depth entry <? 0)
        then set_depth (wrap_int (depth entry + 0x40)) entry else entry in
      let entry :=
        if bool_decide (vals = str "disable") && (0 <? depth entry)
        then set_depth (wrap_int (depth entry - 0x40)) entry else entry in
      ret entry
    | _ => ret (append_field key value entry)
    end
  else if bool_decide (key = str "time") then
    match value with
    | VTime val => ret (set_time val entry)
    | _ => ret (append_field key value entry)
    end
  else ret (append_field key value entry).

(** A call [entry.WithField(k, v)] whose result is dropped: the receiver
    is changed in place, unless it is a template, in which case the change
    is made to a fork that nobody keeps. *)
Definition WithField_in_place (key : gostring) (value : Value)
    (entry : entryStd) : M St entryStd :=
  entry' <- WithField key value entry ;;
  ret (if logout entry then entry else entry').

(** [WithFields]; [None] is the nil map, [Some] the pairs in the order of
    the [range]. *)
Definition WithFields (fields : option (list (gostring * Value)))
    (entry : entryStd) : M St entryStd :=
  match fields with
  | None =>
    entry <- getEntry entry ;;
    ret (set_logout true entry)
  | Some kvs =>
    entry <- fork_if_logout entry ;;
    fold_left (fun (c : M St entryStd) '(k, v) =>
                 entry <- c ;; WithField_in_place k v entry)
              kvs (ret entry)
  end.

(** [levels[entry.level]] *)
Definition level_name (level : Z) : M St gostring :=
  if (0 <=? level) && (level <? Z.of_nat (length levels))
  then ret (nth (Z.to_nat level) levels [])
  else panic.

(** [writeTo(w)] with [w] the writer of the logger. *)
Definition writeTo (entry : entryStd) : M St entryStd :=
  w_Write part1 ;;;
  now <- in_world time_Now ;;
  let timestr := Format now (timeformat entry) in
  w_Write timestr ;;;
  w_Write part2 ;;;
  lv <- level_name (level entry) ;;
  w_Write lv ;;;
  entry <- (if 0 <? depth entry then
              let '(name, file, line) := logFormatNameFileLine (depth entry) in
              entry <- WithField_in_place (str "name") (VString name) entry ;;
              entry <- WithField_in_place (str "file") (VString file) entry ;;
              WithField_in_place (str "line") (VInt KInt line) entry
            else ret entry) ;;
  entry <- (if (1 <? length (data entry))%nat then
              w_Write part3 ;;;
              let entry := set_data (set_last (data entry) rbrace) entry in
              w_Write (data entry) ;;;
              ret (set_data [] entry)
            else
              w_Write part4 ;;;
              ret entry) ;;
  if (0 <? length (message entry))%nat then
    w_Write part5 ;;;
    let entry := append_data (writeString (message entry) (data entry)) entry in
    w_Write (data entry) ;;;
    let entry := set_data [] entry in
    w_Write part6 ;;;
    ret entry
  else
    w_Write part7 ;;;
    ret entry.

(** [putEntry] *)
Definition putEntry (entry : entryStd) : M St unit :=
  entry <- writeTo entry ;;
  Pool_Put entry.

(** [entry.message = fmt.Sprintln(args...)] followed by
    [entry.message = entry.message[:len(entry.message)-1]]; [Sprintln]
    ends its result with a newline, so the slice is in range. *)
Definition set_message_ln (args : list Value) (entry : entryStd) : entryStd :=
  let entry := set_message (Sprintln args) entry in
  set_message (take (length (message entry) - 1) (message entry)) entry.

Definition Debug (args : list Value) (entry : entryStd) : M St unit :=
  entry <- fork_if_logout entry ;;
  if level entry <? 1 then
    putEntry (set_message_ln args entry)
  else ret tt.

Definition Info (args : list Value) (entry : entryStd) : M St unit :=
  entry <- fork_if_logout entry ;;
  if level entry <? 2 then
    let entry := set_level 1 entry in
    putEntry (set_message_ln args entry)
  else ret tt.

Definition Warning (args : list Value) (entry : entryStd) : M St unit :=
  entry <- fork_if_logout entry ;;
  if level entry <? 3 then
    let entry := set_level 2 entry in
    putEntry (set_message_ln args entry)
  else ret tt.

Definition Error (args : list Value) (entry : entryStd) : M St unit :=
  entry <- fork_if_logout entry ;;
  if level entry <? 4 then
    let entry := set_level 3 entry in
    putEntry (set_message_ln args entry)
  else ret tt.

Definition Fatal (args : list Value) (entry : entryStd) : M St unit :=
  entry <- fork_if_logout entry ;;
  let entry := set_level 4 entry in
  putEntry (set_message_ln args entry).

Definition Debugf (format : gostring) (args : list Value) (entry : entryStd)
  : M St unit :=
  entry <- fork_if_logout entry ;;
  if level entry <? 1 then
    let entry := set_level 0 entry in
    putEntry (set_message (Sprintf format args) entry)
  else ret tt.

Definition Infof (format : gostring) (args : list Value) (entry : entryStd)
  : M St unit :=
  entry <- fork_if_logout entry ;;
  if level entry <? 2 then
    let entry := set_level 1 entry in
    putEntry (set_message (Sprintf format args) entry)
  else ret tt.

Definition Warningf (format : gostring) (args : list Value) (entry : entryStd)
  : M St unit :=
  entry <- fork_if_logout entry ;;
  if level entry <? 3 then
    let entry := set_level 2 entry in
    putEntry (set_message (Sprintf format args) entry)
  else ret tt.

Definition Errorf (format : gostring) (args : list Value) (entry : entryStd)
  : M St unit :=
  entry <- fork_if_logout entry ;;
  if level entry <? 4 then
    let entry := set_level 3 entry in
    putEntry (set_message (Sprintf format args) entry)
  else ret tt.

Definition Fatalf (format : gostring) (args : list Value) (entry : entryStd)
  : M St unit :=
  entry <- fork_if_logout entry ;;
  let entry := set_level 4 entry in
  putEntry (set_message (Sprintf format args) entry).

End Logger.

(** * The escaper against JSON string decoding *)

(** ** What the specification says, as definitions of its own *)

Definition high (c : byte) : Prop := (0x80 <= bv c)%N.

(** The escape of one single-byte character, by the rules of the
    specification. *)
Definition escape_ascii (b : byte) : list byte :=
  if bool_decide (b = backslash) || bool_decide (b = quote) then [backslash; b]
  else if bool_decide (b = Byte.x0a) then backslash :: str "n"
  else if bool_decide (b = Byte.x0d) then backslash :: str "r"
  else if bool_decide (b = Byte.x09) then backslash :: str "t"
  else if (bv b <? 0x20)%N
  then backslash :: str "u00"
         ++ [hex_at (N.shiftr (bv b) 4); hex_at (N.land (bv b) 0xF)]
  else [b].

Definition is_invalid (rs : Z * nat) : bool :=
  (fst rs =? RuneError) && (snd rs =? 1)%nat.

(** The escaper of the specification: bytes copied except for the
    single-byte rules and for the bytes at which no sequence decodes,
    which become the escape of U+FFFD.  [skip] counts the bytes left of a
    sequence that is being copied. *)
Fixpoint escape_spec (skip : nat) (s : gostring) : list byte :=
  match s with
  | [] => []
  | b :: rest =>
    match skip with
    | S k => b :: escape_spec k rest
    | O =>
      if (bv b <? RuneSelf)%N then escape_ascii b ++ escape_spec 0 rest
      else if is_invalid (DecodeRune s)
      then backslash :: str "ufffd" ++ escape_spec 0 rest
      else b :: escape_spec (Nat.pred (snd (DecodeRune s))) rest
    end
  end.

(** The message with each byte at which no sequence decodes replaced by
    the encoding of U+FFFD. *)
Definition replacement : list byte := [Byte.xef; Byte.xbf; Byte.xbd].

Fixpoint toValidUTF8 (skip : nat) (s : gostring) : list byte :=
  match s with
  | [] => []
  | b :: rest =>
    match skip with
    | S k => b :: toValidUTF8 k rest
    | O =>
      if is_invalid (DecodeRune s) then replacement ++ toValidUTF8 0 rest
      else b :: toValidUTF8 (Nat.pred (snd (DecodeRune s))) rest
    end
  end.

(** JSON string decoding (RFC 8259, section 7), on the bytes between the
    quotes: a backslash starts an escape, a quote or a control character
    may not appear bare, any other byte stands for itself.  A [\u] escape
    gives the UTF-8 encoding of the code unit; escapes of surrogates,
    which need pairing, are not accepted by this decoder. *)

Definition hex_value (c : byte) : option N :=
  let n := bv c in
  if ((0x30 <=? n) && (n <=? 0x39))%N then Some (n - 0x30)%N
  else if ((0x61 <=? n) && (n <=? 0x66))%N then Some (n - 0x61 + 10)%N
  else if ((0x41 <=? n) && (n <=? 0x46))%N then Some (n - 0x41 + 10)%N
  else None.

Definition byte_of_N (n : N) : byte := default Byte.x00 (Byte.of_N n).

(** [utf8.EncodeRune] below U+10000. *)
Definition EncodeRune_bmp (r : N) : list byte :=
  if (r <? 0x80)%N then [byte_of_N r]
  else if (r <? 0x800)%N
  then [byte_of_N (N.lor 0xC0 (N.shiftr r 6));
        byte_of_N (N.lor 0x80 (N.land r 0x3F))]
  else [byte_of_N (N.lor 0xE0 (N.shiftr r 12));
        byte_of_N (N.lor 0x80 (N.land (N.shiftr r 6) 0x3F));
        byte_of_N (N.lor 0x80 (N.land r 0x3F))].

Definition simple_escape (c : byte) : option byte :=
  if bool_decide (c = quote) then Some quote
  else if bool_decide (c = backslash) then Some backslash
  else if bool_decide (c = Byte.x2f) then Some Byte.x2f
  else if bool_decide (c = Byte.x62) then Some Byte.x08
  else if bool_decide (c = Byte.x66) then Some Byte.x0c
  else if bool_decide (c = Byte.x6e) then Some Byte.x0a
  else if bool_decide (c = Byte.x72) then Some Byte.x0d
  else if bool_decide (c = Byte.x74) then Some Byte.x09
  else None.

Definition unicode_escape (h1 h2 h3 h4 : byte) : option (list byte) :=
  match hex_value h1, hex_value h2, hex_value h3, hex_value h4 with
  | Some a, Some b, Some c, Some d =>
    let r := (((a * 16 + b) * 16 + c) * 16 + d)%N in
    if ((0xD800 <=? r) && (r <=? 0xDFFF))%N then None
    else Some (EncodeRune_bmp r)
  | _, _, _, _ => None
  end.

Fixpoint json_unescape (s : list byte) : option (list byte) :=
  match s with
  | [] => Some []
  | c :: rest =>
    if bool_decide (c = backslash) then
      match rest with
      | [] => None
      | e :: rest1 =>
        if bool_decide (e = Byte.x75) then
          match rest1 with
          | h1 :: h2 :: h3 :: h4 :: rest2 =>
            match unicode_escape h1 h2 h3 h4 with
            | Some bs => app bs <$> json_unescape rest2
            | None => None
            end
          | _ => None
          end
        else
          match simple_escape e with
          | Some b => cons b <$> json_unescape rest1
          | None => None
          end
      end
    else if (bv c <? 0x20)%N || bool_decide (c = quote) then None
    else cons c <$> json_unescape rest
  end.

Definition plain (c : byte) : bool :=
  negb (bool_decide (c = backslash)) && negb (bool_decide (c = quote))
  && negb (bv c <? 0x20)%N.

(** The escape of a single-byte character has one of three shapes, each
    of which decodes to the character. *)
Definition escape_shape (b : byte) : bool :=
  match escape_ascii b with
  | [c] => bool_decide (c = b) && plain c
  | [c; e] =>
    bool_decide (c = backslash) && negb (bool_decide (e = Byte.x75))
    && bool_decide (simple_escape e = Some b)
  | [c; e; h1; h2; h3; h4] =>
    bool_decide (c = backslash) && bool_decide (e = Byte.x75)
    && bool_decide (unicode_escape h1 h2 h3 h4 = Some [b])
  | _ => false
  end.


(** * The encoder: its loops by name *)

Section EncoderLoops.
Context `{GoLib}.

(** The three loops of [writeReflect], as functions of their own; the
    lemmas [writeReflect_VSlice], [writeReflect_VMap] and
    [writeReflect_VStruct] unfold the encoder to them. *)
Fixpoint slice_loop (l : list Value) (data : list byte) : list byte :=
  match l with
  | [] => data
  | x :: l' => slice_loop l' (writeReflect x data ++ [comma])
  end.

Fixpoint map_loop (l : list (Value * Value)) (data : list byte) : list byte :=
  match l with
  | [] => data
  | (key, val) :: l' =>
    map_loop l' (writeReflect val (writeReflect key data ++ [colon]) ++ [comma])
  end.

Fixpoint struct_loop (l : list (gostring * bool * Value)) (data : list byte)
  : list byte :=
  match l with
  | [] => data
  | (name, canInterface, field) :: l' =>
    if canInterface
    then struct_loop l'
           (writeReflect field (writeString name data ++ [colon]) ++ [comma])
    else struct_loop l' data
  end.

(** A value is encoded by appending: the bytes already in the buffer are
    left as they are. *)
Definition appends (v : Value) : Prop :=
  forall data : list byte, writeReflect v data = data ++ writeReflect v [].

End EncoderLoops.

(** A field that [CanInterface()] reports as not visible from outside. *)
Definition hidden (f : gostring * bool * Value) : Prop := f.1.2 = false.

(** Induction on values, with the hypothesis on every value inside. *)
Section ValueInduction.
Variable P : Value -> Prop.
Hypothesis HInvalid : P VInvalid.
Hypothesis HJSON : forall r, P (VJSONMarshaler r).
Hypothesis HText : forall r, P (VTextMarshaler r).
Hypothesis HStringer : forall s, P (VStringer s).
Hypothesis HTime : forall t, P (VTime t).
Hypothesis HBool : forall b, P (VBool b).
Hypothesis HInt : forall k z, P (VInt k z).
Hypothesis HUint : forall n, P (VUint n).
Hypothesis HFloat : forall d, P (VFloat d).
Hypothesis HComplex : forall re im, P (VComplex re im).
Hypothesis HString : forall s, P (VString s).
Hypothesis HSlice : forall elems, Forall P elems -> P (VSlice elems).
Hypothesis HMap :
  forall entries, Forall (fun kv => P kv.1 /\ P kv.2) entries -> P (VMap entries).
Hypothesis HStruct :
  forall fields, Forall (fun f => P f.2) fields -> P (VStruct fields).
Hypothesis HPtr : forall elem, P elem -> P (VPtr elem).
Hypothesis HAddr : forall p, P (VAddr p).

Fixpoint Value_nested_ind (v : Value) : P v :=
  match v with
  | VInvalid => HInvalid
  | VJSONMarshaler r => HJSON r
  | VTextMarshaler r => HText r
  | VStringer s => HStringer s
  | VTime t => HTime t
  | VBool b => HBool b
  | VInt k z => HInt k z
  | VUint n => HUint n
  | VFloat d => HFloat d
  | VComplex re im => HComplex re im
  | VString s => HString s
  | VSlice elems =>
    HSlice elems
      ((fix go (l : list Value) : Forall P l :=
          match l with
          | [] => Forall_nil_2 P
          | x :: l' => Forall_cons_2 P x l' (Value_nested_ind x) (go l')
          end) elems)
  | VMap entries =>
    HMap entries
      ((fix go (l : list (Value * Value))
          : Forall (fun kv => P kv.1 /\ P kv.2) l :=
          match l with
          | [] => Forall_nil_2 _
          | (k, v) :: l' =>
            Forall_cons_2 (fun kv => P kv.1 /\ P kv.2) (k, v) l'
              (conj (Value_nested_ind k) (Value_nested_ind v)) (go l')
          end) entries)
  | VStruct fields =>
    HStruct fields
      ((fix go (l : list (gostring * bool * Value))
          : Forall (fun f => P f.2) l :=
          match l with
          | [] => Forall_nil_2 _
          | (n, c, v) :: l' =>
            Forall_cons_2 (fun f => P f.2) (n, c, v) l'
              (Value_nested_ind v) (go l')
          end) fields)
  | VPtr elem => HPtr elem (Value_nested_ind elem)
  | VAddr p => HAddr p
  end.

End ValueInduction.

(** * A model of the library, for closed examples

    The statements about all inputs below hold for every [GoLib].  The
    examples on concrete inputs are run with this instance, which follows
    the library on a fragment:
    - [model_Format] knows the layout elements 2006, 06, 01, 02, 15, 04
      and 05 and copies every other byte;
    - [model_Sprintln] prints strings, integers and booleans, separated
      by a space and followed by a newline;
    - [model_Sprintf] is for a format without verbs and without operands;
    - the caller is always the same place. *)

(** Year, month and day of a number of days since 1970-01-01 in the
    proleptic Gregorian calendar. *)
Definition civil_from_days (days : Z) : Z * Z * Z :=
  let z := days + 719468 in
  let era := z / 146097 in
  let doe := z - era * 146097 in
  let yoe := (doe - doe / 1460 + doe / 36524 - doe / 146096) / 365 in
  let y := yoe + era * 400 in
  let doy := doe - (365 * yoe + yoe / 4 - yoe / 100) in
  let mp := (5 * doy + 2) / 153 in
  let d := doy - (153 * mp + 2) / 5 + 1 in
  let m := if mp <? 10 then mp + 3 else mp - 9 in
  (if m <=? 2 then y + 1 else y, m, d).

Definition digit (z : Z) : byte := hex_at (Z.to_N (z mod 10)).
Definition pad2 (z : Z) : gostring := [digit (z / 10); digit z].
Definition pad4 (z : Z) : gostring :=
  [digit (z / 1000); digit (z / 100); digit (z / 10); digit z].

Fixpoint model_Format_loop (fuel : nat) (t : Time) (layout : gostring)
  : gostring :=
  match fuel with
  | O => []
  | S fuel' =>
    let '(year, month, day) := civil_from_days (t / 86400) in
    let next (n : nat) (out : gostring) :=
      out ++ model_Format_loop fuel' t (drop n layout) in
    match layout with
    | [] => []
    | c :: rest =>
      if HasPrefix layout (str "2006") then next 4%nat (pad4 year)
      else if HasPrefix layout (str "01") then next 2%nat (pad2 month)
      else if HasPrefix layout (str "02") then next 2%nat (pad2 day)
      else if HasPrefix layout (str "15") then next 2%nat (pad2 (t / 3600 mod 24))
      else if HasPrefix layout (str "04") then next 2%nat (pad2 (t / 60 mod 60))
      else if HasPrefix layout (str "05") then next 2%nat (pad2 (t mod 60))
      else if HasPrefix layout (str "06") then next 2%nat (pad2 (year mod 100))
      else c :: model_Format_loop fuel' t rest
    end
  end.

Definition model_Format (t : Time) (layout : gostring) : gostring :=
  model_Format_loop (length layout) t layout.

Definition model_operand (v : Value) : gostring :=
  match v with
  | VString s => s
  | VInt _ z => Sprint_int z
  | VBool b => AppendBool [] b
  | _ => str "?"
  end.

Fixpoint model_operands (args : list Value) : gostring :=
  match args with
  | [] => []
  | [v] => model_operand v
  | v :: args' => model_operand v ++ str " " ++ model_operands args'
  end.

Definition model_Sprintln (args : list Value) : gostring :=
  model_operands args ++ [newline].

Definition model_Sprintf (format : gostring) (args : list Value) : gostring :=
  format.

Definition model_GoLib : GoLib := {|
  Format := model_Format;
  time_MarshalJSON t :=
    inl (quote :: model_Format t (str "2006-01-02T15:04:05") ++ str "Z" ++ [quote]);
  Sprintln := model_Sprintln;
  Sprintf := model_Sprintf;
  logFormatNameFileLine _ := (str "main.main", str "main.go", 42);
  growslice c n := Z.max n (2 * c);
|}.

(** The bytes of a buffer as a string, and the test for a substring. *)
Definition show (l : list byte) : string := string_of_list_byte l.

Fixpoint Contains (s substr : gostring) : bool :=
  HasPrefix s substr
  || match s with
     | [] => false
     | _ :: s' => Contains s' substr
     end.

(** * The logging calls, by name *)

(** The ten calls and the severity of each. *)
Inductive method :=
| MDebug | MInfo | MWarning | MError | MFatal
| MDebugf | MInfof | MWarningf | MErrorf | MFatalf.

Definition severity (m : method) : Z :=
  match m with
  | MDebug | MDebugf => 0
  | MInfo | MInfof => 1
  | MWarning | MWarningf => 2
  | MError | MErrorf => 3
  | MFatal | MFatalf => 4
  end.

Definition is_fatal (m : method) : bool :=
  match m with
  | MFatal | MFatalf => true
  | _ => false
  end.

Section Calls.
Context `{GoLib} {W : Type} `{LoggerWriter W}.

(** The call of a method; [format] is used by the formatted variants. *)
Definition call (m : method) (format : gostring) (args : list Value)
    (entry : entryStd) : M (loggerStd W * World) unit :=
  match m with
  | MDebug => Debug args entry
  | MInfo => Info args entry
  | MWarning => Warning args entry
  | MError => Error args entry
  | MFatal => Fatal args entry
  | MDebugf => Debugf format args entry
  | MInfof => Infof format args entry
  | MWarningf => Warningf format args entry
  | MErrorf => Errorf format args entry
  | MFatalf => Fatalf format args entry
  end.

(** The threshold a call compares with: the level of the logger when the
    call is made on a template, which is forked first, and otherwise the
    level the working entry took from the logger when it was forked. *)
Definition threshold (log : loggerStd W) (entry : entryStd) : Z :=
  if logout entry then Level log else level entry.

(** The entry that [Pool.Get] gives: the last one put back, or a new
    one. *)
Definition next_entry (log : loggerStd W) : entryStd :=
  match Pool log with
  | [] => Pool_New log
  | e :: _ => e
  end.

(** The logger once [Pool.Get] has taken that entry. *)
Definition popped (log : loggerStd W) : loggerStd W :=
  match Pool log with
  | [] => log
  | _ :: pool => set_Pool pool log
  end.

(** The entry of the pool as [getEntry] sets it before it copies the
    buffer. *)
Definition forked (entry : entryStd) (log : loggerStd W) (world : World)
  : entryStd :=
  set_depth (depth entry)
    (set_level (Level log) (set_time (now world) (next_entry log))).

(** The reslice of [getEntry] is in range: the buffer of [entry] is
    empty, in which case there is no reslice, or its length is within
    the capacity of the buffer of [newentry]. *)
Definition fits (entry newentry : entryStd) : Prop :=
  data entry = [] \/ Z.of_nat (length (data entry)) <= datacap newentry.

(** A call forks the entry it is made on when that entry is a template:
    the buffer of the template fits the entry that the pool gives. *)
Definition fork_fits (log : loggerStd W) (entry : entryStd) : Prop :=
  logout entry = true -> fits entry (next_entry log).

(** The entries of the pool are working entries, none is a template. *)
Definition pool_working (log : loggerStd W) : Prop :=
  Forall (fun e => logout e = false) (Pool log).

(** [writeTo] after its first four writes. *)
Definition writeTo_fields_message (entry : entryStd)
  : M (loggerStd W * World) entryStd :=
  entry <- (if 0 <? depth entry then
              let '(name, file, line) := logFormatNameFileLine (depth entry) in
              entry <- WithField_in_place (str "name") (VString name) entry ;;
              entry <- WithField_in_place (str "file") (VString file) entry ;;
              WithField_in_place (str "line") (VInt KInt line) entry
            else ret entry) ;;
  entry <- (if (1 <? length (data entry))%nat then
              w_Write part3 ;;;
              let entry := set_data (set_last (data entry) rbrace) entry in
              w_Write (data entry) ;;;
              ret (set_data [] entry)
            else
              w_Write part4 ;;;
              ret entry) ;;
  if (0 <? length (message entry))%nat then
    w_Write part5 ;;;
    let entry := append_data (writeString (message entry) (data entry)) entry in
    w_Write (data entry) ;;;
    let entry := set_data [] entry in
    w_Write part6 ;;;
    ret entry
  else
    w_Write part7 ;;;
    ret entry.

End Calls.

(** The writer that records, and the line it has received: the writes
    put end to end. *)
Abbreviation Recorder := (list (list byte)).

Definition rendered (tr : Recorder) : list byte := concat tr.

(** A computation on a logger that records returns a result with the
    property [P], leaves the world as it is, and only adds writes,
    whatever the logger and the world. *)
Definition total_to {A : Type} (P : A -> Prop)
    (c : M (loggerStd Recorder * World) A) : Prop :=
  forall log world, exists a log' tr,
    c (log, world) = Ret (a, (log', world))
    /\ log_Writer log' = log_Writer log ++ tr /\ P a.

(** An entry that is not a template. *)
Definition working (e : entryStd) : Prop := logout e = false.

(** What the writer that records holds at the end of a run. *)
Definition line_of {A : Type} (o : outcome (A * (loggerStd Recorder * World)))
  : option (list byte) :=
  match o with
  | Ret (_, (log, _)) => Some (rendered (log_Writer log))
  | _ => None
  end.

(** ** A logger for the examples

    The logger that [NewLoggerStd] builds for the given level, without
    [FileLine], writing to the recorder; its template entry
    ([log.entryStd], an entry of the pool with [logout] set); and a world
    whose clock reads 2024-02-29 23:59:59. *)
Definition example_logger (lv : Z) : loggerStd Recorder :=
  {| Level := lv; TimeFormat := str "2006-01-02 15:04:05"; log_Writer := [];
     Pool := []; logdepath := 4 - 0x40 |}.

Definition example_template (lv : Z) : entryStd :=
  set_logout true (Pool_New (example_logger lv)).

Definition example_world : World :=
  {| now := 1709251199; files := ∅; openable := fun _ => true; stdout := [] |}.

(** A working entry, forked at level INFO. *)
Definition example_entry : entryStd :=
  {| level := 1; time := 1709251199; message := []; data := [];
     datacap := 2048; timeformat := str "2006-01-02 15:04:05"; depth := 4 - 0x40;
     logout := false |}.

(** * Runs of the rotating writer *)

Section WriterRuns.
Context `{GoLib}.

(** The writes of a list, one [Write] after the other. *)
Fixpoint Write_all (fuel : nat) (ps : list (list byte))
  : M (syncWriterRotate * World) unit :=
  match ps with
  | [] => ret tt
  | p :: ps' => _ <- rotate_Write fuel p ;; Write_all fuel ps'
  end.

(** The same, the clock being set before each [Write]. *)
Fixpoint Write_all_at (fuel : nat) (ps : list (Time * list byte))
  : M (syncWriterRotate * World) unit :=
  match ps with
  | [] => ret tt
  | (t, p) :: ps' =>
    in_world (modify (set_now t)) ;;;
    _ <- rotate_Write fuel p ;;
    Write_all_at fuel ps'
  end.

(** A rotating writer built by [NewLoggerWriterRotate], then some
    computation on it. *)
Definition with_rotating_writer {A : Type} (fuel : nat) (name : gostring)
    (std : bool) (maxsize : Z) (c : M (syncWriterRotate * World) A)
  : M World (A * syncWriterRotate) :=
  r <- NewLoggerWriterRotate fuel name std maxsize [] ;;
  match r with
  | (Some (LWRotate w), None) =>
    fun world => match c (w, world) with
                 | Ret (a, (w', world')) => Ret ((a, w'), world')
                 | Panic => Panic
                 | OutOfFuel => OutOfFuel
                 end
  | _ => panic
  end.

(** The test that starts a rotation by size in [Write]. *)
Definition starts_size_rotation (p : list byte) (w : syncWriterRotate) : bool :=
  (length p =? 9)%nat
  && (MaxSize w <=? wrap_uint64 (nbytes w + Z.of_nat (length p)))
  && bool_decide (p = part1).


End WriterRuns.

(** A world with no file, where every file can be opened. *)
Definition fresh_world (t : Time) : World :=
  {| now := t; files := ∅; openable := fun _ => true; stdout := [] |}.

(** The file a world holds under a name. *)
Definition segment (name : string) (world : World) : option (list byte) :=
  files world !! str name.

(** The workload of the scenario of size: lines of ten bytes, each one
    written as the nine bytes of [part1] and one more byte. *)
Definition short_line (rest : nat -> byte) (i : nat) : list (list byte) :=
  [part1; [rest i]].

Definition short_lines (rest : nat -> byte) (n : nat) : list (list byte) :=
  flat_map (short_line rest) (seq 0 n).

(** The scenario: threshold 100, name with an index, no file yet, clock
    at 2024-02-29 23:00:00, [n] lines. *)
Definition size_scenario (std : bool) (rest : nat -> byte) (n : nat)
  : outcome ((unit * syncWriterRotate) * World) :=
  with_rotating_writer (H := model_GoLib) 5 (str "app-index.log") std 100
    (Write_all (H := model_GoLib) 5 (short_lines rest n))
    (fresh_world 1709247600).

(** A writer in the middle of a segment of 95 bytes, in a world where
    only that segment can be opened. *)
Definition full_disk_writer : syncWriterRotate :=
  {| name := str "app-index.log"; std := false; MaxSize := 100;
     nextindex := 1; nexttime := 1709251200; nbytes := 95;
     Writer := Some {| Name := str "app-0.log" |};
     file := Some {| Name := str "app-0.log" |}; newfn := [] |}.

Definition full_disk_world : World :=
  {| now := 1709247600;
     files := {[ str "app-0.log" := repeat Byte.x2e 95 ]};
     openable := fun n => bool_decide (n = str "app-0.log");
     stdout := [] |}.


(** What the scenario of size says: after ten lines, segment 0 holds
    nine of them and segment 1 has been opened. *)
Definition nine_lines_then_roll (std : bool) (rest : nat -> byte) : Prop :=
  exists w world,
    size_scenario std rest 10 = Ret ((tt, w), world)
    /\ segment "app-0.log" world = Some (concat (short_lines rest 9))
    /\ is_Some (segment "app-1.log" world).

(** One line rendered by [writeTo], as the writes it makes, the first
    one at 09:59:59 and the others at 10:00:01 of 2024-02-29. *)
Definition line_across_the_hour : list (Time * list byte) :=
  [ (1709200799, part1);
    (1709200801, str "2024-02-29 10:00:01");
    (1709200801, part2);
    (1709200801, str "INFO");
    (1709200801, part4);
    (1709200801, part5);
    (1709200801, str "x");
    (1709200801, part6) ].

Definition hour_scenario : outcome ((unit * syncWriterRotate) * World) :=
  with_rotating_writer (H := model_GoLib) 5 (str "app-HH.log") false 0
    (Write_all_at (H := model_GoLib) 5 line_across_the_hour)
    (fresh_world 1709200799).

(** * Further definitions for the statements below *)

(** The parts joined by a separator. *)
Fixpoint join (sep : byte) (ps : list (list byte)) : list byte :=
  match ps with
  | [] => []
  | [p] => p
  | p :: ps' => p ++ sep :: join sep ps'
  end.

(** What the three container cases of the encoder leave in the buffer
    for the given encoded members: the opening byte, the members
    separated by commas, the closing byte; with no member, the closing
    byte has taken the place of the last byte written. *)
Definition bracketed (ps : list (list byte)) : list byte :=
  lbracket :: join comma ps ++ [rbracket].

Definition braced (ps : list (list byte)) : list byte :=
  match ps with
  | [] => [rbrace]
  | _ => lbrace :: join comma ps ++ [rbrace]
  end.

Section ExtraEncoder.
Context `{GoLib}.

(** A member of a map and a visible field of a struct, encoded. *)
Definition map_member (kv : Value * Value) : list byte :=
  writeReflect kv.1 [] ++ colon :: writeReflect kv.2 [].

Definition struct_member (f : gostring * bool * Value) : list byte :=
  writeString f.1.1 [] ++ colon :: writeReflect f.2 [].

Definition visible_fields (fields : list (gostring * bool * Value))
  : list (gostring * bool * Value) :=
  List.filter (fun f => f.1.2) fields.

End ExtraEncoder.

(** ** Fields and lines *)

(** The keys that [WithField] takes as controls, with the types of value
    for which it does: depth with an [int] or a [string], time with a
    [time.Time]. *)
Definition is_control (key : gostring) (value : Value) : bool :=
  (bool_decide (key = str "depth")
   && match value with VInt KInt _ | VString _ => true | _ => false end)
  || (negb (bool_decide (key = str "depth"))
      && bool_decide (key = str "time")
      && match value with VTime _ => true | _ => false end).

Section ExtraLogger.
Context `{GoLib}.

(** The bytes of one field in the buffer of an entry: the key between
    quotes as it is, a colon, the value encoded, a comma. *)
Definition field_bytes (key : gostring) (value : Value) : list byte :=
  quote :: key ++ [quote; colon] ++ writeReflect value [] ++ [comma].

(** The same without the comma: a member of the object of the fields. *)
Definition field_member (kv : gostring * Value) : list byte :=
  quote :: kv.1 ++ [quote; colon] ++ writeReflect kv.2 [].

(** The three fields of the caller, for an entry that captures it. *)
Definition caller_fields (depth : Z) : list byte :=
  let '(name, file, line) := logFormatNameFileLine depth in
  field_bytes (str "name") (VString name)
  ++ field_bytes (str "file") (VString file)
  ++ field_bytes (str "line") (VInt KInt line).

(** The buffer of the fields at the time of rendering. *)
Definition render_data (entry : entryStd) : list byte :=
  if 0 <? depth entry then data entry ++ caller_fields (depth entry)
  else data entry.

(** The line of an entry whose buffer of fields is empty or holds
    fields: the opening, the clock in the format of the entry, the name
    of the level, the object of the fields if there is any field, the
    message escaped if there is a message, the closing and a newline. *)
Definition line_bytes (now : Time) (entry : entryStd) : list byte :=
  part1 ++ Format now (timeformat entry) ++ part2
  ++ nth (Z.to_nat (level entry)) levels []
  ++ (match render_data entry with
      | [] => part4
      | d => part3 ++ set_last d rbrace
      end)
  ++ (match message entry with
      | [] => part7
      | m => part5 ++ writeString m [] ++ part6
      end).

(** The message a call gives its entry. *)
Definition message_of (m : method) (format : gostring) (args : list Value)
  : gostring :=
  match m with
  | MDebug | MInfo | MWarning | MError | MFatal =>
    take (length (Sprintln args) - 1) (Sprintln args)
  | _ => Sprintf format args
  end.

(** The level a call gives its entry: its own severity, except for
    Debug, which leaves the level that the entry has, the threshold. *)
Definition level_of (m : method) (threshold : Z) : Z :=
  match m with
  | MDebug => threshold
  | _ => severity m
  end.

End ExtraLogger.

(** The format of the time of a fork: that of the entry the pool gives,
    the first of the pool or a new one. *)
Definition fork_timeformat {W : Type} (log : loggerStd W) : gostring :=
  match Pool log with
  | [] => TimeFormat log
  | e :: _ => timeformat e
  end.

(** The entry that a call renders, as far as the line depends on it: the
    fields and the depth of the entry the call is made on, the level and
    the message of the call. *)
Definition rendered_entry {W : Type} `{GoLib} (m : method) (format : gostring)
    (args : list Value) (log : loggerStd W) (entry : entryStd) : entryStd :=
  {| level := level_of m (if logout entry then Level log else level entry);
     time := 0;
     message := message_of m format args;
     data := data entry;
     datacap := datacap entry;
     timeformat := if logout entry then fork_timeformat log
                   else timeformat entry;
     depth := depth entry;
     logout := false |}.

(** The buffer of an entry holds nothing or fields: it is never a single
    byte. *)
Definition fields_buffer (d : list byte) : Prop := length d <> 1%nat.

(** The entries of the pool hold no field and are not templates. *)
Definition pool_clean {W : Type} (log : loggerStd W) : Prop :=
  Forall (fun e => data e = [] /\ logout e = false) (Pool log).

(** The buffers of the entries of the pool have at least the capacity
    of the buffer of a new entry. *)
Definition pool_roomy {W : Type} (log : loggerStd W) : Prop :=
  Forall (fun e => 2048 <= datacap e) (Pool log).

(** What the language asks of [append]: the array allocated for a buffer
    that must grow holds what the buffer must hold. *)
Definition growslice_fits `{GoLib} : Prop :=
  forall c n, c < n -> n <= growslice c n.

(** An entry a call can be made on without a reslice out of range, now
    and after: a template holds at most as many bytes as the buffer of a
    new entry has room for, a working entry has a buffer of at least that
    capacity. *)
Definition entry_roomy (entry : entryStd) : Prop :=
  if logout entry then Z.of_nat (length (data entry)) <= 2048
  else 2048 <= datacap entry.

(** ** Segments *)

Section ExtraWriter.
Context `{GoLib}.

(** The name of a writer with the date filled in, as [formatDateName]
    gives it in a world. *)
Definition date_name (name : gostring) (world : World) : gostring :=
  match formatDateName name world with
  | Ret (fname, _) => fname
  | _ => []
  end.

(** The name of the segment of an index: the name with the date, the
    index written in the place of every occurrence of its placeholder. *)
Definition segment_name (name : gostring) (world : World) (i : Z) : gostring :=
  Replace (date_name name world) (str "index") (Sprint_int i) (-1).

End ExtraWriter.

(** The callbacks of a rotation, run in order on the name of the new
    file. *)
Definition run_callbacks (fns : list (gostring -> World -> World))
    (name : gostring) (world : World) : World :=
  fold_left (fun world fn => fn name world) fns world.

(** A world with one more file, empty. *)
Definition create_empty (name : gostring) (world : World) : World :=
  set_files (<[name := []]> (files world)) world.

(** A file that exists, can be opened, and has reached a size. *)
Definition full_segment (world : World) (maxsize : Z) (name : gostring) : Prop :=
  openable world name = true
  /\ exists content,
      files world !! name = Some content
      /\ maxsize <= Z.of_nat (length content) < 2 ^ 64.

(** A writer holds a file and its buffered writer together. *)
Definition writer_ok (w : syncWriterRotate) : Prop :=
  is_Some (file w) -> is_Some (Writer w).

(** ** Valid UTF-8 *)

(** [utf8.Valid]: every byte begins a sequence that decodes, or belongs
    to one; [skip] counts the bytes left of the sequence being read. *)
Fixpoint Valid_from (skip : nat) (s : gostring) : bool :=
  match s with
  | [] => true
  | b :: rest =>
    match skip with
    | S k => Valid_from k rest
    | O =>
      negb (is_invalid (DecodeRune s))
      && Valid_from (Nat.pred (snd (DecodeRune s))) rest
    end
  end.

Definition Valid (s : gostring) : bool := Valid_from 0 s.

Definition is_ascii (b : byte) : bool := (bv b <? RuneSelf)%N.

(** A byte that the escaper copies as it is: a single-byte character
    that is neither a control, nor the quote, nor the backslash. *)
Definition copied (b : byte) : bool := is_ascii b && plain b.

(** ** Worlds for the examples *)

(** After a restart: segment 0 is there, with 100 bytes. *)
Definition restart_world : World :=
  {| now := 1709247600;
     files := {[ str "app-0.log" := repeat Byte.x2e 100 ]};
     openable := fun _ => true;
     stdout := [] |}.

Definition restart_writer : syncWriterRotate :=
  {| name := str "app-index.log"; std := false; MaxSize := 100;
     nextindex := 0; nexttime := 1709251200; nbytes := 0;
     Writer := None; file := None; newfn := [] |}.

(** Segment 0 holds 95 bytes and any file can be opened. *)
Definition roomy_world : World :=
  {| now := 1709247600;
     files := {[ str "app-0.log" := repeat Byte.x2e 95 ]};
     openable := fun _ => true;
     stdout := [] |}.

(** A writer on a file named by the hour, whose maximum the file has
    reached. *)
Definition hourly_writer : syncWriterRotate :=
  {| name := str "app-HH.log"; std := false; MaxSize := 10;
     nextindex := 1; nexttime := 1709251200; nbytes := 10;
     Writer := Some {| Name := str "app-23.log" |};
     file := Some {| Name := str "app-23.log" |}; newfn := [] |}.

Definition hourly_world : World :=
  {| now := 1709247600;
     files := {[ str "app-23.log" := repeat Byte.x2e 10 ]};
     openable := fun _ => true;
     stdout := [] |}.

(** * Tactics *)

(** The header of [DecodeRune] for a known value of the table [first]. *)
Ltac eval_header x :=
  let sz := eval vm_compute in (N.to_nat (N.land x 7)) in
  change (N.to_nat (N.land x 7)) with sz;
  let acc := eval vm_compute in (acceptRanges (N.shiftr x 4)) in
  change (acceptRanges (N.shiftr x 4)) with acc;
  let a := eval vm_compute in (as_ <=? x)%N in
  change (as_ <=? x)%N with a;
  cbv iota.

Ltac decode_leaf :=
  let Hi := fresh "Hi" in
  first
    [ intros Hi; vm_compute in Hi; discriminate Hi
    | intros _; cbn [snd length take];
      split; [lia|]; split; [lia|];
      repeat (apply Forall_cons_2; [assumption|]);
      apply Forall_nil_2 ].


(** One step of simplification of a monadic term: the operations of the
    monad and the primitives on the world are unfolded, the fields of the
    records that are known are read. *)
Ltac mstep :=
  cbv beta iota zeta delta
    [bind ret self set_self in_world time_Now getNextHour formatDateName
     bufio_Write Stdout_Write panic modify];
  cbn [name std MaxSize nextindex nexttime nbytes Writer file newfn
       set_nextindex set_nexttime set_nbytes set_Writer_file fst snd
       now files openable stdout set_now set_files set_stdout].

Create HintDb total discriminated.

(** One step of simplification of a computation on a logger that
    records. *)
Ltac rstep :=
  cbv beta iota zeta delta
    [bind ret w_Write Write Recorder_LoggerWriter in_world time_Now self
     set_self Pool_Put append_data];
  cbn [log_Writer Level TimeFormat Pool logdepath set_log_Writer set_Pool
       set_Level level time message data datacap timeformat depth logout
       set_level set_time set_message set_data set_datacap set_depth
       set_logout fst snd length Nat.ltb Nat.leb].

(** [mstep], reading the names of files too. *)
Ltac wstep := mstep; cbn [Name]; mstep.
(** ** The escaper is the escaper of the specification *)

Lemma tryAddRuneSelf_app (b : byte) (data : list byte) :
  tryAddRuneSelf b data =
  (data ++ (tryAddRuneSelf b []).1, (tryAddRuneSelf b []).2).
Proof.
  unfold tryAddRuneSelf.
  repeat match goal with
         | |- context [if ?c then _ else _] => destruct c
         end; cbn [fst snd]; rewrite <- ?app_assoc, ?app_nil_r; reflexivity.
Qed.

Lemma tryAddRuneSelf_nil (b : byte) :
  tryAddRuneSelf b [] =
  if (bv b <? RuneSelf)%N then (escape_ascii b, true) else ([], false).
Proof. destruct b; vm_compute; reflexivity. Qed.

Lemma tryAddRuneSelf_spec (b : byte) (data : list byte) :
  tryAddRuneSelf b data =
  if (bv b <? RuneSelf)%N then (data ++ escape_ascii b, true) else (data, false).
Proof.
  rewrite tryAddRuneSelf_app, tryAddRuneSelf_nil.
  destruct (bv b <? RuneSelf)%N; cbn [fst snd]; rewrite ?app_nil_r; reflexivity.
Qed.

Lemma bv_bound (b : byte) : (bv b < 256)%N.
Proof. pose proof (Byte.to_N_bounded b). unfold bv. lia. Qed.

Lemma high_not_special (c : byte) :
  high c ->
  bool_decide (c = backslash) = false /\ bool_decide (c = quote) = false
  /\ (bv c <? 0x20)%N = false.
Proof.
  unfold high. intros Hc. repeat split.
  - apply bool_decide_eq_false. intros ->. vm_compute in Hc. auto.
  - apply bool_decide_eq_false. intros ->. vm_compute in Hc. auto.
  - apply N.ltb_ge. lia.
Qed.

Lemma json_unescape_plain (c : byte) (rest : list byte) :
  plain c = true ->
  json_unescape (c :: rest) = cons c <$> json_unescape rest.
Proof.
  unfold plain. intros Hc. cbn [json_unescape].
  destruct (bool_decide (c = backslash)); [discriminate|].
  destruct (bool_decide (c = quote)); [discriminate|].
  destruct (bv c <? 32)%N; [discriminate|]. reflexivity.
Qed.

Lemma json_unescape_simple (e b : byte) (rest : list byte) :
  bool_decide (e = Byte.x75) = false ->
  simple_escape e = Some b ->
  json_unescape (backslash :: e :: rest) = cons b <$> json_unescape rest.
Proof.
  intros He Hb. cbn [json_unescape].
  replace (bool_decide (backslash = backslash)) with true by reflexivity.
  now rewrite He, Hb.
Qed.

Lemma json_unescape_unicode (h1 h2 h3 h4 : byte) (bs rest : list byte) :
  unicode_escape h1 h2 h3 h4 = Some bs ->
  json_unescape (backslash :: Byte.x75 :: h1 :: h2 :: h3 :: h4 :: rest)
  = app bs <$> json_unescape rest.
Proof.
  intros Hu. cbn [json_unescape].
  replace (bool_decide (backslash = backslash)) with true by reflexivity.
  replace (bool_decide (Byte.x75 = Byte.x75)) with true by reflexivity.
  now rewrite Hu.
Qed.

Lemma escape_shape_ascii (b : byte) :
  (bv b <? RuneSelf)%N = true -> escape_shape b = true.
Proof.
  destruct b; intros Hb; vm_compute; vm_compute in Hb;
    first [reflexivity | discriminate Hb].
Qed.

Lemma json_unescape_ascii (b : byte) (rest : list byte) :
  (bv b <? RuneSelf)%N = true ->
  json_unescape (escape_ascii b ++ rest) = cons b <$> json_unescape rest.
Proof.
  intros Hb. pose proof (escape_shape_ascii b Hb) as Hs.
  unfold escape_shape in Hs.
  destruct (escape_ascii b) as [|c [|e [|h1 [|h2 [|h3 [|h4 [|? ?]]]]]]];
    try discriminate Hs; cbn [app].
  - apply andb_prop in Hs as [Hc Hp]. apply bool_decide_eq_true in Hc as ->.
    now apply json_unescape_plain.
  - apply andb_prop in Hs as [Hs Hd]. apply andb_prop in Hs as [Hc He].
    apply bool_decide_eq_true in Hc as ->. apply bool_decide_eq_true in Hd.
    apply json_unescape_simple; [|exact Hd].
    now destruct (bool_decide (e = Byte.x75)).
  - apply andb_prop in Hs as [Hs Hd]. apply andb_prop in Hs as [Hc He].
    apply bool_decide_eq_true in Hc as ->. apply bool_decide_eq_true in He as ->.
    apply bool_decide_eq_true in Hd.
    now rewrite (json_unescape_unicode _ _ _ _ [b]).
Qed.

Lemma json_unescape_replacement (rest : list byte) :
  json_unescape (backslash :: str "ufffd" ++ rest)
  = app replacement <$> json_unescape rest.
Proof.
  change (backslash :: str "ufffd" ++ rest)
    with (backslash :: Byte.x75 :: Byte.x66 :: Byte.x66 :: Byte.x66
            :: Byte.x64 :: rest).
  apply json_unescape_unicode. vm_compute. reflexivity.
Qed.

(** ** Sequences that decode *)

Lemma first_cases (n : N) :
  ((n < 0x80)%N /\ first n = as_) \/
  ((0x80 <= n)%N /\
   (first n = xx \/ first n = s1 \/ first n = s2 \/ first n = s3 \/
    first n = s4 \/ first n = s5 \/ first n = s6 \/ first n = s7)).
Proof.
  unfold first.
  repeat match goal with
         | |- context [(?a <? ?b)%N] => destruct (N.ltb_spec a b)
         | |- context [(?a =? ?b)%N] => destruct (N.eqb_spec a b)
         end; try (left; split; [lia|reflexivity]); right; (split; [lia|]);
    tauto.
Qed.

Lemma cont_byte_high (c : byte) : cont_byte (bv c) = true -> high c.
Proof.
  unfold cont_byte, high, locb. intros Hc.
  apply andb_prop in Hc as [Hc _]. now apply N.leb_le in Hc.
Qed.

Lemma accept_high (c : byte) (lo hi : N) :
  (0x80 <= lo)%N -> ((bv c <? lo) || (hi <? bv c))%N = false -> high c.
Proof.
  intros Hlo Hc. apply orb_false_elim in Hc as [Hc _].
  apply N.ltb_ge in Hc. unfold high. lia.
Qed.

(** A sequence that decodes, at a byte that is not a single-byte
    character, has two to four bytes, all of them with the high bit. *)
Lemma DecodeRune_valid (b : byte) (rest : list byte) :
  (bv b <? RuneSelf)%N = false ->
  is_invalid (DecodeRune (b :: rest)) = false ->
  let size := snd (DecodeRune (b :: rest)) in
  (2 <= size <= 4)%nat /\ (size <= length (b :: rest))%nat
  /\ Forall high (take size (b :: rest)).
Proof.
  intros Hb. apply N.ltb_ge in Hb. unfold RuneSelf in Hb.
  assert (Hh : high b) by exact Hb.
  unfold DecodeRune. cbv zeta.
  destruct (first_cases (bv b)) as [[Hlt _]|[_ Hx]]; [lia|].
  destruct Hx as [Hx|[Hx|[Hx|[Hx|[Hx|[Hx|[Hx|Hx]]]]]]]; rewrite Hx;
    [ eval_header xx | eval_header s1 | eval_header s2 | eval_header s3
    | eval_header s4 | eval_header s5 | eval_header s6 | eval_header s7 ].
  all: try (intros Hi; vm_compute in Hi; discriminate Hi).
  all: match goal with
       | |- context [(length ?p <? ?n)%nat] => destruct (length p <? n)%nat
       end; [decode_leaf|].
  all: destruct rest as [|c1 rest1]; [decode_leaf|].
  all: cbn [fst snd];
    match goal with
    | |- context [((bv ?c <? ?lo) || (?hi <? bv ?c))%N] =>
      destruct ((bv c <? lo) || (hi <? bv c))%N eqn:H1;
        [decode_leaf|
         assert (Hh1 : high c)
           by (apply (accept_high c lo hi); [vm_compute; discriminate|exact H1])]
    end.
  all: match goal with
       | |- context [(?a <=? 2)%nat] =>
         let v := eval vm_compute in (a <=? 2)%nat in
         change (a <=? 2)%nat with v; cbv iota
       end; try decode_leaf.
  all: destruct rest1 as [|c2 rest2]; [decode_leaf|].
  all: destruct (cont_byte (bv c2)) eqn:H2; cbn [negb]; [|decode_leaf];
    apply cont_byte_high in H2.
  all: match goal with
       | |- context [(?a <=? 3)%nat] =>
         let v := eval vm_compute in (a <=? 3)%nat in
         change (a <=? 3)%nat with v; cbv iota
       end; try decode_leaf.
  all: destruct rest2 as [|c3 rest3]; [decode_leaf|].
  all: destruct (cont_byte (bv c3)) eqn:H3; cbn [negb]; [|decode_leaf];
    apply cont_byte_high in H3.
  all: decode_leaf.
Qed.

Lemma DecodeRune_ascii (b : byte) (rest : list byte) :
  (bv b <? RuneSelf)%N = true ->
  DecodeRune (b :: rest) = (Z.of_N (bv b), 1%nat).
Proof.
  intros Hb. apply N.ltb_lt in Hb. unfold RuneSelf in Hb.
  unfold DecodeRune. cbv zeta.
  destruct (first_cases (bv b)) as [[_ Hx]|[Hge _]]; [|lia].
  rewrite Hx. reflexivity.
Qed.

Lemma ascii_not_invalid (b : byte) (rest : list byte) :
  (bv b <? RuneSelf)%N = true -> is_invalid (DecodeRune (b :: rest)) = false.
Proof.
  intros Hb. rewrite DecodeRune_ascii by exact Hb.
  apply N.ltb_lt in Hb. unfold RuneSelf in Hb.
  unfold is_invalid, RuneError. cbn [fst snd].
  apply andb_false_intro1. apply Z.eqb_neq. lia.
Qed.

(** Copying the rest of a sequence, then going on. *)
Lemma escape_spec_skip (k : nat) (s : gostring) :
  (k <= length s)%nat ->
  escape_spec k s = take k s ++ escape_spec 0 (drop k s).
Proof.
  revert k. induction s as [|b s IH]; intros [|k] Hk; cbn [length] in Hk;
    try reflexivity; try lia.
  cbn [escape_spec take drop app]. now rewrite IH by lia.
Qed.

Lemma toValidUTF8_skip (k : nat) (s : gostring) :
  (k <= length s)%nat ->
  toValidUTF8 k s = take k s ++ toValidUTF8 0 (drop k s).
Proof.
  revert k. induction s as [|b s IH]; intros [|k] Hk; cbn [length] in Hk;
    try reflexivity; try lia.
  cbn [toValidUTF8 take drop app]. now rewrite IH by lia.
Qed.

(** The loop of [writeString], given at least [len(s)] turns, appends the
    escape of the specification. *)
Lemma writeString_loop_spec (fuel : nat) :
  forall (s : gostring) (data : list byte),
    (length s <= fuel)%nat ->
    writeString_loop fuel s data = data ++ escape_spec 0 s.
Proof.
  induction fuel as [|fuel IH]; intros [|b s] data Hlen; cbn [length] in Hlen;
    try lia; cbn [writeString_loop escape_spec];
    rewrite ?app_nil_r; try reflexivity.
  rewrite tryAddRuneSelf_spec.
  destruct (bv b <? RuneSelf)%N eqn:Hb.
  - change (drop 1 (b :: s)) with s. rewrite IH by lia. now rewrite app_assoc.
  - unfold DecodeRuneInString, tryAddRuneError.
    pose proof (DecodeRune_valid b s Hb) as Hvalid.
    unfold is_invalid in *.
    destruct (DecodeRune (b :: s)) as [r size]. cbn [fst snd] in *.
    destruct ((r =? RuneError) && (size =? 1)%nat).
    + change (drop 1 (b :: s)) with s. rewrite IH by lia.
      now rewrite <- app_assoc.
    + destruct (Hvalid eq_refl) as ([Hlo Hhi] & Hsz & _).
      cbn [length] in Hsz.
      rewrite IH by (rewrite length_drop; cbn [length]; lia).
      destruct size as [|k]; [lia|].
      change (take (S k) (b :: s)) with (b :: take k s).
      change (drop (S k) (b :: s)) with (drop k s).
      cbn [Nat.pred]. rewrite (escape_spec_skip k s) by lia.
      now rewrite <- !app_assoc.
Qed.

Lemma writeString_spec (s : gostring) (data : list byte) :
  writeString s data = data ++ escape_spec 0 s.
Proof. apply writeString_loop_spec. reflexivity. Qed.

(** More turns than [len(s)] change nothing: the loop has ended. *)
Lemma writeString_loop_fuel (fuel : nat) (s : gostring) (data : list byte) :
  (length s <= fuel)%nat ->
  writeString_loop fuel s data = writeString s data.
Proof.
  intros Hlen. now rewrite writeString_loop_spec, writeString_spec.
Qed.

Lemma writeBytes_writeString (s : gostring) (data : list byte) :
  writeBytes s data = writeString s data.
Proof. reflexivity. Qed.

(** ** Decoding the escape *)

Lemma high_plain (c : byte) : high c -> plain c = true.
Proof.
  intros Hc. unfold plain.
  now destruct (high_not_special c Hc) as (-> & -> & ->).
Qed.

Lemma json_unescape_escape_spec (s : gostring) :
  forall k : nat,
    (k <= length s)%nat -> Forall high (take k s) ->
    json_unescape (escape_spec k s) = Some (toValidUTF8 k s).
Proof.
  induction s as [|b s IH]; intros k Hk Hhigh; [reflexivity|].
  destruct k as [|k]; cbn [escape_spec toValidUTF8].
  - destruct (bv b <? RuneSelf)%N eqn:Hb.
    + rewrite (ascii_not_invalid b s Hb), (DecodeRune_ascii b s Hb).
      cbn [snd Nat.pred]. rewrite json_unescape_ascii by exact Hb.
      rewrite (IH 0%nat) by (cbn; auto with lia). reflexivity.
    + destruct (is_invalid (DecodeRune (b :: s))) eqn:Hinv.
      * rewrite (json_unescape_replacement (escape_spec 0 s)).
        rewrite (IH 0%nat) by (cbn; auto with lia). reflexivity.
      * destruct (DecodeRune_valid b s Hb Hinv) as ([Hlo Hhi] & Hsz & Hall).
        cbn [length] in Hsz.
        destruct (DecodeRune (b :: s)) as [r [|size]]; cbn [snd] in *; [lia|].
        cbn [take Nat.pred] in *. apply Forall_cons_1 in Hall as [Hb' Hall].
        rewrite json_unescape_plain by (apply high_plain, Hb').
        rewrite (IH size) by (auto with lia). reflexivity.
  - cbn [take length] in *. apply Forall_cons_1 in Hhigh as [Hb Hhigh].
    rewrite json_unescape_plain by (apply high_plain, Hb).
    rewrite (IH k) by (auto with lia). reflexivity.
Qed.

(** C8. For every message, the bytes that [writeString] appends are the
    escape described by the specification (bytes copied, backslash and
    double quote escaped with a backslash, newline, carriage return and
    tab as their letter escapes, other control bytes as a u00XX escape,
    bytes at which no sequence decodes as the escape of U+FFFD), and JSON
    string decoding of them gives back the message with each such byte
    replaced by the encoding of U+FFFD. *)
Theorem writeString_json_roundtrip (s : gostring) :
  writeString s [] = escape_spec 0 s
  /\ json_unescape (writeString s []) = Some (toValidUTF8 0 s).
Proof.
  rewrite writeString_spec. cbn [app]. split; [reflexivity|].
  apply json_unescape_escape_spec; [lia|apply Forall_nil_2].
Qed.

(** * The encoder *)

Section EncoderFacts.
Context `{GoLib}.

Lemma writeReflect_VSlice (elems : list Value) (data : list byte) :
  writeReflect (VSlice elems) data =
  set_last (slice_loop elems
              (if (length elems =? 0)%nat
               then (data ++ [lbracket]) ++ [comma] else data ++ [lbracket]))
           rbracket.
Proof. reflexivity. Qed.

Lemma writeReflect_VMap (entries : list (Value * Value)) (data : list byte) :
  writeReflect (VMap entries) data =
  set_last (map_loop entries (data ++ [lbrace])) rbrace.
Proof. reflexivity. Qed.

Lemma writeReflect_VStruct (fields : list (gostring * bool * Value))
    (data : list byte) :
  writeReflect (VStruct fields) data =
  set_last (struct_loop fields (data ++ [lbrace])) rbrace.
Proof. reflexivity. Qed.

Lemma set_last_snoc (l : list byte) (c d : byte) :
  set_last (l ++ [c]) d = l ++ [d].
Proof.
  unfold set_last. rewrite length_app. cbn [length].
  replace (Nat.pred (length l + 1)) with (length l + 0)%nat by lia.
  now rewrite insert_app_r.
Qed.

Lemma struct_loop_hidden (fields : list (gostring * bool * Value))
    (data : list byte) :
  Forall hidden fields -> struct_loop fields data = data.
Proof.
  induction 1 as [|[[n c] v] l Hh _ IH]; [reflexivity|].
  unfold hidden in Hh. cbn in Hh. subst c. exact IH.
Qed.

(** C7. Encoding a map with no entry appends the single byte of the
    closing brace: the rewrite of the last byte falls on the opening brace.
    The same holds for a struct none of whose fields is visible from
    outside, in particular one with no field. *)
Theorem writeReflect_empty_map_struct
    (fields : list (gostring * bool * Value)) (data : list byte) :
  Forall hidden fields ->
  writeReflect (VMap []) data = data ++ [rbrace]
  /\ writeReflect (VStruct fields) data = data ++ [rbrace].
Proof.
  intros Hh. split.
  - rewrite writeReflect_VMap. cbn [map_loop]. apply set_last_snoc.
  - rewrite writeReflect_VStruct, struct_loop_hidden by exact Hh.
    apply set_last_snoc.
Qed.

(** ** The encoder only appends *)

Lemma set_last_prefix (d x : list byte) (c : byte) :
  x <> [] -> set_last (d ++ x) c = d ++ set_last x c.
Proof.
  intros Hx. unfold set_last. rewrite length_app.
  destruct x as [|b x]; [congruence|]. cbn [length].
  replace (Nat.pred (length d + S (length x))) with (length d + length x)%nat
    by lia.
  now rewrite insert_app_r.
Qed.

Lemma writeString_app (s : gostring) (data : list byte) :
  writeString s data = data ++ writeString s [].
Proof. now rewrite !writeString_spec. Qed.

Lemma write_marshaled_app (r : gostring + gostring) (data : list byte) :
  write_marshaled r data = data ++ write_marshaled r [].
Proof.
  unfold write_marshaled. destruct r as [body|err];
    rewrite ?writeBytes_writeString, (writeString_app _ (data ++ [quote])),
      (writeString_app _ ([] ++ [quote])), <- !app_assoc; reflexivity.
Qed.

Lemma AppendUint_app (data : list byte) (n : Z) (base : N) :
  AppendUint data n base = data ++ AppendUint [] n base.
Proof. reflexivity. Qed.

Lemma AppendInt_app (data : list byte) (z : Z) :
  AppendInt data z = data ++ AppendInt [] z.
Proof.
  unfold AppendInt. destruct (z <? 0); [|apply AppendUint_app].
  rewrite (AppendUint_app (data ++ _)), (AppendUint_app ([] ++ _)).
  now rewrite <- !app_assoc.
Qed.

Lemma slice_loop_app (l : list Value) :
  Forall appends l ->
  forall data, slice_loop l data = data ++ slice_loop l [].
Proof.
  induction 1 as [|x l Hx _ IH]; intros data; cbn [slice_loop].
  - now rewrite app_nil_r.
  - rewrite (IH (writeReflect x data ++ _)), (IH (writeReflect x [] ++ _)).
    rewrite (Hx data). now rewrite <- !app_assoc.
Qed.

Lemma map_loop_app (l : list (Value * Value)) :
  Forall (fun kv => appends kv.1 /\ appends kv.2) l ->
  forall data, map_loop l data = data ++ map_loop l [].
Proof.
  induction 1 as [|[k v] l [Hk Hv] _ IH]; intros data; cbn [map_loop].
  - now rewrite app_nil_r.
  - cbn [fst snd] in Hk, Hv.
    rewrite (IH (writeReflect v (writeReflect k data ++ _) ++ _)),
      (IH (writeReflect v (writeReflect k [] ++ _) ++ _)).
    rewrite (Hv (writeReflect k data ++ _)), (Hv (writeReflect k [] ++ _)).
    rewrite (Hk data). now rewrite <- !app_assoc.
Qed.

Lemma struct_loop_app (l : list (gostring * bool * Value)) :
  Forall (fun f => appends f.2) l ->
  forall data, struct_loop l data = data ++ struct_loop l [].
Proof.
  induction 1 as [|[[n c] v] l Hv _ IH]; intros data; cbn [struct_loop].
  - now rewrite app_nil_r.
  - cbn [snd] in Hv. destruct c; [|apply IH].
    rewrite (IH (writeReflect v (writeString n data ++ _) ++ _)),
      (IH (writeReflect v (writeString n [] ++ _) ++ _)).
    rewrite (Hv (writeString n data ++ _)), (Hv (writeString n [] ++ _)).
    rewrite (writeString_app n data). now rewrite <- !app_assoc.
Qed.

(** Whatever the value, [writeReflect] leaves the bytes already in the
    buffer as they are and appends to them. *)
Lemma writeReflect_app (v : Value) : appends v.
Proof.
  induction v using Value_nested_ind; intros data;
    try (cbn [writeReflect]; first
           [ apply write_marshaled_app | apply AppendInt_app
           | apply AppendUint_app
           | rewrite (writeString_app _ (data ++ [quote])),
               (writeString_app _ ([] ++ [quote])), <- !app_assoc; reflexivity
           | unfold AppendBool; reflexivity
           | rewrite <- !app_assoc; reflexivity
           | reflexivity ]).
  - (* slice *)
    rename select (Forall _ _) into H0.
    rewrite !writeReflect_VSlice.
    destruct (length elems =? 0)%nat.
    + rewrite (slice_loop_app elems H0 ((data ++ _) ++ _)),
        (slice_loop_app elems H0 (([] ++ _) ++ _)).
      rewrite <- !app_assoc. now rewrite set_last_prefix by discriminate.
    + rewrite (slice_loop_app elems H0 (data ++ _)),
        (slice_loop_app elems H0 ([] ++ _)).
      rewrite <- !app_assoc. now rewrite set_last_prefix by discriminate.
  - (* map *)
    rename select (Forall _ _) into H0.
    rewrite !writeReflect_VMap.
    rewrite (map_loop_app entries H0 (data ++ _)),
      (map_loop_app entries H0 ([] ++ _)).
    rewrite <- !app_assoc. now rewrite set_last_prefix by discriminate.
  - (* struct *)
    rename select (Forall _ _) into H0.
    rewrite !writeReflect_VStruct.
    rewrite (struct_loop_app fields H0 (data ++ _)),
      (struct_loop_app fields H0 ([] ++ _)).
    rewrite <- !app_assoc. now rewrite set_last_prefix by discriminate.
  - (* pointer *)
    cbn [writeReflect]. apply IHv.
  - (* address *)
    cbn [writeReflect].
    rewrite (AppendUint_app (data ++ _)), (AppendUint_app ([] ++ _)).
    now rewrite <- !app_assoc.
Qed.

(** ** Keys of structs and keys of maps *)

Lemma escape_ascii_head (b : byte) :
  (bv b <? RuneSelf)%N = true ->
  exists c l, escape_ascii b = c :: l /\ c <> quote.
Proof.
  intros Hb. pose proof (escape_shape_ascii b Hb) as Hs.
  unfold escape_shape in Hs.
  destruct (escape_ascii b) as [|c [|e l]]; [discriminate Hs| |].
  - exists c, []. split; [reflexivity|].
    apply andb_prop in Hs as [_ Hp]. unfold plain in Hp.
    intros ->. vm_compute in Hp. discriminate Hp.
  - exists c, (e :: l). split; [reflexivity|].
    assert (Hc : bool_decide (c = backslash) = true).
    { destruct l as [|? [|? [|? [|? [|? ?]]]]]; try discriminate Hs;
        now destruct (bool_decide (c = backslash)). }
    apply bool_decide_eq_true in Hc as ->. discriminate.
Qed.

(** What the escaper writes for a key, followed by the colon, never
    begins with a double quote. *)
Lemma escaped_key_head (k : gostring) (rest : list byte) :
  exists c l, escape_spec 0 k ++ colon :: rest = c :: l /\ c <> quote.
Proof.
  destruct k as [|b k]; cbn [escape_spec app].
  - exists colon, rest. split; [reflexivity|discriminate].
  - destruct (bv b <? RuneSelf)%N eqn:Hb.
    + destruct (escape_ascii_head b Hb) as (c & l & -> & Hc).
      exists c, (l ++ escape_spec 0 k ++ colon :: rest).
      split; [now rewrite <- app_assoc|exact Hc].
    + destruct (is_invalid (DecodeRune (b :: k))).
      * eexists _, _. split; [reflexivity|discriminate].
      * eexists _, _. split; [reflexivity|].
        intros ->. vm_compute in Hb. discriminate Hb.
Qed.

(** C9. A struct with one visible field and a map with one string key
    carrying the same pair are not encoded alike: the struct writes the
    name of the field escaped but bare, the map writes the key between
    double quotes. *)
Theorem writeReflect_struct_key_unquoted (k : gostring) (v : Value)
    (data : list byte) :
  writeReflect (VStruct [(k, true, v)]) data
  = data ++ [lbrace] ++ escape_spec 0 k ++ [colon]
         ++ writeReflect v [] ++ [rbrace]
  /\ writeReflect (VMap [(VString k, v)]) data
     = data ++ [lbrace] ++ [quote] ++ escape_spec 0 k ++ [quote] ++ [colon]
            ++ writeReflect v [] ++ [rbrace]
  /\ writeReflect (VStruct [(k, true, v)]) data
     <> writeReflect (VMap [(VString k, v)]) data.
Proof.
  assert (Hs : writeReflect (VStruct [(k, true, v)]) data
               = data ++ [lbrace] ++ escape_spec 0 k ++ [colon]
                      ++ writeReflect v [] ++ [rbrace]).
  { rewrite writeReflect_VStruct. cbn [struct_loop].
    rewrite (writeReflect_app v), writeString_spec.
    rewrite <- !app_assoc.
    rewrite !(app_assoc _ _ [comma]), set_last_snoc.
    now rewrite <- !app_assoc. }
  assert (Hm : writeReflect (VMap [(VString k, v)]) data
               = data ++ [lbrace] ++ [quote] ++ escape_spec 0 k ++ [quote]
                      ++ [colon] ++ writeReflect v [] ++ [rbrace]).
  { rewrite writeReflect_VMap. cbn [map_loop writeReflect].
    rewrite (writeReflect_app v), writeString_spec.
    rewrite <- !app_assoc.
    rewrite !(app_assoc _ _ [comma]), set_last_snoc.
    now rewrite <- !app_assoc. }
  split; [exact Hs|]. split; [exact Hm|].
  rewrite Hs, Hm. intros Heq. apply app_inv_head in Heq.
  cbn [app] in Heq. injection Heq as Heq.
  destruct (escaped_key_head k (writeReflect v [] ++ [rbrace]))
    as (c & l & Hk & Hc).
  rewrite Hk in Heq. injection Heq as Hq _. exact (Hc Hq).
Qed.

End EncoderFacts.

Lemma writeReflect_empty_map_struct_witness :
  Forall hidden [(str "secret", false, VInt KInt 1)]
  /\ @writeReflect model_GoLib (VMap []) (str "k:") = str "k:}"
  /\ @writeReflect model_GoLib
       (VStruct [(str "secret", false, VInt KInt 1)]) (str "k:") = str "k:}".
Proof.
  assert (Hh : Forall hidden [(str "secret", false, VInt KInt 1)])
    by (apply Forall_cons_2; [reflexivity|apply Forall_nil_2]).
  split; [exact Hh|].
  exact (@writeReflect_empty_map_struct model_GoLib _ (str "k:") Hh).
Defined.

(** * The logging calls *)

Lemma bind_Ret {S A B} (c : M S A) (k : A -> M S B) (s s' : S) (a : A) :
  c s = Ret (a, s') -> bind c k s = k a s'.
Proof. unfold bind. now intros ->. Qed.

Section Filter.
Context `{GoLib} {W : Type} `{LoggerWriter W}.

(** [getEntry] on the entry that the pool gives. *)
Lemma getEntry_eq (entry : entryStd) (log : loggerStd W) (world : World) :
  getEntry entry (log, world)
  = match data entry with
    | [] => Ret (forked entry log world, (popped log, world))
    | _ =>
      if Z.of_nat (length (data entry)) <=? datacap (next_entry log)
      then Ret (set_data (data entry) (forked entry log world),
                (popped log, world))
      else Panic
    end.
Proof.
  unfold getEntry, Pool_Get, bind, self, in_world, time_Now, set_self, ret,
    forked, popped, next_entry, panic.
  destruct (Pool log) as [|e pool];
    cbn [fst snd Level set_Pool datacap set_depth set_level set_time];
    destruct (data entry) as [|c d]; cbn [length Nat.eqb negb];
    try reflexivity;
    match goal with
    | |- context [(?a <=? ?b)] => destruct (a <=? b); reflexivity
    end.
Qed.

(** Forking takes an entry from the pool and gives it the level of the
    logger; the writer is not involved. *)
Lemma getEntry_spec (entry : entryStd) (log : loggerStd W) (world : World) :
  fits entry (next_entry log) ->
  exists e',
    getEntry entry (log, world) = Ret (e', (popped log, world))
    /\ level e' = Level log /\ logout e' = logout (next_entry log).
Proof.
  unfold fits. intros Hfit. rewrite getEntry_eq.
  destruct (data entry) as [|c d] eqn:Hd.
  - eexists. split; [reflexivity|]. now split.
  - destruct Hfit as [Hfit|Hfit]; [discriminate Hfit|].
    destruct (Z.leb_spec (Z.of_nat (length (c :: d)))
                (datacap (next_entry log))); [|lia].
    eexists. split; [reflexivity|]. now split.
Qed.

Lemma popped_Writer_Level (log : loggerStd W) :
  log_Writer (popped log) = log_Writer log /\ Level (popped log) = Level log.
Proof. unfold popped. destruct (Pool log); split; reflexivity. Qed.

Lemma fork_if_logout_spec (entry : entryStd) (log : loggerStd W)
    (world : World) :
  fork_fits log entry ->
  exists e' log',
    fork_if_logout entry (log, world) = Ret (e', (log', world))
    /\ level e' = threshold log entry
    /\ logout e' = (if logout entry then logout (next_entry log) else false)
    /\ log_Writer log' = log_Writer log /\ Level log' = Level log
    /\ log' = (if logout entry then popped log else log).
Proof.
  unfold fork_fits, fork_if_logout, threshold. intros Hfit.
  destruct (popped_Writer_Level log) as [Hw HL].
  destruct (logout entry) eqn:Hlo.
  - destruct (getEntry_spec entry log world (Hfit eq_refl))
      as (e' & -> & ? & ?).
    eauto 10.
  - unfold ret. eauto 10.
Qed.

(** The pool of working entries gives a working entry. *)
Lemma next_entry_working (log : loggerStd W) :
  pool_working log -> logout (next_entry log) = false.
Proof.
  unfold pool_working, next_entry. intros Hp.
  destruct (Pool log) as [|e pool]; [reflexivity|].
  now apply Forall_cons_1 in Hp as [He _].
Qed.

(** A call below the threshold returns without a [Write]. *)
Lemma call_filtered (m : method) (format : gostring) (args : list Value)
    (entry : entryStd) (log : loggerStd W) (world : World) :
  fork_fits log entry ->
  is_fatal m = false ->
  severity m < threshold log entry ->
  exists log',
    call m format args entry (log, world) = Ret (tt, (log', world))
    /\ log_Writer log' = log_Writer log /\ Level log' = Level log
    /\ log' = (if logout entry then popped log else log).
Proof.
  intros Hfit Hm Hlt.
  destruct (fork_if_logout_spec entry log world Hfit)
    as (e' & log' & Hf & Hl & _ & Hw & HL & Hp).
  exists log'. split; [|split; [exact Hw|split; [exact HL|exact Hp]]].
  destruct m; try discriminate Hm; cbn [call severity] in *;
    unfold Debug, Info, Warning, Error, Debugf, Infof, Warningf, Errorf;
    rewrite (bind_Ret _ _ _ _ _ Hf), Hl;
    match goal with
    | |- context [(?a <? ?b)] => destruct (Z.ltb_spec a b); [lia|reflexivity]
    end.
Qed.

(** A template whose buffer does not fit the entry of the pool cannot be
    forked. *)
Lemma getEntry_panics (entry : entryStd) (log : loggerStd W) (world : World) :
  datacap (next_entry log) < Z.of_nat (length (data entry)) ->
  data entry <> [] ->
  getEntry entry (log, world) = Panic.
Proof.
  intros Hcap Hne. rewrite getEntry_eq.
  destruct (data entry) as [|c d]; [congruence|].
  destruct (Z.leb_spec (Z.of_nat (length (c :: d)))
              (datacap (next_entry log))); [lia|reflexivity].
Qed.

End Filter.

(** ** Rendering, observed on the writer that records *)

Section Rendering.
Context `{GoLib}.

Abbreviation RSt := (loggerStd Recorder * World)%type.

Lemma total_ret {A} (P : A -> Prop) (a : A) : P a -> total_to P (ret a).
Proof.
  intros Ha log world. exists a, log, []. now rewrite app_nil_r.
Qed.

Lemma total_bind {A B} (P : A -> Prop) (Q : B -> Prop) (c : M RSt A)
    (k : A -> M RSt B) :
  total_to P c -> (forall a, P a -> total_to Q (k a)) -> total_to Q (bind c k).
Proof.
  intros Hc Hk log world.
  destruct (Hc log world) as (a & log1 & tr1 & Hc1 & Hw1 & Ha).
  destruct (Hk a Ha log1 world) as (b & log2 & tr2 & Hk2 & Hw2 & Hb).
  exists b, log2, (tr1 ++ tr2). rewrite (bind_Ret _ _ _ _ _ Hc1).
  split; [exact Hk2|]. split; [|exact Hb]. now rewrite Hw2, Hw1, app_assoc.
Qed.

Lemma total_if {A} (P : A -> Prop) (b : bool) (c1 c2 : M RSt A) :
  total_to P c1 -> total_to P c2 -> total_to P (if b then c1 else c2).
Proof. now destruct b. Qed.

Lemma w_Write_recorded (p : list byte) (log : loggerStd Recorder)
    (world : World) :
  w_Write p (log, world)
  = Ret (tt, (set_log_Writer (log_Writer log ++ [p]) log, world)).
Proof. reflexivity. Qed.

Lemma total_w_Write (P : unit -> Prop) (p : list byte) :
  P tt -> total_to P (w_Write p).
Proof.
  intros Ht log world.
  exists tt, (set_log_Writer (log_Writer log ++ [p]) log), [p].
  split; [reflexivity|]. split; [reflexivity|exact Ht].
Qed.

(** [WithField] on a working entry returns it, still a working entry,
    and writes nothing. *)
Lemma total_WithField (key : gostring) (value : Value) (entry : entryStd) :
  working entry -> total_to working (WithField key value entry).
Proof.
  unfold working. intros Hlo. unfold WithField, fork_if_logout. rewrite Hlo.
  apply total_bind with (P := working); [now apply total_ret|].
  intros e He. cbv zeta. repeat case_match; apply total_ret; exact He.
Qed.

Lemma total_WithField_in_place (key : gostring) (value : Value)
    (entry : entryStd) :
  working entry -> total_to working (WithField_in_place key value entry).
Proof.
  intros Hlo. unfold WithField_in_place.
  apply total_bind with (P := working); [now apply total_WithField|].
  intros e He. apply total_ret. now destruct (logout entry).
Qed.

Lemma total_Pool_Put (entry : entryStd) :
  total_to (fun _ => True) (Pool_Put entry).
Proof.
  intros log world. exists tt, (set_Pool (entry :: Pool log) log), [].
  split; [reflexivity|]. cbn. now rewrite app_nil_r.
Qed.

#[local] Hint Resolve total_ret total_w_Write total_WithField
  total_WithField_in_place total_Pool_Put : total.

Lemma total_writeTo_fields_message (entry : entryStd) :
  working entry ->
  total_to (fun _ => True) (writeTo_fields_message entry).
Proof.
  intros Hlo. unfold writeTo_fields_message.
  apply total_bind with (P := working).
  { apply total_if; [|now apply total_ret].
    destruct (logFormatNameFileLine (depth entry)) as [[name file] line].
    apply total_bind with (P := working); [auto with total|intros e1 He1].
    apply total_bind with (P := working); [auto with total|intros e2 He2].
    auto with total. }
  intros e1 _. apply total_bind with (P := fun _ => True).
  { apply total_if;
      repeat (apply total_bind with (P := fun _ => True);
              [auto with total|intros ? _]); auto with total. }
  intros e2 _. apply total_if;
    repeat (apply total_bind with (P := fun _ => True);
            [auto with total|intros ? _]); auto with total.
Qed.

(** [writeTo] writes the opening, the clock formatted with the pattern of
    the entry, and the name of the level of the entry; the fields and
    the message follow. *)
Lemma writeTo_header (entry : entryStd) (log : loggerStd Recorder)
    (world : World) :
  0 <= level entry < 5 ->
  writeTo entry (log, world)
  = writeTo_fields_message entry
      (set_log_Writer
         (log_Writer log
            ++ [part1; Format (now world) (timeformat entry); part2;
                nth (Z.to_nat (level entry)) levels []]) log,
       world).
Proof.
  intros Hl. unfold writeTo.
  rewrite (bind_Ret _ _ _ _ _ (w_Write_recorded _ _ _)).
  unfold in_world at 1, time_Now at 1, bind at 1.
  rewrite (bind_Ret _ _ _ _ _ (w_Write_recorded _ _ _)).
  rewrite (bind_Ret _ _ _ _ _ (w_Write_recorded _ _ _)).
  unfold level_name.
  replace ((0 <=? level entry) && (level entry <? Z.of_nat (length levels)))
    with true
    by (symmetry; apply andb_true_intro; split;
        [apply Z.leb_le|apply Z.ltb_lt]; cbn; lia).
  unfold ret at 1, bind at 1.
  rewrite (bind_Ret _ _ _ _ _ (w_Write_recorded _ _ _)).
  cbn [set_log_Writer log_Writer Level TimeFormat Pool logdepath].
  rewrite <- !app_assoc. reflexivity.
Qed.

(** [putEntry] of a working entry with a level in range returns, and the writer
    has received a line that begins as [writeTo_header] says. *)
Lemma putEntry_recorded (entry : entryStd) (log : loggerStd Recorder)
    (world : World) :
  working entry ->
  0 <= level entry < 5 ->
  exists log' rest,
    putEntry entry (log, world) = Ret (tt, (log', world))
    /\ log_Writer log'
       = log_Writer log
           ++ [part1; Format (now world) (timeformat entry); part2;
               nth (Z.to_nat (level entry)) levels []] ++ rest.
Proof.
  intros Hlo Hl. unfold putEntry.
  destruct (total_writeTo_fields_message entry Hlo
              (set_log_Writer
                 (log_Writer log
                    ++ [part1; Format (now world) (timeformat entry); part2;
                        nth (Z.to_nat (level entry)) levels []]) log) world)
    as (e1 & log1 & tr & Hw & Htr & _).
  rewrite <- (writeTo_header entry log world Hl) in Hw.
  rewrite (bind_Ret _ _ _ _ _ Hw).
  exists (set_Pool (e1 :: Pool log1) log1), tr. split; [reflexivity|].
  cbn [set_Pool log_Writer]. rewrite Htr. cbn [set_log_Writer log_Writer].
  now rewrite <- app_assoc.
Qed.

(** A call that passes the filter, or that is not filtered, renders a
    line with the name of its level. *)
Lemma call_recorded (m : method) (format : gostring) (args : list Value)
    (entry : entryStd) (log : loggerStd Recorder) (world : World) :
  fork_fits log entry ->
  pool_working log ->
  m <> MDebug ->
  is_fatal m = true \/ threshold log entry <= severity m ->
  exists log' ts rest,
    call m format args entry (log, world) = Ret (tt, (log', world))
    /\ log_Writer log'
       = log_Writer log
           ++ [part1; ts; part2; nth (Z.to_nat (severity m)) levels []] ++ rest.
Proof.
  intros Hfit Hpool Hd Hpass.
  destruct (fork_if_logout_spec entry log world Hfit)
    as (e' & log1 & Hf & Hl & Hlo & Hw & _ & _).
  assert (Hwork : working e').
  { unfold working. rewrite Hlo. destruct (logout entry); [|reflexivity].
    now apply next_entry_working. }
  destruct m; try congruence; cbn [call severity is_fatal] in *;
    unfold Info, Warning, Error, Fatal, Debugf, Infof, Warningf, Errorf, Fatalf;
    rewrite (bind_Ret _ _ _ _ _ Hf), ?Hl;
    try match goal with
        | |- context [(?a <? ?b)] =>
          destruct (Z.ltb_spec a b);
            [|exfalso; destruct Hpass as [Hp|Hp]; [discriminate Hp|lia]]
        end;
    match goal with
    | |- context [putEntry ?e] =>
      destruct (putEntry_recorded e log1 world) as (log' & rest & Hp & Htr);
        [exact Hwork|cbn; lia|];
        exists log', (Format (now world) (timeformat e)), rest;
        split; [exact Hp|]; rewrite Htr, Hw; reflexivity
    end.
Qed.


(** C5 (the code against the claim). A call of Warning or Warningf that
    passes the threshold renders a line whose level is the third name of
    the table [levels], which is spelled WARIRNG and is not WARNING.  A
    call on a template forks it first: the buffer of the template fits
    the entry that the pool gives, a working entry. *)
Theorem warning_level_name (m : method) (format : gostring)
    (args : list Value) (entry : entryStd) (log : loggerStd Recorder)
    (world : World) :
  fork_fits log entry ->
  pool_working log ->
  severity m = 2 ->
  threshold log entry <= 2 ->
  (exists log' ts rest,
      call m format args entry (log, world) = Ret (tt, (log', world))
      /\ log_Writer log'
         = log_Writer log ++ [part1; ts; part2; str "WARIRNG"] ++ rest)
  /\ str "WARIRNG" <> str "WARNING".
Proof.
  intros Hfit Hpool Hm Hpass. split; [|discriminate].
  destruct (call_recorded m format args entry log world Hfit Hpool)
    as (log' & ts & rest & Hc & Htr).
  - intros ->. discriminate Hm.
  - right. lia.
  - exists log', ts, rest. split; [exact Hc|]. rewrite Htr, Hm. reflexivity.
Qed.

(** C3 (the code against the claim). [WithField] with the key time and a
    [time.Time] stores the value in the field [time] of the entry, and
    that is all: the line rendered afterwards carries the reading of the
    clock at the time of rendering, whatever the value stored. *)
Theorem time_field_not_rendered (t : Time) (args : list Value)
    (entry : entryStd) (log : loggerStd Recorder) (world : World) :
  logout entry = false ->
  level entry < 2 ->
  WithField (str "time") (VTime t) entry (log, world)
  = Ret (set_time t entry, (log, world))
  /\ exists log' rest,
      Info args (set_time t entry) (log, world) = Ret (tt, (log', world))
      /\ log_Writer log'
         = log_Writer log
             ++ [part1; Format (now world) (timeformat entry); part2; str "INFO"]
             ++ rest.
Proof.
  intros Hlo Hl. split.
  - unfold WithField, fork_if_logout. rewrite Hlo. reflexivity.
  - unfold Info, fork_if_logout. cbn [set_time logout]. rewrite Hlo.
    unfold ret at 1, bind at 1. cbn [set_time level].
    destruct (Z.ltb_spec (level entry) 2) as [_|]; [|lia].
    match goal with
    | |- context [putEntry ?e] =>
      destruct (putEntry_recorded e log world) as (log' & rest & Hp & Htr);
        [exact Hlo|cbn; lia|]
    end.
    exists log', rest. split; [exact Hp|]. rewrite Htr. reflexivity.
Qed.

End Rendering.

(** * The writers *)

Section WriterFacts.
Context `{GoLib}.

(** C10. With an empty name, [NewLoggerWriterRotate] returns the writer
    of standard output and no error, whatever the flag, the maximal size
    and the callbacks, through the case of the empty name of
    [NewLoggerWriterFile]; nothing is opened.  [Format] is assumed to
    render the empty layout as the empty string, as [time.Time.Format]
    does. *)
Theorem NewLoggerWriterRotate_empty_name (fuel : nat) (std : bool)
    (maxsize : Z) (fn : list (gostring -> World -> World)) (world : World) :
  (forall t : Time, Format t [] = []) ->
  NewLoggerWriterFile [] std world = Ret ((Some LWStd, None), world)
  /\ NewLoggerWriterRotate fuel [] std maxsize fn world
     = Ret ((Some LWStd, None), world).
Proof.
  intros HF. split; [reflexivity|].
  unfold NewLoggerWriterRotate.
  change (Index [] (str "index") =? -1) with true. cbv iota.
  change (0 <=? 0) with true. cbv iota.
  unfold formatDateName, time_Now, bind at 1 2, ret at 1.
  change (Replace (Replace (Replace (Replace (Replace [] (str "yyyy")
            (str "2006") 1) (str "yy") (str "06") 1) (str "MM") (str "01") 1)
            (str "dd") (str "02") 1) (str "HH") (str "15") 1) with (@nil byte).
  rewrite HF. reflexivity.
Qed.

(** ** Writes that do not rotate *)

(** A [Write] of anything but the opening of a line, while the clock has
    not passed the next hour, goes to the current file: the rotation by
    size is tried at the opening of a line only. *)
Lemma rotate_Write_without_rotation (fuel : nat) (p : list byte)
    (w : syncWriterRotate) (f : File) (world : World) :
  p <> part1 ->
  (nexttime w <? now world) = false ->
  Writer w = Some f ->
  exists world',
    rotate_Write fuel p (w, world)
    = Ret ((Z.of_nat (length p), None),
           (set_nbytes (wrap_uint64 (nbytes w + Z.of_nat (length p))) w,
            world'))
    /\ files world'
       = <[Name f := default [] (files world !! Name f) ++ p]> (files world).
Proof.
  intros Hp Ht HW. unfold rotate_Write. mstep.
  rewrite (bool_decide_eq_false_2 _ Hp), andb_false_r. mstep.
  rewrite Ht. mstep. rewrite HW. mstep.
  destruct (std w); mstep; eexists; (split; [reflexivity|]); reflexivity.
Qed.

(** ** Rotation that cannot open a file *)



End WriterFacts.

(** * More on the encoder *)

Lemma join_snoc_sep (sep : byte) (ps : list (list byte)) :
  ps <> [] ->
  concat (map (fun p => p ++ [sep]) ps) = join sep ps ++ [sep].
Proof.
  induction ps as [|p ps IH]; [congruence|]. intros _.
  destruct ps as [|q ps]; [cbn; now rewrite app_nil_r|].
  change (concat (map (fun p => p ++ [sep]) (p :: q :: ps)))
    with ((p ++ [sep]) ++ concat (map (fun p => p ++ [sep]) (q :: ps))).
  rewrite IH by discriminate.
  change (join sep (p :: q :: ps)) with (p ++ sep :: join sep (q :: ps)).
  now rewrite <- !app_assoc.
Qed.

Section ExtraEncoderFacts.
Context `{GoLib}.

Lemma slice_loop_concat (l : list Value) (data : list byte) :
  slice_loop l data
  = data ++ concat (map (fun p => p ++ [comma])
                        (map (fun v => writeReflect v []) l)).
Proof.
  revert data. induction l as [|x l IH]; intros data; cbn [slice_loop map concat].
  - now rewrite app_nil_r.
  - rewrite IH, (writeReflect_app x data). now rewrite <- !app_assoc.
Qed.

Lemma map_loop_concat (l : list (Value * Value)) (data : list byte) :
  map_loop l data
  = data ++ concat (map (fun p => p ++ [comma]) (map map_member l)).
Proof.
  revert data. induction l as [|[k v] l IH]; intros data;
    cbn [map_loop map concat].
  - now rewrite app_nil_r.
  - rewrite IH, (writeReflect_app v), (writeReflect_app k data).
    unfold map_member. cbn [fst snd]. now rewrite <- !app_assoc.
Qed.

Lemma struct_loop_concat (l : list (gostring * bool * Value))
    (data : list byte) :
  struct_loop l data
  = data ++ concat (map (fun p => p ++ [comma])
                        (map struct_member (visible_fields l))).
Proof.
  revert data. induction l as [|[[n c] v] l IH]; intros data;
    cbn [struct_loop visible_fields List.filter fst snd].
  - now rewrite app_nil_r.
  - destruct c; cbn [map concat]; [|apply IH].
    fold (visible_fields l).
    rewrite IH, (writeReflect_app v), (writeString_app n data).
    unfold struct_member. cbn [fst snd]. now rewrite <- !app_assoc.
Qed.

Lemma set_last_members (d : list byte) (open close : byte)
    (ps : list (list byte)) :
  ps <> [] ->
  set_last ((d ++ [open]) ++ concat (map (fun p => p ++ [comma]) ps)) close
  = d ++ open :: join comma ps ++ [close].
Proof.
  intros Hps. rewrite join_snoc_sep by exact Hps.
  rewrite app_assoc, set_last_snoc. now rewrite <- !app_assoc.
Qed.

(** X1. A slice or array is encoded, after what the buffer holds, as an
    opening bracket, the encodings of its elements in order separated by
    commas with no comma after the last, and a closing bracket; the empty
    one as the two brackets. *)
Theorem writeReflect_slice (elems : list Value) (data : list byte) :
  writeReflect (VSlice elems) data
  = data ++ bracketed (map (fun v => writeReflect v []) elems).
Proof.
  rewrite writeReflect_VSlice, slice_loop_concat. unfold bracketed.
  destruct elems as [|x l].
  - cbn [length Nat.eqb map concat join app]. rewrite app_nil_r.
    rewrite set_last_snoc. now rewrite <- app_assoc.
  - change (length (x :: l) =? 0)%nat with false. cbv iota.
    now rewrite set_last_members by discriminate.
Qed.

(** X2. A map is encoded as the pairs key, colon, value in the order
    of its keys, separated by commas, between braces; every key goes
    through the encoder like any value, so that a string key is quoted
    and an integer key is a bare number. *)
Theorem writeReflect_map (entries : list (Value * Value)) (data : list byte) :
  writeReflect (VMap entries) data = data ++ braced (map map_member entries).
Proof.
  rewrite writeReflect_VMap, map_loop_concat. unfold braced.
  destruct entries as [|kv l].
  - cbn [map concat]. rewrite app_nil_r. apply set_last_snoc.
  - now rewrite set_last_members by discriminate.
Qed.

(** X3. A struct is encoded from the fields that are visible from
    outside only, in the order of declaration: the name of the field as
    the escaper writes it, a colon, the value; the fields that are not
    visible leave no trace, wherever they stand. *)
Theorem writeReflect_struct (fields : list (gostring * bool * Value))
    (data : list byte) :
  writeReflect (VStruct fields) data
  = data ++ braced (map struct_member (visible_fields fields)).
Proof.
  rewrite writeReflect_VStruct, struct_loop_concat. unfold braced.
  destruct (visible_fields fields) as [|f l].
  - cbn [map concat]. rewrite app_nil_r. apply set_last_snoc.
  - now rewrite set_last_members by discriminate.
Qed.

(** X4. Whatever the value, the encoder leaves the bytes that the buffer
    holds as they are: what it writes for a value does not depend on the
    buffer and comes after it.  The rewrite of the last byte by the
    container cases never reaches back into the fields written before. *)
Theorem writeReflect_keeps_buffer (v : Value) (data : list byte) :
  writeReflect v data = data ++ writeReflect v []
  /\ take (length data) (writeReflect v data) = data.
Proof.
  rewrite (writeReflect_app v data). split; [reflexivity|].
  now rewrite take_app_length.
Qed.

End ExtraEncoderFacts.

(** * More on entries *)

Lemma set_depth_same (e : entryStd) : set_depth (depth e) e = e.
Proof. now destruct e. Qed.

Lemma wrap_int_small (z : Z) : - 2 ^ 63 <= z < 2 ^ 63 -> wrap_int z = z.
Proof.
  intros Hz. unfold wrap_int.
  rewrite Z.mod_small by lia. lia.
Qed.

Section ExtraEntry.
Context `{GoLib} {W : Type} `{LoggerWriter W}.

(** The buffer and its capacity set one after the other. *)
Lemma set_datacap_set_data (c c' : Z) (d d' : list byte) (e : entryStd) :
  set_datacap c' (set_data d' (set_datacap c (set_data d e)))
  = set_datacap c' (set_data d' e).
Proof. reflexivity. Qed.

Lemma set_datacap_data_same (e : entryStd) :
  set_datacap (datacap e) (set_data (data e) e) = e.
Proof. now destruct e. Qed.

(** An append never takes capacity away. *)
Lemma append_data_cap (d : list byte) (e : entryStd) :
  growslice_fits -> datacap e <= datacap (append_data d e).
Proof.
  intros Hg. unfold append_data. cbn [datacap set_datacap set_data].
  destruct (Z.leb_spec (Z.of_nat (length d)) (datacap e)) as [|Hlt]; [lia|].
  pose proof (Hg _ _ Hlt). lia.
Qed.

Lemma append_field_cap (key : gostring) (value : Value) (entry : entryStd) :
  growslice_fits -> datacap entry <= datacap (append_field key value entry).
Proof.
  intros Hg. unfold append_field.
  repeat (etransitivity; [|apply append_data_cap; exact Hg]).
  apply Z.le_refl.
Qed.

(** The five appends of [WithField]: the field goes into the buffer, and
    the capacity follows the growth of the buffer. *)
Lemma append_field_spec (key : gostring) (value : Value) (entry : entryStd) :
  exists c,
    append_field key value entry
    = set_datacap c (set_data (data entry ++ field_bytes key value) entry)
    /\ (growslice_fits -> datacap entry <= c).
Proof.
  assert (Happ :
    WriteValue value (((data entry ++ [quote]) ++ key) ++ [quote; colon])
      ++ [comma]
    = data entry ++ field_bytes key value).
  { unfold WriteValue, field_bytes. rewrite (writeReflect_app value).
    now rewrite <- !app_assoc. }
  assert (Heq : exists c,
    append_field key value entry
    = set_datacap c (set_data (data entry ++ field_bytes key value) entry)).
  { destruct entry as [l t m d c0 tf dp lo]. cbn [data] in *.
    cbv beta iota zeta delta
      [append_field append_data set_data set_datacap data datacap level time
       message timeformat depth logout].
    rewrite Happ. eexists. reflexivity. }
  destruct Heq as (c & Heq). exists c. split; [exact Heq|].
  intros Hg. pose proof (append_field_cap key value entry Hg) as Hc.
  rewrite Heq in Hc. exact Hc.
Qed.

(** X5. [WithField] on a working entry never fails and touches neither
    the logger nor the writer.  For a control (depth with an int or a
    string, time with a time) the buffer of the fields is left as it is;
    for any other key and value, among them depth or time with a value
    of another type, it appends the key between quotes, written as it is
    without escaping, a colon, the value encoded and a comma.  The level,
    the message and the format of the time are not changed. *)
Theorem WithField_data (key : gostring) (value : Value) (entry : entryStd)
    (log : loggerStd W) (world : World) :
  logout entry = false ->
  exists e',
    WithField key value entry (log, world) = Ret (e', (log, world))
    /\ data e' = (if is_control key value then data entry
                  else data entry ++ field_bytes key value)
    /\ level e' = level entry /\ message e' = message entry
    /\ timeformat e' = timeformat entry /\ logout e' = false.
Proof.
  intros Hlo.
  destruct (append_field_spec key value entry) as (c & Haf & _).
  unfold WithField, fork_if_logout, is_control. rewrite Hlo.
  unfold ret at 1, bind at 1. rewrite Haf.
  destruct (bool_decide (key = str "depth")); cbn [andb orb negb].
  - destruct value as [| | | | | |[] ?| | | | | | | | |];
      cbn [andb orb negb];
      repeat match goal with
             | |- context [if ?c then _ else _] => destruct c
             end;
      eexists; (split; [reflexivity|]);
      cbn [data level message timeformat logout
           set_data set_datacap set_depth set_time];
      repeat split; first [reflexivity|exact Hlo].
  - destruct (bool_decide (key = str "time")); cbn [andb orb negb];
      destruct value; cbn [andb orb negb];
      eexists; (split; [reflexivity|]);
      cbn [data level message timeformat logout
           set_data set_datacap set_depth set_time];
      repeat split; first [reflexivity|exact Hlo].
Qed.

(** A field that is not a control goes into the buffer; the capacity
    follows the growth of the buffer. *)
Lemma WithField_ordinary (key : gostring) (value : Value) (entry : entryStd)
    (st : loggerStd W * World) :
  logout entry = false ->
  is_control key value = false ->
  exists c,
    WithField key value entry st
    = Ret (set_datacap c
             (set_data (data entry ++ field_bytes key value) entry), st)
    /\ (growslice_fits -> datacap entry <= c).
Proof.
  intros Hlo Hc.
  destruct (append_field_spec key value entry) as (c & Haf & Hcap).
  exists c. split; [|exact Hcap]. unfold WithField, fork_if_logout.
  rewrite Hlo. unfold ret at 1, bind at 1. rewrite Haf.
  unfold is_control in Hc.
  destruct (bool_decide (key = str "depth")); cbn [andb orb negb] in Hc.
  - destruct value as [| | | | | |[] ?| | | | | | | | |];
      try discriminate Hc; reflexivity.
  - destruct (bool_decide (key = str "time")); cbn [andb orb negb] in Hc;
      destruct value; try discriminate Hc; reflexivity.
Qed.

Lemma WithField_in_place_ordinary (key : gostring) (value : Value)
    (entry : entryStd) (st : loggerStd W * World) :
  logout entry = false ->
  is_control key value = false ->
  exists c,
    WithField_in_place key value entry st
    = Ret (set_datacap c
             (set_data (data entry ++ field_bytes key value) entry), st)
    /\ (growslice_fits -> datacap entry <= c).
Proof.
  intros Hlo Hc. unfold WithField_in_place.
  destruct (WithField_ordinary key value entry st Hlo Hc) as (c & Hw & Hcap).
  exists c. split; [|exact Hcap].
  rewrite (bind_Ret _ _ _ _ _ Hw). now rewrite Hlo.
Qed.

(** X6. The two switches of the capture of the caller undo each other
    and do not add up: on a working entry whose depth is that of a logger
    without capture, moved by less than 0x40, enabling adds 0x40 to the
    depth, enabling once more changes nothing, and disabling after
    enabling gives the entry back as it was. *)
Theorem depth_enable_disable (entry : entryStd) (log : loggerStd W)
    (world : World) :
  logout entry = false ->
  - 0x40 < depth entry < 0 ->
  WithField (str "depth") (VString (str "enable")) entry (log, world)
  = Ret (set_depth (depth entry + 0x40) entry, (log, world))
  /\ (e <- WithField (str "depth") (VString (str "enable")) entry ;;
      WithField (str "depth") (VString (str "enable")) e) (log, world)
     = Ret (set_depth (depth entry + 0x40) entry, (log, world))
  /\ (e <- WithField (str "depth") (VString (str "enable")) entry ;;
      WithField (str "depth") (VString (str "disable")) e) (log, world)
     = Ret (entry, (log, world)).
Proof.
  intros Hlo Hd.
  assert (Hen : forall e (st : loggerStd W * World),
    logout e = false -> - 0x40 < depth e < 0 ->
    WithField (str "depth") (VString (str "enable")) e st
    = Ret (set_depth (depth e + 0x40) e, st)).
  { intros e st He Hde. unfold WithField, fork_if_logout. rewrite He.
    unfold ret at 1, bind at 1. cbv zeta.
    change (bool_decide (str "depth" = str "depth")) with true. cbv iota.
    change (bool_decide (str "enable" = str "enable")) with true.
    change (bool_decide (str "enable" = str "disable")) with false.
    cbn [andb].
    destruct (Z.ltb_spec (depth e) 0); [|lia].
    rewrite wrap_int_small by lia. reflexivity. }
  split; [now apply Hen|]. split.
  - rewrite (bind_Ret _ _ _ _ _ (Hen _ _ Hlo Hd)).
    unfold WithField, fork_if_logout. cbn [logout set_depth]. rewrite Hlo.
    unfold ret at 1, bind at 1. cbv zeta.
    change (bool_decide (str "depth" = str "depth")) with true. cbv iota.
    change (bool_decide (str "enable" = str "enable")) with true.
    change (bool_decide (str "enable" = str "disable")) with false.
    cbn [andb depth set_depth].
    destruct (Z.ltb_spec (depth entry + 64) 0); [lia|]. reflexivity.
  - rewrite (bind_Ret _ _ _ _ _ (Hen _ _ Hlo Hd)).
    unfold WithField, fork_if_logout. cbn [logout set_depth]. rewrite Hlo.
    unfold ret at 1, bind at 1. cbv zeta.
    change (bool_decide (str "depth" = str "depth")) with true. cbv iota.
    change (bool_decide (str "disable" = str "enable")) with false.
    change (bool_decide (str "disable" = str "disable")) with true.
    cbn [andb depth set_depth].
    destruct (Z.ltb_spec 0 (depth entry + 64)); [|lia].
    rewrite wrap_int_small by lia.
    replace (depth entry + 64 - 64) with (depth entry) by lia.
    destruct entry; reflexivity.
Qed.

Lemma set_data_same (e : entryStd) : set_data (data e) e = e.
Proof. now destruct e. Qed.

(** The fields of a map that holds no control go into the buffer one
    after the other, in the order of the [range]. *)
Lemma WithFields_ordinary (kvs : list (gostring * Value)) (entry : entryStd)
    (st : loggerStd W * World) :
  logout entry = false ->
  Forall (fun kv => is_control kv.1 kv.2 = false) kvs ->
  exists c,
    WithFields (Some kvs) entry st
    = Ret (set_datacap c
             (set_data (data entry
                          ++ concat (map (fun kv => field_bytes kv.1 kv.2) kvs))
                       entry), st).
Proof.
  intros Hlo Hall. unfold WithFields, fork_if_logout. rewrite Hlo.
  unfold ret at 1, bind at 1.
  assert (Hfold : forall (c : M (loggerStd W * World) entryStd) c0 d,
    c st = Ret (set_datacap c0 (set_data (data entry ++ d) entry), st) ->
    exists c1,
      fold_left (fun (c : M (loggerStd W * World) entryStd) '(k, v) =>
                   entry <- c ;; WithField_in_place k v entry) kvs c st
      = Ret (set_datacap c1
               (set_data (data entry
                            ++ d
                            ++ concat (map (fun kv => field_bytes kv.1 kv.2)
                                         kvs))
                         entry), st)).
  { induction Hall as [|[k v] l Hkv _ IH]; intros c c0 d Hc; cbn [fold_left].
    - exists c0. cbn [map concat]. now rewrite app_nil_r.
    - destruct (WithField_in_place_ordinary k v
                  (set_datacap c0 (set_data (data entry ++ d) entry)) st
                  Hlo Hkv) as (c1 & Hw & _).
      destruct (IH (entry <- c ;; WithField_in_place k v entry) c1
                  (d ++ field_bytes k v)) as (c2 & Hf).
      + rewrite (bind_Ret _ _ _ _ _ Hc), Hw.
        cbn [data set_data set_datacap].
        now rewrite set_datacap_set_data, <- !app_assoc.
      + exists c2. rewrite Hf. cbn [map concat fst snd].
        now rewrite <- !app_assoc. }
  destruct (Hfold (ret entry) (datacap entry) []) as (c & Hf).
  - unfold ret. now rewrite app_nil_r, set_datacap_data_same.
  - exists c. rewrite Hf. reflexivity.
Qed.

End ExtraEntry.

(** ** The line of an entry *)

Section ExtraRendering.
Context `{GoLib}.

Lemma rendered_app (tr1 tr2 : Recorder) :
  rendered (tr1 ++ tr2) = rendered tr1 ++ rendered tr2.
Proof. apply concat_app. Qed.

(** The fields of the caller go into the buffer of the entry. *)
Lemma capture_caller (entry : entryStd) (st : loggerStd Recorder * World) :
  logout entry = false ->
  exists c,
    (if 0 <? depth entry then
       let '(name, file, line) := logFormatNameFileLine (depth entry) in
       entry <- WithField_in_place (str "name") (VString name) entry ;;
       entry <- WithField_in_place (str "file") (VString file) entry ;;
       WithField_in_place (str "line") (VInt KInt line) entry
     else ret entry) st
    = Ret (set_datacap c (set_data (render_data entry) entry), st)
    /\ (growslice_fits -> datacap entry <= c).
Proof.
  intros Hlo. unfold render_data, caller_fields.
  destruct (0 <? depth entry).
  - destruct (logFormatNameFileLine (depth entry)) as [[name file] line].
    destruct (WithField_in_place_ordinary (str "name") (VString name)
                entry st Hlo eq_refl) as (c1 & H1 & Hc1).
    rewrite (bind_Ret _ _ _ _ _ H1).
    set (e1 := set_datacap c1 _).
    destruct (WithField_in_place_ordinary (str "file") (VString file)
                e1 st Hlo eq_refl) as (c2 & H2 & Hc2).
    rewrite (bind_Ret _ _ _ _ _ H2).
    set (e2 := set_datacap c2 _).
    destruct (WithField_in_place_ordinary (str "line") (VInt KInt line)
                e2 st Hlo eq_refl) as (c3 & H3 & Hc3).
    exists c3. split.
    + rewrite H3. subst e2 e1. cbn [data set_data set_datacap].
      now rewrite !set_datacap_set_data, <- !app_assoc.
    + intros Hg. specialize (Hc1 Hg). specialize (Hc2 Hg).
      specialize (Hc3 Hg). subst e2 e1.
      cbn [datacap set_datacap set_data] in *. lia.
  - exists (datacap entry). split; [|lia].
    unfold ret. now rewrite set_datacap_data_same.
Qed.

(** The capacity after the message has gone through the buffer. *)
Lemma append_data_cap_from (c0 : Z) (d : list byte) (e : entryStd) :
  growslice_fits -> c0 <= datacap e -> c0 <= datacap (append_data d e).
Proof.
  intros Hg Hc. pose proof (append_data_cap d e Hg). lia.
Qed.

Lemma writeTo_fields_message_line (entry : entryStd)
    (log : loggerStd Recorder) (world : World) :
  logout entry = false ->
  fields_buffer (render_data entry) ->
  exists e' log',
    writeTo_fields_message entry (log, world) = Ret (e', (log', world))
    /\ rendered (log_Writer log')
       = rendered (log_Writer log)
           ++ (match render_data entry with
               | [] => part4
               | d => part3 ++ set_last d rbrace
               end)
           ++ (match message entry with
               | [] => part7
               | m => part5 ++ writeString m [] ++ part6
               end)
    /\ data e' = [] /\ logout e' = false
    /\ Pool log' = Pool log /\ Level log' = Level log
    /\ (growslice_fits -> datacap entry <= datacap e').
Proof.
  intros Hlo Hbuf. unfold writeTo_fields_message.
  destruct (capture_caller entry (log, world) Hlo) as (c0 & Hcap & Hc0).
  rewrite (bind_Ret _ _ _ _ _ Hcap).
  unfold fields_buffer in Hbuf.
  destruct (render_data entry) as [|c1 [|c2 d]] eqn:Hd;
    [| cbn in Hbuf; congruence |];
    destruct (message entry) as [|m0 m] eqn:Hm; rstep; rewrite ?Hm; rstep;
    eexists _, _; (split; [reflexivity|]); rstep;
    rewrite !rendered_app; unfold rendered; cbn [concat];
    rewrite ?app_nil_r, <- ?app_assoc; repeat split; try reflexivity;
    try exact Hlo;
    intros Hg; specialize (Hc0 Hg);
    repeat match goal with
           | |- context [(?a <=? ?b)] =>
             let Hlt := fresh "Hlt" in
             destruct (Z.leb_spec a b) as [|Hlt];
               [|pose proof (Hg _ _ Hlt)]
           end; lia.
Qed.

End ExtraRendering.

(** ** Forks and the pool *)

Section ExtraFork.
Context `{GoLib} {W : Type} `{LoggerWriter W}.

Lemma getEntry_clean (entry : entryStd) (log : loggerStd W) (world : World) :
  pool_clean log ->
  fits entry (next_entry log) ->
  exists e' log',
    getEntry entry (log, world) = Ret (e', (log', world))
    /\ level e' = Level log /\ time e' = now world
    /\ data e' = data entry /\ depth e' = depth entry
    /\ logout e' = false /\ timeformat e' = fork_timeformat log
    /\ datacap e' = datacap (next_entry log)
    /\ log_Writer log' = log_Writer log /\ Level log' = Level log
    /\ Pool log' = tail (Pool log) /\ pool_clean log'.
Proof.
  unfold pool_clean, fork_timeformat, fits. intros Hpool Hfit.
  rewrite getEntry_eq.
  assert (Hnext : data (next_entry log) = [] /\ logout (next_entry log) = false
                  /\ timeformat (next_entry log)
                     = match Pool log with
                       | [] => TimeFormat log
                       | e :: _ => timeformat e
                       end).
  { unfold next_entry. destruct (Pool log) as [|e pool]; [now repeat split|].
    apply Forall_cons_1 in Hpool as [[He1 He2] _]. now repeat split. }
  destruct Hnext as (Hn1 & Hn2 & Hn3).
  assert (Hpop : log_Writer (popped log) = log_Writer log
                 /\ Level (popped log) = Level log
                 /\ Pool (popped log) = tail (Pool log)
                 /\ Forall (fun e => data e = [] /\ logout e = false)
                      (Pool (popped log))).
  { unfold popped. destruct (Pool log) as [|e pool] eqn:Hp.
    - rewrite Hp. now repeat split.
    - apply Forall_cons_1 in Hpool as [_ Hpool]. now repeat split. }
  destruct Hpop as (Hp1 & Hp2 & Hp3 & Hp4).
  destruct (data entry) as [|c d] eqn:Hd.
  - eexists _, _. split; [reflexivity|].
    unfold forked. cbn [level time data depth logout timeformat datacap
                        set_depth set_level set_time].
    now repeat split.
  - destruct Hfit as [Hfit|Hfit]; [discriminate Hfit|].
    destruct (Z.leb_spec (Z.of_nat (length (c :: d)))
                (datacap (next_entry log))); [|lia].
    eexists _, _. split; [reflexivity|].
    unfold forked. cbn [level time data depth logout timeformat datacap
                        set_data set_depth set_level set_time].
    now repeat split.
Qed.

(** X7. A fork copies its template: as long as the entries of the pool
    hold no fields and are not templates, and the buffer of the template
    is within the capacity of the buffer of the entry that the pool
    gives, the entry that [getEntry] returns carries the fields and the
    depth of the entry it is forked from, the level of the logger and
    the reading of the clock, and is not a template; its buffer has the
    capacity it had in the pool; the writer is not touched and the pool
    stays as required.  The copy of the fields is skipped when the
    template has none, so an entry of the pool that still held fields
    would pass them on. *)
Theorem getEntry_copies_template (entry : entryStd) (log : loggerStd W)
    (world : World) :
  pool_clean log ->
  fits entry (next_entry log) ->
  exists e' log',
    getEntry entry (log, world) = Ret (e', (log', world))
    /\ data e' = data entry /\ depth e' = depth entry
    /\ level e' = Level log /\ time e' = now world /\ logout e' = false
    /\ datacap e' = datacap (next_entry log)
    /\ log_Writer log' = log_Writer log /\ pool_clean log'.
Proof.
  intros Hpool Hfit.
  destruct (getEntry_clean entry log world Hpool Hfit)
    as (e' & log' & Hg & ? & ? & ? & ? & ? & ? & ? & ? & ? & ? & ?).
  exists e', log'. repeat split; assumption.
Qed.

(** X20. A buffer beyond the capacity.  When the buffer of an entry is
    longer than the capacity of the buffer of the entry that the pool
    gives (2048 bytes for a new one), the reslice of [getEntry] is out of
    range: [getEntry] panics, and so does [WithFields] with the nil map;
    if the entry is a template, every logging call on it panics, Fatal
    included, and so do [WithField] and [WithFields], before anything is
    written. *)
Theorem fork_beyond_capacity (entry : entryStd) (log : loggerStd W)
    (world : World) :
  data entry <> [] ->
  datacap (next_entry log) < Z.of_nat (length (data entry)) ->
  getEntry entry (log, world) = Panic
  /\ WithFields None entry (log, world) = Panic
  /\ (logout entry = true ->
      (forall m format args, call m format args entry (log, world) = Panic)
      /\ (forall key value, WithField key value entry (log, world) = Panic)
      /\ (forall kvs, WithFields (Some kvs) entry (log, world) = Panic)).
Proof.
  intros Hne Hcap.
  pose proof (getEntry_panics entry log world Hcap Hne) as Hg.
  split; [exact Hg|]. split.
  - unfold WithFields, bind. now rewrite Hg.
  - intros Hlo. split; [|split].
    + intros m format args.
      destruct m; cbn [call];
        unfold Debug, Info, Warning, Error, Fatal,
          Debugf, Infof, Warningf, Errorf, Fatalf, fork_if_logout;
        rewrite Hlo; unfold bind at 1; now rewrite Hg.
    + intros key value. unfold WithField, fork_if_logout. rewrite Hlo.
      unfold bind at 1. now rewrite Hg.
    + intros kvs. unfold WithFields, fork_if_logout. rewrite Hlo.
      unfold bind at 1. now rewrite Hg.
Qed.

End ExtraFork.

Section ExtraLines.
Context `{GoLib}.

(** The entry the pool gives has the capacity of a new one, at least. *)
Lemma next_entry_roomy {W : Type} (log : loggerStd W) :
  pool_roomy log -> 2048 <= datacap (next_entry log).
Proof.
  unfold pool_roomy, next_entry. intros Hp.
  destruct (Pool log) as [|e pool]; [cbn; lia|].
  now apply Forall_cons_1 in Hp as [He _].
Qed.

Lemma tail_roomy {W : Type} (log log' : loggerStd W) :
  pool_roomy log -> Pool log' = tail (Pool log) -> pool_roomy log'.
Proof.
  unfold pool_roomy. intros Hp ->.
  destruct (Pool log) as [|e pool]; [exact Hp|].
  now apply Forall_cons_1 in Hp as [_ Hp].
Qed.

Lemma fork_clean (entry : entryStd) (log : loggerStd Recorder)
    (world : World) :
  pool_clean log ->
  fork_fits log entry ->
  exists e' log',
    fork_if_logout entry (log, world) = Ret (e', (log', world))
    /\ level e' = threshold log entry
    /\ data e' = data entry /\ depth e' = depth entry /\ logout e' = false
    /\ timeformat e' = (if logout entry then fork_timeformat log
                        else timeformat entry)
    /\ log_Writer log' = log_Writer log /\ Level log' = Level log
    /\ pool_clean log'
    /\ datacap e' = (if logout entry then datacap (next_entry log)
                     else datacap entry)
    /\ Pool log' = (if logout entry then tail (Pool log) else Pool log).
Proof.
  intros Hpool Hfit. unfold fork_if_logout, threshold.
  destruct (logout entry) eqn:Hlo.
  - destruct (getEntry_clean entry log world Hpool (Hfit Hlo))
      as (e' & log' & Hg & ? & ? & ? & ? & ? & ? & ? & ? & ? & ? & ?).
    exists e', log'. repeat split; assumption.
  - exists entry, log. repeat split; auto.
Qed.

Lemma caller_fields_length (d : Z) : (2 <= length (caller_fields d))%nat.
Proof.
  unfold caller_fields. destruct (logFormatNameFileLine d) as [[n f] l].
  unfold field_bytes. rewrite !length_app. cbn [length]. lia.
Qed.

Lemma fields_buffer_render (entry : entryStd) :
  fields_buffer (data entry) -> fields_buffer (render_data entry).
Proof.
  unfold fields_buffer, render_data. intros Hd.
  destruct (0 <? depth entry); [|exact Hd].
  rewrite length_app. pose proof (caller_fields_length (depth entry)). lia.
Qed.

Lemma line_bytes_ext (now : Time) (e1 e2 : entryStd) :
  level e1 = level e2 -> message e1 = message e2 ->
  timeformat e1 = timeformat e2 -> data e1 = data e2 -> depth e1 = depth e2 ->
  line_bytes now e1 = line_bytes now e2.
Proof.
  intros Hl Hm Ht Hd Hp. unfold line_bytes, render_data.
  now rewrite Hl, Hm, Ht, Hd, Hp.
Qed.

(** [putEntry] renders the line of the entry and puts the entry back,
    emptied of its fields, with the capacity it has reached. *)
Lemma putEntry_line (entry : entryStd) (log : loggerStd Recorder)
    (world : World) :
  logout entry = false ->
  0 <= level entry < 5 ->
  fields_buffer (data entry) ->
  pool_clean log ->
  exists log',
    putEntry entry (log, world) = Ret (tt, (log', world))
    /\ rendered (log_Writer log')
       = rendered (log_Writer log) ++ line_bytes (now world) entry
    /\ pool_clean log' /\ Level log' = Level log
    /\ (growslice_fits -> 2048 <= datacap entry -> pool_roomy log ->
        pool_roomy log').
Proof.
  intros Hlo Hl Hbuf Hpool. unfold putEntry.
  destruct (writeTo_fields_message_line entry
              (set_log_Writer
                 (log_Writer log
                    ++ [part1; Format (now world) (timeformat entry); part2;
                        nth (Z.to_nat (level entry)) levels []]) log) world
              Hlo (fields_buffer_render entry Hbuf))
    as (e' & log1 & Hw & Hr & Hd & Hlo' & Hp & HL & Hcap).
  rewrite <- (writeTo_header entry log world Hl) in Hw.
  rewrite (bind_Ret _ _ _ _ _ Hw).
  exists (set_Pool (e' :: Pool log1) log1).
  split; [reflexivity|]. cbn [log_Writer set_Pool Pool Level].
  split; [|split; [|split; [exact HL|]]].
  - rewrite Hr. cbn [log_Writer set_log_Writer]. rewrite rendered_app.
    unfold line_bytes, rendered. cbn [concat]. rewrite app_nil_r.
    now rewrite <- !app_assoc.
  - unfold pool_clean. cbn [Pool set_Pool]. apply Forall_cons_2; [auto|].
    rewrite Hp. exact Hpool.
  - intros Hg Hc Hroom. unfold pool_roomy. cbn [Pool set_Pool].
    apply Forall_cons_2; [specialize (Hcap Hg); lia|].
    rewrite Hp. exact Hroom.
Qed.

(** The line of a call that is not filtered. *)
Lemma call_rendered_line (m : method) (format : gostring) (args : list Value)
    (entry : entryStd) (log : loggerStd Recorder) (world : World) :
  pool_clean log ->
  fork_fits log entry ->
  fields_buffer (data entry) ->
  is_fatal m = true \/ threshold log entry <= severity m ->
  (m = MDebug -> 0 <= threshold log entry) ->
  exists log',
    call m format args entry (log, world) = Ret (tt, (log', world))
    /\ rendered (log_Writer log')
       = rendered (log_Writer log)
           ++ line_bytes (now world) (rendered_entry m format args log entry)
    /\ pool_clean log' /\ Level log' = Level log
    /\ (growslice_fits -> pool_roomy log ->
        (logout entry = false -> 2048 <= datacap entry) ->
        pool_roomy log').
Proof.
  intros Hpool Hfit Hbuf Hpass Hdebug.
  destruct (fork_clean entry log world Hpool Hfit)
    as (e' & log1 & Hf & Hl & Hd & Hp & Hlo & Ht & Hw & HL & Hpool1
        & Hcap & Hpl).
  assert (Hput : forall e2,
    logout e2 = false -> 0 <= level e2 < 5 -> data e2 = data entry ->
    depth e2 = depth entry -> timeformat e2 = timeformat e' ->
    level e2 = level_of m (threshold log entry) ->
    message e2 = message_of m format args ->
    datacap e2 = datacap e' ->
    exists log',
      putEntry e2 (log1, world) = Ret (tt, (log', world))
      /\ rendered (log_Writer log')
         = rendered (log_Writer log)
             ++ line_bytes (now world) (rendered_entry m format args log entry)
      /\ pool_clean log' /\ Level log' = Level log
      /\ (growslice_fits -> pool_roomy log ->
          (logout entry = false -> 2048 <= datacap entry) ->
          pool_roomy log')).
  { intros e2 H1 H2 H3 H4 H5 H6 H7 H8.
    destruct (putEntry_line e2 log1 world H1 H2)
      as (log' & Hpe & Hr & Hc & HL' & Hroom);
      [unfold fields_buffer in *; now rewrite H3|exact Hpool1|].
    exists log'. split; [exact Hpe|].
    split; [|split; [exact Hc|split; [congruence|]]].
    - rewrite Hr, Hw. f_equal. apply line_bytes_ext;
        cbn [rendered_entry level message timeformat data depth];
        unfold threshold in *; congruence.
    - intros Hg Hrm Hwk. apply (Hroom Hg).
      + rewrite H8, Hcap. destruct (logout entry).
        * now apply next_entry_roomy.
        * now apply Hwk.
      + destruct (logout entry).
        * now apply (tail_roomy log).
        * unfold pool_roomy in *. now rewrite Hpl. }
  destruct m; cbn [call severity is_fatal] in *;
    unfold Debug, Info, Warning, Error, Fatal,
      Debugf, Infof, Warningf, Errorf, Fatalf;
    rewrite (bind_Ret _ _ _ _ _ Hf), ?Hl;
    try match goal with
        | |- context [(?a <? ?b)] =>
          destruct (Z.ltb_spec a b);
            [|exfalso; destruct Hpass as [Hq|Hq]; [discriminate Hq|lia]]
        end;
    match goal with
    | |- context [putEntry ?e] => apply (Hput e)
    end;
    cbn [set_message_ln set_message set_level level message data depth
         datacap timeformat logout level_of severity message_of];
    rewrite ?Hl; auto; try lia.
  specialize (Hdebug eq_refl). lia.
Qed.

(** X8. The line of a call.  On a logger whose pool holds no fields,
    for an entry whose buffer is empty or holds fields and, if it is a
    template, fits the entry that the pool gives, a call that is not
    filtered returns, and the writer has received exactly one line
    more: the opening, the clock in the format of the time, the name of
    the level of the call, the object of the fields (those of the entry
    followed, when the caller is captured, by name, file and line) if
    there is any, the message escaped if it is not empty, the closing and
    a newline.  The entry goes back to the pool without its fields. *)
Theorem call_line (m : method) (format : gostring) (args : list Value)
    (entry : entryStd) (log : loggerStd Recorder) (world : World) :
  pool_clean log ->
  fork_fits log entry ->
  fields_buffer (data entry) ->
  is_fatal m = true \/ threshold log entry <= severity m ->
  (m = MDebug -> 0 <= threshold log entry) ->
  exists log',
    call m format args entry (log, world) = Ret (tt, (log', world))
    /\ rendered (log_Writer log')
       = rendered (log_Writer log)
           ++ line_bytes (now world) (rendered_entry m format args log entry)
    /\ pool_clean log' /\ Level log' = Level log.
Proof.
  intros Hpool Hfit Hbuf Hpass Hdebug.
  destruct (call_rendered_line m format args entry log world
              Hpool Hfit Hbuf Hpass Hdebug) as (log' & Hc & Hr & Hp & HL & _).
  exists log'. repeat split; assumption.
Qed.


Lemma fields_object (kvs : list (gostring * Value)) :
  kvs <> [] ->
  concat (map (fun kv => field_bytes kv.1 kv.2) kvs)
  = join comma (map field_member kvs) ++ [comma].
Proof.
  intros Hk. rewrite <- join_snoc_sep by (destruct kvs; [congruence|discriminate]).
  rewrite map_map. f_equal. apply map_ext. intros [k v].
  unfold field_bytes, field_member. cbn [fst snd app].
  now rewrite <- !app_assoc.
Qed.

Lemma fields_object_nonempty (kvs : list (gostring * Value)) :
  kvs <> [] -> (1 <= length (join comma (map field_member kvs)))%nat.
Proof.
  destruct kvs as [|[k v] [|kv l]]; [congruence| |]; intros _;
    cbn [map join]; unfold field_member at 1; cbn [fst snd app length]; lia.
Qed.

(** X9. Fields, then a call.  On a working entry without fields that
    does not capture the caller, [WithFields] with a map that is not
    empty and holds no control, followed by a call that is not filtered,
    renders one line whose object of fields holds the pairs of the map
    in the order of the [range], separated by commas, each key between
    quotes; the message follows. *)
Theorem WithFields_then_call (kvs : list (gostring * Value)) (m : method)
    (format : gostring) (args : list Value) (entry : entryStd)
    (log : loggerStd Recorder) (world : World) :
  logout entry = false ->
  data entry = [] ->
  depth entry <= 0 ->
  kvs <> [] ->
  Forall (fun kv => is_control kv.1 kv.2 = false) kvs ->
  pool_clean log ->
  is_fatal m = true \/ level entry <= severity m ->
  (m = MDebug -> 0 <= level entry) ->
  exists log',
    (e <- WithFields (Some kvs) entry ;; call m format args e) (log, world)
    = Ret (tt, (log', world))
    /\ rendered (log_Writer log')
       = rendered (log_Writer log)
           ++ part1 ++ Format (now world) (timeformat entry) ++ part2
           ++ nth (Z.to_nat (level_of m (level entry))) levels []
           ++ part3 ++ join comma (map field_member kvs) ++ [rbrace]
           ++ (match message_of m format args with
               | [] => part7
               | msg => part5 ++ writeString msg [] ++ part6
               end).
Proof.
  intros Hlo Hd Hdepth Hk Hall Hpool Hpass Hdebug.
  destruct (WithFields_ordinary kvs entry (log, world) Hlo Hall) as (c & Hwf).
  rewrite (bind_Ret _ _ _ _ _ Hwf).
  rewrite Hd, app_nil_l, (fields_object kvs Hk).
  set (e1 := set_datacap c _).
  destruct (call_rendered_line m format args e1 log world Hpool)
    as (log' & Hc & Hr & _ & _ & _).
  - intros Hlo1. subst e1. cbn [logout set_data set_datacap] in Hlo1.
    congruence.
  - unfold fields_buffer. subst e1. cbn [data set_data set_datacap].
    rewrite length_app. cbn [length].
    pose proof (fields_object_nonempty kvs Hk). lia.
  - unfold threshold. subst e1. cbn [logout set_data set_datacap level]. now rewrite Hlo.
  - unfold threshold. subst e1. cbn [logout set_data set_datacap level]. now rewrite Hlo.
  - exists log'. split; [exact Hc|]. rewrite Hr. f_equal.
    unfold line_bytes, render_data, rendered_entry.
    cbn [level message timeformat data depth]. subst e1.
    cbn [logout set_data set_datacap level timeformat data depth].
    rewrite Hlo.
    destruct (Z.ltb_spec 0 (depth entry)) as [|_]; [lia|].
    destruct (join comma (map field_member kvs) ++ [comma]) eqn:Hj;
      [destruct (join comma (map field_member kvs)); discriminate Hj|].
    rewrite <- Hj, set_last_snoc. now rewrite <- !app_assoc.
Qed.

(** X10. [SetLevel] and the threshold.  After [SetLevel], a call on a
    template is filtered by the new level, as long as the buffer of the
    template fits the entry that the pool gives, without which the fork
    panics before the test.  A working entry keeps the level it took when
    it was forked: a call on it below that level stays filtered whatever
    level is set afterwards. *)
Theorem SetLevel_threshold (lv : Z) (m : method) (format : gostring)
    (args : list Value) (entry : entryStd) (log : loggerStd Recorder)
    (world : World) :
  fork_fits log entry ->
  is_fatal m = false ->
  severity m < (if logout entry then lv else level entry) ->
  exists log',
    (SetLevel lv ;;; call m format args entry) (log, world)
    = Ret (tt, (log', world))
    /\ log_Writer log' = log_Writer log /\ Level log' = lv.
Proof.
  intros Hfit Hm Hlt.
  assert (Hs : SetLevel lv (log, world) = Ret (tt, (set_Level lv log, world)))
    by reflexivity.
  rewrite (bind_Ret _ _ _ _ _ Hs).
  destruct (call_filtered m format args entry (set_Level lv log) world)
    as (log' & Hc & Hw & HL & _).
  - exact Hfit.
  - exact Hm.
  - exact Hlt.
  - exists log'. split; [exact Hc|]. split; [exact Hw|exact HL].
Qed.

(** X21. Call after call.  When the run time gives a buffer that
    grows the room it needs, on a logger whose pool holds entries without
    fields that are not templates, with buffers of capacity 2048 at
    least, a call on a template that holds at most 2048 bytes of fields,
    or on a working entry whose buffer has capacity 2048 at least,
    returns, filtered or not, and leaves a pool of which the same holds:
    the reslice of the fork stays in range for the calls that follow. *)
Theorem call_keeps_pool (m : method) (format : gostring) (args : list Value)
    (entry : entryStd) (log : loggerStd Recorder) (world : World) :
  growslice_fits ->
  pool_clean log ->
  pool_roomy log ->
  entry_roomy entry ->
  fields_buffer (data entry) ->
  (m = MDebug -> 0 <= threshold log entry) ->
  exists log',
    call m format args entry (log, world) = Ret (tt, (log', world))
    /\ pool_clean log' /\ pool_roomy log' /\ Level log' = Level log.
Proof.
  intros Hg Hpool Hroom Hentry Hbuf Hdebug.
  assert (Hfit : fork_fits log entry).
  { intros Hlo. right. unfold entry_roomy in Hentry. rewrite Hlo in Hentry.
    pose proof (next_entry_roomy log Hroom). lia. }
  assert (Hwork : logout entry = false -> 2048 <= datacap entry).
  { intros Hlo. unfold entry_roomy in Hentry. now rewrite Hlo in Hentry. }
  destruct (is_fatal m) eqn:Hm;
    [|destruct (Z.le_gt_cases (threshold log entry) (severity m)) as [Hle|Hgt]].
  - destruct (call_rendered_line m format args entry log world
                Hpool Hfit Hbuf (or_introl Hm) Hdebug)
      as (log' & Hc & _ & Hp & HL & Hr).
    exists log'. repeat split; auto.
  - destruct (call_rendered_line m format args entry log world
                Hpool Hfit Hbuf (or_intror Hle) Hdebug)
      as (log' & Hc & _ & Hp & HL & Hr).
    exists log'. repeat split; auto.
  - destruct (call_filtered m format args entry log world Hfit Hm)
      as (log' & Hc & _ & HL & Hlog); [lia|].
    exists log'. split; [exact Hc|]. subst log'.
    destruct (logout entry); [|now repeat split].
    unfold pool_clean, pool_roomy, popped in *.
    destruct (Pool log) as [|e pool] eqn:Hp_; [rewrite Hp_; now repeat split|].
    cbn [Pool set_Pool Level].
    apply Forall_cons_1 in Hpool as [_ Hpool].
    apply Forall_cons_1 in Hroom as [_ Hroom]. now repeat split.
Qed.

End ExtraLines.

(** * More on the rotating writer *)

Lemma wrap_uint64_small (z : Z) : 0 <= z < 2 ^ 64 -> wrap_uint64 z = z.
Proof. intros Hz. unfold wrap_uint64. now apply Z.mod_small. Qed.

Lemma Index_from_absent (s substr : gostring) (i : Z) :
  0 <= i -> Index_from s substr i = -1 ->
  HasPrefix s substr = false
  /\ match s with
     | [] => True
     | _ :: s' => Index_from s' substr (i + 1) = -1
     end.
Proof.
  intros Hi Hidx. destruct s as [|c s]; cbn [Index_from] in Hidx;
    destruct (HasPrefix _ substr); try lia; auto.
Qed.

(** A string in which [old] does not occur is left as it is. *)
Lemma Replace_loop_absent (old new : gostring) (n : Z) (fuel : nat) :
  forall (s : gostring) (i : Z),
    0 <= i -> Index_from s old i = -1 -> Replace_loop fuel s old new n = s.
Proof.
  induction fuel as [|fuel IH]; intros s i Hi Hidx; [reflexivity|].
  cbn [Replace_loop]. destruct (n =? 0); [reflexivity|].
  destruct (Index_from_absent s old i Hi Hidx) as [Hp Hrest].
  destruct s as [|c s]; [reflexivity|]. rewrite Hp.
  f_equal. apply (IH s (i + 1)); [lia|exact Hrest].
Qed.

Lemma Replace_absent (s old new : gostring) (n : Z) :
  Index s old = -1 -> Replace s old new n = s.
Proof. intros Hidx. now apply (Replace_loop_absent old new n _ s 0). Qed.

Section ExtraWriterFacts.
Context `{GoLib}.

Lemma formatDateName_date_name (name : gostring) (world : World) :
  formatDateName name world = Ret (date_name name world, world).
Proof. reflexivity. Qed.

Lemma rotate_Sync_ok (w : syncWriterRotate) (world : World) :
  writer_ok w -> rotate_Sync (w, world) = Ret (None, (w, world)).
Proof.
  unfold writer_ok, rotate_Sync. intros Hok. wstep.
  destruct (file w); [|reflexivity].
  destruct (Hok (mk_is_Some _ _ eq_refl)) as [x ->]. reflexivity.
Qed.

(** One turn of the loop on a segment that is full: the index moves on,
    nothing else that matters does. *)
Lemma rotateFile_loop_full (fuel : nat) (fname : gostring)
    (w : syncWriterRotate) (world : World) :
  full_segment world (MaxSize w)
    (Replace fname (str "index") (Sprint_int (nextindex w)) (-1)) ->
  exists size,
    rotateFile_loop (S fuel) fname (w, world)
    = rotateFile_loop fuel fname
        (set_nbytes size (set_nextindex (wrap_int (nextindex w + 1)) w), world).
Proof.
  intros (Hopen & content & Hfile & Hsize).
  exists (Z.of_nat (length content)).
  cbn [rotateFile_loop]. wstep. unfold OpenFile, Stat_Size. rewrite Hopen, Hfile.
  wstep. rewrite Hfile. change (default [] (Some content)) with content.
  rewrite wrap_uint64_small by lia.
  destruct (Z.ltb_spec (Z.of_nat (length content)) (MaxSize w)); [lia|].
  destruct world; reflexivity.
Qed.

(** One turn of the loop on a segment that does not exist yet. *)
Lemma rotateFile_loop_fresh (fuel : nat) (fname : gostring)
    (w : syncWriterRotate) (world : World) :
  let c := Replace fname (str "index") (Sprint_int (nextindex w)) (-1) in
  writer_ok w ->
  0 < MaxSize w ->
  openable world c = true ->
  files world !! c = None ->
  rotateFile_loop (S fuel) fname (w, world)
  = Ret (None,
         (set_Writer_file {| Name := c |}
            (set_nbytes 0 (set_nextindex (wrap_int (nextindex w + 1)) w)),
          run_callbacks (newfn w) c (create_empty c world))).
Proof.
  intros c Hok Hmax Hopen Hfresh. subst c.
  cbn [rotateFile_loop]. wstep. unfold OpenFile, Stat_Size. rewrite Hopen, Hfresh.
  wstep. rewrite lookup_insert_eq.
  change (length (default [] (Some (@nil byte)))) with 0%nat.
  change (wrap_uint64 (Z.of_nat 0)) with 0.
  destruct (Z.ltb_spec 0 (MaxSize w)); [|lia].
  rewrite rotate_Sync_ok by exact Hok. wstep. reflexivity.
Qed.

Lemma rotateFile_loop_skip (fname : gostring) (world : World) (k : nat) :
  forall (fuel : nat) (w : syncWriterRotate),
    writer_ok w ->
    0 < MaxSize w ->
    0 <= nextindex w ->
    nextindex w + Z.of_nat k + 1 < 2 ^ 63 ->
    (forall i, (i < k)%nat ->
       full_segment world (MaxSize w)
         (Replace fname (str "index")
            (Sprint_int (nextindex w + Z.of_nat i)) (-1))) ->
    let c := Replace fname (str "index")
               (Sprint_int (nextindex w + Z.of_nat k)) (-1) in
    openable world c = true ->
    files world !! c = None ->
    rotateFile_loop (S k + fuel) fname (w, world)
    = Ret (None,
           (set_Writer_file {| Name := c |}
              (set_nbytes 0 (set_nextindex (nextindex w + Z.of_nat k + 1) w)),
            run_callbacks (newfn w) c (create_empty c world))).
Proof.
  induction k as [|k IH]; intros fuel w Hok Hmax Hn Hk Hfull c Hopen Hfresh;
    subst c.
  - change (Z.of_nat 0) with 0 in *. rewrite Z.add_0_r in *.
    rewrite rotateFile_loop_fresh by assumption.
    now rewrite wrap_int_small by lia.
  - change (S (S k) + fuel)%nat with (S (S k + fuel)).
    destruct (rotateFile_loop_full (S k + fuel) fname w world) as (size & ->).
    { specialize (Hfull 0%nat ltac:(lia)).
      change (Z.of_nat 0) with 0 in Hfull. now rewrite Z.add_0_r in Hfull. }
    rewrite wrap_int_small by lia.
    set (w1 := set_nbytes size (set_nextindex (nextindex w + 1) w)).
    assert (H1 : nextindex w1 = nextindex w + 1) by reflexivity.
    rewrite (IH fuel w1).
    + rewrite H1. subst w1.
      replace (nextindex w + 1 + Z.of_nat k)
        with (nextindex w + Z.of_nat (S k)) by lia.
      reflexivity.
    + exact Hok.
    + exact Hmax.
    + rewrite H1. lia.
    + rewrite H1. lia.
    + intros i Hi. rewrite H1.
      replace (nextindex w + 1 + Z.of_nat i)
        with (nextindex w + Z.of_nat (S i)) by lia.
      apply Hfull. lia.
    + rewrite H1.
      replace (nextindex w + 1 + Z.of_nat k)
        with (nextindex w + Z.of_nat (S k)) by lia.
      exact Hopen.
    + rewrite H1.
      replace (nextindex w + 1 + Z.of_nat k)
        with (nextindex w + Z.of_nat (S k)) by lia.
      exact Hfresh.
Qed.

(** X11. [rotateFile] passes over the segments that are full and settles
    on the first that is not.  When the segments of the next [k] indices
    exist with a size at or above the maximum, and the segment after them
    does not exist and can be opened, [rotateFile] returns without error
    after [k + 1] turns: the new segment is created empty and becomes the
    file of the writer, the count of bytes is zero, the next index is the
    one after it, the callbacks have run on its name, and no other file
    is touched.  With [k = 0] this is the plain rotation to a new file. *)
Theorem rotateFile_skips_full_segments (k fuel : nat) (w : syncWriterRotate)
    (world : World) :
  writer_ok w ->
  0 < MaxSize w ->
  0 <= nextindex w ->
  nextindex w + Z.of_nat k + 1 < 2 ^ 63 ->
  (forall i, (i < k)%nat ->
     full_segment world (MaxSize w)
       (segment_name (name w) world (nextindex w + Z.of_nat i))) ->
  openable world (segment_name (name w) world (nextindex w + Z.of_nat k))
  = true ->
  files world !! segment_name (name w) world (nextindex w + Z.of_nat k)
  = None ->
  rotateFile (S k + fuel) (w, world)
  = Ret (None,
         (set_Writer_file
            {| Name := segment_name (name w) world (nextindex w + Z.of_nat k) |}
            (set_nbytes 0 (set_nextindex (nextindex w + Z.of_nat k + 1) w)),
          run_callbacks (newfn w)
            (segment_name (name w) world (nextindex w + Z.of_nat k))
            (create_empty
               (segment_name (name w) world (nextindex w + Z.of_nat k))
               world))).
Proof.
  intros Hok Hmax Hn Hk Hfull Hopen Hfresh.
  unfold rotateFile.
  unfold self at 1, bind at 1.
  unfold in_world at 1, bind at 1. rewrite formatDateName_date_name.
  now apply rotateFile_loop_skip.
Qed.

(** What never changes in the loop, and what a result tells. *)
Lemma rotateFile_loop_outcome (fuel : nat) (fname : gostring) :
  forall (w : syncWriterRotate) (world : World) (r : option error)
         (w' : syncWriterRotate) (world' : World),
    rotateFile_loop fuel fname (w, world) = Ret (r, (w', world')) ->
    (name w' = name w /\ std w' = std w /\ MaxSize w' = MaxSize w
     /\ nexttime w' = nexttime w /\ newfn w' = newfn w)
    /\ match r with
       | Some _ => Writer w' = Writer w /\ file w' = file w
       | None =>
         exists f, Writer w' = Some f /\ file w' = Some f
                   /\ nbytes w' < MaxSize w
       end.
Proof.
  induction fuel as [|fuel IH]; intros w world r w' world' Hrun;
    [discriminate Hrun|].
  cbn [rotateFile_loop] in Hrun. revert Hrun. wstep.
  unfold OpenFile, Stat_Size. destruct (openable world _).
  - wstep.
    match goal with
    | |- context [(?a <? ?b)] => destruct (Z.ltb_spec a b)
    end.
    + unfold rotate_Sync. wstep.
      destruct (file w); [destruct (Writer w)|]; wstep; intros Hrun;
        try discriminate Hrun;
        injection Hrun as <- <- <-; (split; [repeat split|]);
        eexists; repeat split; assumption.
    + intros Hrun. apply IH in Hrun as (Hframe & Hres).
      cbn [name std MaxSize nexttime newfn Writer file
           set_nbytes set_nextindex] in *.
      split; [exact Hframe|]. destruct r; exact Hres.
  - wstep. intros Hrun. injection Hrun as <- <- <-. repeat split.
Qed.

(** X12. What a rotation leaves.  Whenever [rotateFile] returns, the
    name, the flag, the maximum, the next hour and the callbacks of the
    writer are as before.  If it returns an error, the file and the
    buffered writer are those the writer had: the previous file stays in
    use.  If it returns no error, the writer has a file and a buffered
    writer on it, and the count of bytes is below the maximum. *)
Theorem rotateFile_outcome (fuel : nat) (w : syncWriterRotate) (world : World)
    (r : option error) (w' : syncWriterRotate) (world' : World) :
  rotateFile fuel (w, world) = Ret (r, (w', world')) ->
  (name w' = name w /\ std w' = std w /\ MaxSize w' = MaxSize w
   /\ nexttime w' = nexttime w /\ newfn w' = newfn w)
  /\ match r with
     | Some _ => Writer w' = Writer w /\ file w' = file w
     | None =>
       exists f, Writer w' = Some f /\ file w' = Some f
                 /\ nbytes w' < MaxSize w
     end.
Proof.
  unfold rotateFile. unfold self at 1, bind at 1.
  unfold in_world at 1, bind at 1. rewrite formatDateName_date_name.
  apply rotateFile_loop_outcome.
Qed.

(** X13. A rotation that never ends.  When the name with the date has
    no placeholder for the index, every turn of the loop of [rotateFile]
    opens the same file; if that file exists with a size at or above the
    maximum, no turn can settle on it: whatever the number of turns
    allowed, the loop is still running. *)
Theorem rotateFile_never_returns (w : syncWriterRotate) (world : World)
    (fuel : nat) :
  Index (date_name (name w) world) (str "index") = -1 ->
  full_segment world (MaxSize w) (date_name (name w) world) ->
  rotateFile fuel (w, world) = OutOfFuel.
Proof.
  intros Hidx Hfull. unfold rotateFile.
  unfold self at 1, bind at 1.
  unfold in_world at 1, bind at 1. rewrite formatDateName_date_name.
  assert (Hloop : forall w0,
    MaxSize w0 = MaxSize w ->
    rotateFile_loop fuel (date_name (name w) world) (w0, world) = OutOfFuel).
  { induction fuel as [|fuel IH]; intros w0 Hmax; [reflexivity|].
    destruct (rotateFile_loop_full fuel (date_name (name w) world) w0 world)
      as (size & ->).
    - rewrite Replace_absent by exact Hidx. now rewrite Hmax.
    - apply IH. exact Hmax. }
  now apply Hloop.
Qed.

(** The rotation to a segment that does not exist yet. *)
Lemma rotateFile_fresh (fuel : nat) (w : syncWriterRotate) (world : World) :
  writer_ok w ->
  0 < MaxSize w ->
  0 <= nextindex w < 2 ^ 63 - 1 ->
  openable world (segment_name (name w) world (nextindex w)) = true ->
  files world !! segment_name (name w) world (nextindex w) = None ->
  rotateFile (S fuel) (w, world)
  = Ret (None,
         (set_Writer_file
            {| Name := segment_name (name w) world (nextindex w) |}
            (set_nbytes 0 (set_nextindex (nextindex w + 1) w)),
          run_callbacks (newfn w)
            (segment_name (name w) world (nextindex w))
            (create_empty (segment_name (name w) world (nextindex w)) world))).
Proof.
  intros Hok Hmax Hn Hopen Hfresh.
  pose proof (rotateFile_loop_skip (date_name (name w) world) world 0 fuel w
                Hok Hmax) as Hrot.
  change (Z.of_nat 0) with 0 in Hrot. rewrite Z.add_0_r in Hrot.
  specialize (Hrot ltac:(lia) ltac:(lia) ltac:(intros i Hi; lia) Hopen Hfresh).
  unfold rotateFile. unfold self at 1, bind at 1.
  unfold in_world at 1, bind at 1. rewrite formatDateName_date_name.
  change (S fuel) with (1 + fuel)%nat. exact Hrot.
Qed.

(** X14. A [Write] that does not start a rotation.  When the test of
    the size fails (the data is not the opening of a line, or the segment
    has room for it) and the clock has not passed the next hour, the data
    is appended to the current file, copied to standard output if the
    writer was built with the flag, and the count of bytes grows by the
    length of the data; the [Write] returns that length and no error. *)
Theorem rotate_Write_appends (fuel : nat) (p : list byte)
    (w : syncWriterRotate) (f : File) (world : World) :
  starts_size_rotation p w = false ->
  (nexttime w <? now world) = false ->
  Writer w = Some f ->
  rotate_Write fuel p (w, world)
  = Ret ((Z.of_nat (length p), None),
         (set_nbytes (wrap_uint64 (nbytes w + Z.of_nat (length p))) w,
          (if std w then set_stdout (stdout world ++ p) else fun wd => wd)
            (set_files
               (<[Name f := default [] (files world !! Name f) ++ p]>
                  (files world)) world))).
Proof.
  unfold starts_size_rotation. intros Hs Ht HW. unfold rotate_Write. wstep.
  rewrite Hs. wstep. rewrite Ht. wstep. rewrite HW. wstep.
  destruct (std w); wstep; reflexivity.
Qed.

(** X15. A [Write] that rolls.  When the data is the opening of a line,
    the segment would reach the maximum with it, the clock has not passed
    the next hour, and the next segment does not exist and can be opened
    (no callback being registered), the writer rotates before it writes:
    the opening is the first thing in the new segment, the files that
    existed are as they were, the count of bytes is the length of the
    opening, and the [Write] returns that length and no error. *)
Theorem rotate_Write_rolls (fuel : nat) (w : syncWriterRotate) (world : World) :
  starts_size_rotation part1 w = true ->
  (nexttime w <? now world) = false ->
  writer_ok w ->
  newfn w = [] ->
  0 < MaxSize w ->
  0 <= nextindex w < 2 ^ 63 - 1 ->
  openable world (segment_name (name w) world (nextindex w)) = true ->
  files world !! segment_name (name w) world (nextindex w) = None ->
  exists w' world',
    rotate_Write (S fuel) part1 (w, world)
    = Ret ((9, None), (w', world'))
    /\ file w' = Some {| Name := segment_name (name w) world (nextindex w) |}
    /\ nbytes w' = 9 /\ nextindex w' = nextindex w + 1
    /\ files world'
       = <[segment_name (name w) world (nextindex w) := part1]> (files world)
    /\ stdout world' = (if std w then stdout world ++ part1 else stdout world).
Proof.
  unfold starts_size_rotation. intros Hs Ht Hok Hfn Hmax Hn Hopen Hfresh.
  pose proof (rotateFile_loop_skip (date_name (name w) world) world 0 fuel w
                Hok Hmax) as Hrot.
  change (Z.of_nat 0) with 0 in Hrot. rewrite Z.add_0_r in Hrot.
  specialize (Hrot ltac:(lia) ltac:(lia) ltac:(intros i Hi; lia) Hopen Hfresh).
  fold (segment_name (name w) world (nextindex w)) in Hrot.
  assert (Hr : rotateFile (S fuel) (w, world)
               = Ret (None,
                      (set_Writer_file
                         {| Name := segment_name (name w) world (nextindex w) |}
                         (set_nbytes 0 (set_nextindex (nextindex w + 1) w)),
                       create_empty
                         (segment_name (name w) world (nextindex w)) world))).
  { unfold rotateFile. unfold self at 1, bind at 1.
    unfold in_world at 1, bind at 1. rewrite formatDateName_date_name.
    change (S fuel) with (1 + fuel)%nat. rewrite Hrot, Hfn. reflexivity. }
  unfold rotate_Write. wstep. rewrite Hs, Hr. unfold create_empty. wstep.
  rewrite Ht. wstep. rewrite lookup_insert_eq, insert_insert_eq.
  destruct (std w); wstep; eexists _, _; (split; [reflexivity|]);
    wstep; repeat split; reflexivity.
Qed.


(** X17. Construction of a rotating writer.  With a placeholder for
    the index in the name and a positive maximal size, when the segment
    of index 0 does not exist and can be opened, [NewLoggerWriterRotate]
    returns no error and a rotating writer on that segment, created
    empty: the count of bytes is zero, the next index is 1, the maximum
    is the one given, the next hour is after the clock, and the callbacks
    have run on the name of the segment. *)
Theorem NewLoggerWriterRotate_first_segment (fuel : nat) (name : gostring)
    (std : bool) (maxsize : Z) (fn : list (gostring -> World -> World))
    (world : World) :
  Index name (str "index") <> -1 ->
  0 < maxsize ->
  openable world (segment_name name world 0) = true ->
  files world !! segment_name name world 0 = None ->
  NewLoggerWriterRotate (S fuel) name std maxsize fn world
  = Ret ((Some (LWRotate
                  {| name := name; std := std; MaxSize := maxsize;
                     nextindex := 1;
                     nexttime := (now world / 3600 + 1) * 3600; nbytes := 0;
                     Writer := Some {| Name := segment_name name world 0 |};
                     file := Some {| Name := segment_name name world 0 |};
                     newfn := fn |}), None),
         run_callbacks fn (segment_name name world 0)
           (create_empty (segment_name name world 0) world))
  /\ now world < (now world / 3600 + 1) * 3600 <= now world + 3600.
Proof.
  intros Hidx Hmax Hopen Hfresh. rename name into nm. split.
  - unfold NewLoggerWriterRotate. cbv zeta.
    destruct (Z.eqb_spec (Index nm (str "index")) (-1)) as [|_];
      [congruence|].
    destruct (Z.leb_spec maxsize 0) as [|_]; [lia|].
    unfold getNextHour, time_Now, bind at 1 2, ret at 1.
    rewrite rotateFile_fresh; cbn [name MaxSize nextindex file newfn];
      try assumption; try lia; try reflexivity.
    intros [x Hx]. discriminate Hx.
  - pose proof (Z.div_mod (now world) 3600 ltac:(lia)).
    pose proof (Z.mod_pos_bound (now world) 3600 ltac:(lia)). lia.
Qed.

End ExtraWriterFacts.

(** * More on the escaper *)

(** A sequence that decodes is decided by its own bytes: what follows
    them does not matter. *)
Lemma DecodeRune_prefix (b : byte) (rest rest' : list byte) :
  (bv b <? RuneSelf)%N = false ->
  is_invalid (DecodeRune (b :: rest)) = false ->
  take (Nat.pred (snd (DecodeRune (b :: rest)))) rest'
  = take (Nat.pred (snd (DecodeRune (b :: rest)))) rest ->
  DecodeRune (b :: rest') = DecodeRune (b :: rest).
Proof.
  intros Hb. apply N.ltb_ge in Hb. unfold RuneSelf in Hb.
  unfold DecodeRune. cbv zeta.
  destruct (first_cases (bv b)) as [[Hlt _]|[_ Hx]]; [lia|].
  destruct Hx as [Hx|[Hx|[Hx|[Hx|[Hx|[Hx|[Hx|Hx]]]]]]]; rewrite Hx;
    [ eval_header xx | eval_header s1 | eval_header s2 | eval_header s3
    | eval_header s4 | eval_header s5 | eval_header s6 | eval_header s7 ].
  all: try (intros Hi; vm_compute in Hi; discriminate Hi).
  all: destruct rest as [|c1 [|c2 [|c3 r]]];
    cbn [length Nat.ltb Nat.leb fst snd negb];
    try (intros Hi; vm_compute in Hi; discriminate Hi).
  all: repeat match goal with
              | |- context [if ?c then (RuneError, 1%nat) else _] =>
                destruct c eqn:?;
                  try (intros Hi; vm_compute in Hi; discriminate Hi)
              end.
  all: cbn [length Nat.ltb Nat.leb fst snd negb Nat.pred];
    try (intros Hi; vm_compute in Hi; discriminate Hi).
  all: intros _ Ht;
    destruct rest' as [|d1 [|d2 [|d3 r']]]; cbn [take] in Ht;
    try discriminate Ht; simplify_eq;
    cbn [length Nat.ltb Nat.leb fst snd negb];
    repeat match goal with
           | H : ?c = _ |- context [if ?c then _ else _] => rewrite H
           end;
    reflexivity.
Qed.

Lemma Valid_from_ascii (l rest : list byte) :
  forallb is_ascii l = true ->
  Valid_from 0 (l ++ rest) = Valid_from 0 rest.
Proof.
  induction l as [|c l IH]; intros Hl; [reflexivity|].
  cbn [forallb] in Hl. apply andb_prop in Hl as [Hc Hl].
  cbn [app Valid_from]. unfold is_ascii in Hc.
  rewrite (ascii_not_invalid c (l ++ rest) Hc).
  rewrite (DecodeRune_ascii c (l ++ rest) Hc). cbn [negb andb snd Nat.pred].
  now apply IH.
Qed.

Lemma escape_ascii_is_ascii (b : byte) :
  is_ascii b = true -> forallb is_ascii (escape_ascii b) = true.
Proof.
  destruct b; intros Hb; vm_compute; vm_compute in Hb;
    first [reflexivity | discriminate Hb].
Qed.

Lemma Valid_from_escape_spec (s : gostring) :
  forall k : nat, (k <= length s)%nat -> Valid_from k (escape_spec k s) = true.
Proof.
  induction s as [|b s IH]; intros k Hk; [now destruct k|].
  cbn [length] in Hk. destruct k as [|k]; cbn [escape_spec].
  - destruct (bv b <? RuneSelf)%N eqn:Hb.
    + rewrite Valid_from_ascii by (now apply escape_ascii_is_ascii).
      apply IH. lia.
    + destruct (is_invalid (DecodeRune (b :: s))) eqn:Hinv.
      * change (backslash :: str "ufffd" ++ escape_spec 0 s)
          with ((backslash :: str "ufffd") ++ escape_spec 0 s).
        rewrite (Valid_from_ascii (backslash :: str "ufffd")) by reflexivity.
        apply IH. lia.
      * destruct (DecodeRune_valid b s Hb Hinv) as ([Hlo Hhi] & Hsz & _).
        cbn [length] in Hsz.
        assert (Hd : DecodeRune
                       (b :: escape_spec (Nat.pred (snd (DecodeRune (b :: s)))) s)
                     = DecodeRune (b :: s)).
        { apply DecodeRune_prefix; [exact Hb|exact Hinv|].
          rewrite escape_spec_skip by lia.
          rewrite take_app_le by (rewrite length_take; lia).
          now rewrite take_take, Nat.min_id. }
        cbn [Valid_from]. rewrite Hd, Hinv. cbn [negb andb].
        apply IH. lia.
  - cbn [Valid_from]. apply IH. lia.
Qed.

(** X18. Whatever the bytes of the message, what [writeString] appends
    is valid UTF-8: the sequences that decode are copied whole, and every
    other byte above the single-byte range is gone, replaced by an escape
    made of single-byte characters. *)
Theorem writeString_valid_utf8 (s : gostring) :
  Valid (writeString s []) = true.
Proof.
  rewrite writeString_spec. cbn [app]. unfold Valid.
  apply Valid_from_escape_spec. lia.
Qed.

Lemma escape_ascii_copied (b : byte) : copied b = true -> escape_ascii b = [b].
Proof.
  destruct b; intros Hb; vm_compute; vm_compute in Hb;
    first [reflexivity | discriminate Hb].
Qed.

(** X19. A text made of single-byte characters none of which is a
    control, the quote or the backslash is appended as it is. *)
Theorem writeString_plain_text (s : gostring) (data : list byte) :
  forallb copied s = true -> writeString s data = data ++ s.
Proof.
  intros Hs. rewrite writeString_spec. f_equal.
  induction s as [|b s IH]; [reflexivity|].
  cbn [forallb] in Hs. apply andb_prop in Hs as [Hb Hs].
  cbn [escape_spec]. pose proof Hb as Hb'. unfold copied in Hb'.
  apply andb_prop in Hb' as [Ha _]. unfold is_ascii in Ha. rewrite Ha.
  rewrite (escape_ascii_copied b Hb). cbn [app]. now rewrite IH.
Qed.

(** * The logging calls on concrete inputs *)

Section LoggerExamples.
#[local] Existing Instance model_GoLib.


(** The scenarios of the specification: at level INFO, Info of hello and
    world; at level WARNING, Debug and Info write nothing. *)
Example Info_hello_world :
  line_of (Info
             [VString (str "hello"); VString (str "world")]
             (example_template 1) (example_logger 1, example_world))
  = Some (lit "{'time':'2024-02-29 23:59:59','level':'INFO','message':'hello world'}"
            ++ [newline]).
Proof. vm_compute. reflexivity. Qed.

Example Debug_Info_at_WARNING :
  line_of (Debug [VString (str "x")]
             (example_template 2) (example_logger 2, example_world)) = Some []
  /\ line_of (Info [VString (str "y")]
                (example_template 2) (example_logger 2, example_world)) = Some [].
Proof. split; vm_compute; reflexivity. Qed.

Example WithField_user_n_Error :
  line_of ((e <- WithField (str "user")
                   (VString (str "a")) (example_template 0) ;;
            e <- WithField (str "n") (VInt KInt 3) e ;;
            Error [VString (str "failed")] e)
             (example_logger 0, example_world))
  = Some (lit "{'time':'2024-02-29 23:59:59','level':'ERROR','fields':{'user':'a','n':3},'message':'failed'}"
            ++ [newline]).
Proof. vm_compute. reflexivity. Qed.

(** Warning at level WARNING: the level of the line. *)
Lemma warning_level_name_witness :
  severity MWarning = 2
  /\ threshold (example_logger 2) (example_template 2) <= 2
  /\ (exists log' ts rest,
         call MWarning [] [VString (str "z")]
           (example_template 2) (example_logger 2, example_world)
         = Ret (tt, (log', example_world))
         /\ log_Writer log' = [] ++ [part1; ts; part2; str "WARIRNG"] ++ rest).
Proof.
  assert (Hs : severity MWarning = 2) by reflexivity.
  assert (Ht : threshold (example_logger 2) (example_template 2) <= 2)
    by (intros Hc; discriminate Hc).
  assert (Hfit : fork_fits (example_logger 2) (example_template 2))
    by (intros _; left; reflexivity).
  assert (Hpool : pool_working (example_logger 2)) by apply Forall_nil_2.
  split; [exact Hs|]. split; [exact Ht|].
  exact (proj1 (warning_level_name MWarning []
                  [VString (str "z")] (example_template 2) (example_logger 2)
                  example_world Hfit Hpool Hs Ht)).
Defined.

Example Warning_z_line :
  line_of (Warning [VString (str "z")]
             (example_template 2) (example_logger 2, example_world))
  = Some (lit "{'time':'2024-02-29 23:59:59','level':'WARIRNG','message':'z'}"
            ++ [newline])
  /\ Contains (lit "{'time':'2024-02-29 23:59:59','level':'WARIRNG','message':'z'}")
       (lit "'level':'WARNING'") = false.
Proof. split; vm_compute; reflexivity. Qed.

(** A working entry given the time 1970-01-01 00:00:00 and then logged at
    2024-02-29 23:59:59. *)
Lemma time_field_not_rendered_witness :
  logout example_entry = false
  /\ level example_entry < 2
  /\ WithField (str "time") (VTime 0) example_entry
       (example_logger 1, example_world)
     = Ret (set_time 0 example_entry, (example_logger 1, example_world))
  /\ exists log' rest,
      Info [VString (str "x")]
        (set_time 0 example_entry) (example_logger 1, example_world)
      = Ret (tt, (log', example_world))
      /\ log_Writer log'
         = [] ++ [part1; str "2024-02-29 23:59:59"; part2; str "INFO"] ++ rest.
Proof.
  assert (H1 : logout example_entry = false) by reflexivity.
  assert (H2 : level example_entry < 2) by reflexivity.
  split; [exact H1|]. split; [exact H2|].
  exact (time_field_not_rendered 0 [VString (str "x")]
           example_entry (example_logger 1) example_world H1 H2).
Defined.

Example WithField_time_line :
  line_of ((e <- WithField (str "time") (VTime 0)
                   (example_template 1) ;;
            Info [VString (str "x")] e)
             (example_logger 1, example_world))
  = Some (lit "{'time':'2024-02-29 23:59:59','level':'INFO','message':'x'}"
            ++ [newline])
  /\ model_Format 0 (str "2006-01-02 15:04:05") = str "1970-01-01 00:00:00".
Proof. split; vm_compute; reflexivity. Qed.

End LoggerExamples.

(** * The writers on concrete inputs *)

Section WriterExamples.
#[local] Existing Instance model_GoLib.

Lemma NewLoggerWriterRotate_empty_name_witness :
  (forall t : Time, Format t [] = [])
  /\ NewLoggerWriterFile [] true (fresh_world 0)
     = Ret ((Some LWStd, None), fresh_world 0)
  /\ NewLoggerWriterRotate 5 [] true 100 [] (fresh_world 0)
     = Ret ((Some LWStd, None), fresh_world 0).
Proof.
  assert (HF : forall t : Time, Format t [] = []) by reflexivity.
  split; [exact HF|].
  exact (NewLoggerWriterRotate_empty_name 5 true 100 [] (fresh_world 0) HF).
Defined.



(** C6, the claim at a concrete input: after ten lines segment 0 does
    not hold nine lines, and segment 1 does not exist. *)
Lemma nine_lines_then_roll_fails :
  ~ nine_lines_then_roll false (fun _ => rbrace).
Proof.
  intros (w & world & Hrun & Hseg0 & Hseg1).
  vm_compute in Hrun. injection Hrun as _ <-.
  vm_compute in Hseg1. destruct Hseg1 as [x Hx]. discriminate Hx.
Qed.

(** C6, as the code has it. In the scenario (threshold 100, lines of ten
    bytes written as the opening of nine bytes and one byte), segment 0
    receives exactly ten lines, which fill it to 100 bytes, and the
    writer rolls to segment 1 at the opening of the eleventh line: the
    test adds the nine bytes of the opening, not the ten of the line, to
    the size of the segment. *)
Theorem size_scenario_ten_lines (std : bool) (rest : nat -> byte) :
  (exists w world,
      size_scenario std rest 10 = Ret ((tt, w), world)
      /\ segment "app-0.log" world = Some (concat (short_lines rest 10))
      /\ segment "app-1.log" world = None
      /\ file w = Some {| Name := str "app-0.log" |})
  /\ (exists w world,
         size_scenario std rest 11 = Ret ((tt, w), world)
         /\ segment "app-0.log" world = Some (concat (short_lines rest 10))
         /\ segment "app-1.log" world = Some (concat (short_line rest 10))
         /\ file w = Some {| Name := str "app-1.log" |}).
Proof.
  destruct std; split; eexists _, _;
    (split; [vm_compute; reflexivity|]);
    repeat split; vm_compute; reflexivity.
Qed.

(** C2 (the code against the claim). A line whose first write is made at
    09:59:59 and whose other writes are made at 10:00:01, on a writer
    whose name carries the hour: the check of the date is made at every
    [Write], so the writer rotates after the opening of the line.  The
    opening is in the file of nine o'clock, the rest of the line in the
    file of ten o'clock. *)
Theorem time_rotation_splits_line :
  exists w world,
    hour_scenario = Ret ((tt, w), world)
    /\ segment "app-09.log" world = Some part1
    /\ segment "app-10.log" world
       = Some (concat (map snd (tail line_across_the_hour)))
    /\ file w = Some {| Name := str "app-10.log" |}.
Proof.
  eexists _, _. split; [vm_compute; reflexivity|].
  repeat split; vm_compute; reflexivity.
Qed.

End WriterExamples.

(** * The further statements on concrete inputs *)

Section ExtraExamples.
#[local] Existing Instance model_GoLib.

Lemma pool_clean_example (lv : Z) : pool_clean (example_logger lv).
Proof. apply Forall_nil_2. Defined.

(** The containers of the encoder, on the values of a test. *)
Example writeReflect_containers :
  writeReflect
    (VSlice [VInt KInt 1; VString (str "a"); VSlice []; VBool true]) []
  = lit "[1,'a',[],true]"
  /\ writeReflect
       (VMap [(VString (str "k"), VInt KInt 1); (VInt KInt 2, VInvalid)]) []
     = lit "{'k':1,2:''}"
  /\ writeReflect
       (VStruct [(str "A", true, VInt KInt 1); (str "b", false, VInt KInt 2);
                 (str "C", true, VPtr VInvalid)]) []
     = lit "{A:1,C:''}".
Proof. repeat split; vm_compute; reflexivity. Qed.

Lemma WithField_data_witness :
  logout example_entry = false
  /\ exists e',
      WithField (str "depth") (VBool true) example_entry
        (example_logger 1, example_world)
      = Ret (e', (example_logger 1, example_world))
      /\ data e' = lit "'depth':true,".
Proof.
  assert (Hlo : logout example_entry = false) by reflexivity.
  split; [exact Hlo|].
  destruct (WithField_data (str "depth") (VBool true) example_entry
              (example_logger 1) example_world Hlo)
    as (e' & He & Hd & _).
  exists e'. split; [exact He|]. rewrite Hd. vm_compute. reflexivity.
Defined.

Lemma depth_enable_disable_witness :
  logout example_entry = false
  /\ - 0x40 < depth example_entry < 0
  /\ (e <- WithField (str "depth") (VString (str "enable")) example_entry ;;
      WithField (str "depth") (VString (str "disable")) e)
       (example_logger 1, example_world)
     = Ret (example_entry, (example_logger 1, example_world)).
Proof.
  assert (Hlo : logout example_entry = false) by reflexivity.
  assert (Hd : - 0x40 < depth example_entry < 0) by (split; reflexivity).
  split; [exact Hlo|]. split; [exact Hd|].
  exact (proj2 (proj2 (depth_enable_disable example_entry (example_logger 1)
                         example_world Hlo Hd))).
Defined.

Lemma getEntry_copies_template_witness :
  exists e' log',
    getEntry (set_data (str "k,") (example_template 1))
      (example_logger 1, example_world)
    = Ret (e', (log', example_world))
    /\ data e' = str "k," /\ level e' = 1 /\ logout e' = false
    /\ datacap e' = 2048.
Proof.
  destruct (getEntry_copies_template
              (set_data (str "k,") (example_template 1)) (example_logger 1)
              example_world (pool_clean_example 1))
    as (e' & log' & Hg & Hd & _ & Hl & _ & Hlo & Hc & _).
  - right. vm_compute. discriminate.
  - exists e', log'. repeat split; assumption.
Defined.

Lemma call_line_witness :
  exists log',
    call MInfo [] [VString (str "hello"); VString (str "world")]
      (set_data (lit "'user':'a',") (example_template 1))
      (example_logger 1, example_world)
    = Ret (tt, (log', example_world))
    /\ rendered (log_Writer log')
       = lit "{'time':'2024-02-29 23:59:59','level':'INFO','fields':{'user':'a'},'message':'hello world'}"
           ++ [newline].
Proof.
  destruct (call_line MInfo [] [VString (str "hello"); VString (str "world")]
              (set_data (lit "'user':'a',") (example_template 1))
              (example_logger 1) example_world (pool_clean_example 1))
    as (log' & Hc & Hr & _).
  - intros _. right. vm_compute. discriminate.
  - discriminate.
  - right. discriminate.
  - discriminate.
  - exists log'. split; [exact Hc|]. rewrite Hr. vm_compute. reflexivity.
Defined.

(** A field of 3000 bytes, then [WithFields] with the nil map: the new
    entry of the pool has room for 2048. *)
Lemma fork_beyond_capacity_witness :
  (e <- WithField (str "k") (VString (repeat Byte.x61 3000))
         (example_template 1) ;;
   WithFields None e) (example_logger 1, example_world)
  = Panic.
Proof.
  assert (Hw : exists e,
    WithField (str "k") (VString (repeat Byte.x61 3000)) (example_template 1)
      (example_logger 1, example_world)
    = Ret (e, (example_logger 1, example_world))
    /\ data e <> []
    /\ datacap (next_entry (example_logger 1)) < Z.of_nat (length (data e))).
  { eexists. split; [vm_compute; reflexivity|].
    split; vm_compute; [discriminate|reflexivity]. }
  destruct Hw as (e & Hw & Hne & Hcap).
  rewrite (bind_Ret _ _ _ _ _ Hw).
  exact (proj1 (proj2 (fork_beyond_capacity e (example_logger 1) example_world
                         Hne Hcap))).
Defined.

(** A message of 3000 bytes on a template that carries a field: the
    buffer of the entry grows, and the pool it goes back to still serves
    the forks that follow. *)
Lemma call_keeps_pool_witness :
  exists log',
    call MInfo [] [VString (repeat Byte.x61 3000)]
      (set_data (lit "'user':'a',") (example_template 1))
      (example_logger 1, example_world)
    = Ret (tt, (log', example_world))
    /\ pool_clean log' /\ pool_roomy log'.
Proof.
  destruct (call_keeps_pool MInfo [] [VString (repeat Byte.x61 3000)]
              (set_data (lit "'user':'a',") (example_template 1))
              (example_logger 1) example_world)
    as (log' & Hc & Hp & Hr & _).
  - intros c n Hlt. cbn. lia.
  - apply pool_clean_example.
  - apply Forall_nil_2.
  - vm_compute. discriminate.
  - vm_compute. discriminate.
  - discriminate.
  - exists log'. split; [exact Hc|]. split; [exact Hp|exact Hr].
Defined.

Lemma WithFields_then_call_witness :
  exists log',
    (e <- WithFields (Some [(str "user", VString (str "a"));
                            (str "n", VInt KInt 3)]) example_entry ;;
     call MError [] [VString (str "failed")] e)
      (example_logger 1, example_world)
    = Ret (tt, (log', example_world))
    /\ rendered (log_Writer log')
       = lit "{'time':'2024-02-29 23:59:59','level':'ERROR','fields':{'user':'a','n':3},'message':'failed'}"
           ++ [newline].
Proof.
  destruct (WithFields_then_call
              [(str "user", VString (str "a")); (str "n", VInt KInt 3)]
              MError [] [VString (str "failed")] example_entry
              (example_logger 1) example_world)
    as (log' & Hc & Hr).
  - reflexivity.
  - reflexivity.
  - discriminate.
  - discriminate.
  - repeat (apply Forall_cons_2; [reflexivity|]). apply Forall_nil_2.
  - apply pool_clean_example.
  - right. discriminate.
  - discriminate.
  - exists log'. split; [exact Hc|]. rewrite Hr. vm_compute. reflexivity.
Defined.

Lemma SetLevel_threshold_witness :
  exists log',
    (SetLevel 2 ;;; call MInfo [] [VString (str "y")] (example_template 0))
      (example_logger 0, example_world)
    = Ret (tt, (log', example_world))
    /\ log_Writer log' = [] /\ Level log' = 2.
Proof.
  apply (SetLevel_threshold 2 MInfo [] [VString (str "y")]
           (example_template 0) (example_logger 0) example_world);
    [intros _; left; reflexivity|reflexivity|reflexivity].
Defined.

(** After a restart with segment 0 full, the writer settles on
    segment 1. *)
Lemma rotateFile_skips_full_segments_witness :
  exists w' world',
    rotateFile 2 (restart_writer, restart_world) = Ret (None, (w', world'))
    /\ file w' = Some {| Name := str "app-1.log" |}
    /\ nextindex w' = 2 /\ nbytes w' = 0
    /\ segment "app-1.log" world' = Some []
    /\ segment "app-0.log" world' = Some (repeat Byte.x2e 100).
Proof.
  eexists _, _. split.
  - apply (rotateFile_skips_full_segments 1 0 restart_writer restart_world).
    + intros [x Hx]. discriminate Hx.
    + reflexivity.
    + discriminate.
    + reflexivity.
    + intros i Hi. assert (i = 0%nat) as -> by lia.
      split; [reflexivity|].
      exists (repeat Byte.x2e 100). split; [vm_compute; reflexivity|].
      split; [discriminate|reflexivity].
    + reflexivity.
    + vm_compute. reflexivity.
  - repeat split; vm_compute; reflexivity.
Defined.

(** The rotation of the restarted writer returns no error: the writer it
    leaves has a file with room, under the name it had. *)
Lemma rotateFile_outcome_witness :
  exists w' world',
    rotateFile 2 (restart_writer, restart_world) = Ret (None, (w', world'))
    /\ name w' = name restart_writer
    /\ exists f, Writer w' = Some f /\ file w' = Some f
                 /\ nbytes w' < MaxSize restart_writer.
Proof.
  assert (Hr : exists w' world',
             rotateFile 2 (restart_writer, restart_world)
             = Ret (None, (w', world')))
    by (eexists _, _; vm_compute; reflexivity).
  destruct Hr as (w' & world' & Hr).
  exists w', world'. split; [exact Hr|].
  destruct (rotateFile_outcome 2 restart_writer restart_world None w' world' Hr)
    as [(Hn & _) Hf].
  split; [exact Hn | exact Hf].
Defined.

Lemma rotateFile_never_returns_witness :
  Index (date_name (name hourly_writer) hourly_world) (str "index") = -1
  /\ full_segment hourly_world (MaxSize hourly_writer)
       (date_name (name hourly_writer) hourly_world)
  /\ rotateFile 1000 (hourly_writer, hourly_world) = OutOfFuel.
Proof.
  assert (H1 : Index (date_name (name hourly_writer) hourly_world)
                 (str "index") = -1) by (vm_compute; reflexivity).
  assert (H2 : full_segment hourly_world (MaxSize hourly_writer)
                 (date_name (name hourly_writer) hourly_world)).
  { split; [reflexivity|].
    exists (repeat Byte.x2e 10). split; [vm_compute; reflexivity|].
    split; [discriminate|reflexivity]. }
  split; [exact H1|]. split; [exact H2|].
  exact (rotateFile_never_returns hourly_writer hourly_world 1000 H1 H2).
Defined.

Lemma rotate_Write_appends_witness :
  exists w' world',
    rotate_Write 5 part2 (full_disk_writer, full_disk_world)
    = Ret ((11, None), (w', world'))
    /\ nbytes w' = 106 /\ file w' = file full_disk_writer
    /\ segment "app-0.log" world' = Some (repeat Byte.x2e 95 ++ part2).
Proof.
  eexists _, _. split.
  - apply (rotate_Write_appends 5 part2 full_disk_writer
             {| Name := str "app-0.log" |} full_disk_world); reflexivity.
  - repeat split; vm_compute; reflexivity.
Defined.

Lemma rotate_Write_rolls_witness :
  exists w' world',
    rotate_Write 1 part1 (full_disk_writer, roomy_world)
    = Ret ((9, None), (w', world'))
    /\ file w' = Some {| Name := str "app-1.log" |}
    /\ segment "app-1.log" world' = Some part1
    /\ segment "app-0.log" world' = Some (repeat Byte.x2e 95).
Proof.
  destruct (rotate_Write_rolls 0 full_disk_writer roomy_world)
    as (w' & world' & Hw & Hf & _ & _ & Hfiles & _).
  - reflexivity.
  - reflexivity.
  - intros _. exists {| Name := str "app-0.log" |}. reflexivity.
  - reflexivity.
  - reflexivity.
  - split; [discriminate|reflexivity].
  - reflexivity.
  - vm_compute. reflexivity.
  - exists w', world'. split; [exact Hw|]. split; [rewrite Hf; vm_compute; reflexivity|].
    unfold segment. rewrite Hfiles. split; vm_compute; reflexivity.
Defined.


Lemma NewLoggerWriterRotate_first_segment_witness :
  exists w world',
    NewLoggerWriterRotate 1 (str "app-index.log") true 100 []
      (fresh_world 1709247600)
    = Ret ((Some (LWRotate w), None), world')
    /\ file w = Some {| Name := str "app-0.log" |}
    /\ nextindex w = 1 /\ nexttime w = 1709251200
    /\ segment "app-0.log" world' = Some [].
Proof.
  eexists _, _. split.
  - apply (proj1 (NewLoggerWriterRotate_first_segment 0 (str "app-index.log")
                    true 100 [] (fresh_world 1709247600)
                    ltac:(discriminate) ltac:(reflexivity)
                    ltac:(reflexivity) ltac:(vm_compute; reflexivity))).
  - repeat split; vm_compute; reflexivity.
Defined.

Lemma writeString_plain_text_witness :
  forallb copied (str "hello world") = true
  /\ writeString (str "hello world") [quote] = quote :: str "hello world".
Proof.
  assert (Hs : forallb copied (str "hello world") = true) by reflexivity.
  split; [exact Hs|].
  exact (writeString_plain_text (str "hello world") [quote] Hs).
Defined.

End ExtraExamples.
